(** * A shallow embedding of the llama-testgen generation core

    The TypeScript sources modelled here are [src/chunker.ts],
    [src/planner.ts], [src/generator.ts], [src/generateAgent.ts],
    [src/agent.ts] and [src/runState.ts].

    Conventions.
    - A JavaScript string is a Rocq [string]; one [ascii] character stands
      for one UTF-16 code unit, so [String.length] is [.length].
    - A JavaScript number that the code only uses as an integer is a [Z].
    - Runtime services the code calls but does not define (the TypeScript
      parser of ts-morph, prettier, the generative backend, [JSON.parse],
      [String.prototype.localeCompare], the file system) are parameters
      of Sections, so every theorem holds for all of their behaviours. *)

From Stdlib Require Import String Ascii List ZArith Lia Bool.
From Stdlib Require Import Sorting.Permutation Sorting.Sorted.
From Stdlib Require Import Structures.OrdersEx Numbers.DecimalString.
From Stdlib Require Numbers.DecimalZ.
Import ListNotations.

Open Scope Z_scope.

(* ------------------------------------------------------------------ *)
(** ** JavaScript string helpers *)

Module Js.

Definition code (c : ascii) : Z := Z.of_nat (nat_of_ascii c).

Definition len (s : string) : Z := Z.of_nat (String.length s).

(** [String(n)] for an integer-valued number. *)
Definition num_to_string (z : Z) : string :=
  NilEmpty.string_of_int (Z.to_int z).

(** [s.slice(i, j)] for [0 <= i]. *)
Definition slice (s : string) (i j : Z) : string :=
  substring (Z.to_nat i) (Z.to_nat (j - i)) s.

(** Characters of the class [\s] that are single code units below 256:
    tab, line feed, vertical tab, form feed, carriage return, space and
    no-break space. *)
Definition is_space (c : ascii) : bool :=
  let n := code c in
  ((9 <=? n) && (n <=? 13)) || (n =? 32) || (n =? 160).

(** [\w]: [A-Za-z0-9_]. *)
Definition is_word (c : ascii) : bool :=
  let n := code c in
  ((65 <=? n) && (n <=? 90)) || ((97 <=? n) && (n <=? 122))
  || ((48 <=? n) && (n <=? 57)) || (n =? 95).

Definition is_upper (c : ascii) : bool :=
  let n := code c in (65 <=? n) && (n <=? 90).

(** [s] with the prefix [p] removed, if [s] starts with [p]. *)
Fixpoint strip_prefix (p s : string) : option string :=
  match p, s with
  | EmptyString, _ => Some s
  | String a p', String b s' => if Ascii.eqb a b then strip_prefix p' s' else None
  | String _ _, EmptyString => None
  end.

Fixpoint skip_spaces (s : string) : string :=
  match s with
  | String c s' => if is_space c then skip_spaces s' else s
  | EmptyString => EmptyString
  end.

(** [\s+] followed by the rest: at least one space is consumed. *)
Definition spaces1 (s : string) : option string :=
  match s with
  | String c s' => if is_space c then Some (skip_spaces s') else None
  | EmptyString => None
  end.

(** Unanchored [re.test(s)] for a pattern decided at each position. *)
Fixpoint search (at_pos : string -> bool) (s : string) : bool :=
  at_pos s || match s with
              | String _ s' => search at_pos s'
              | EmptyString => false
              end.

Definition starts_with_char (f : ascii -> bool) (s : string) : bool :=
  match s with String c _ => f c | EmptyString => false end.

(** [/return\s*\(/] at the start of [s]. *)
Definition return_paren_at (s : string) : bool :=
  match strip_prefix "return" s with
  | Some r => starts_with_char (fun c => Ascii.eqb c "(") (skip_spaces r)
  | None => false
  end.

(** [/<\w/] at the start of [s]. *)
Definition lt_word_at (s : string) : bool :=
  match s with
  | String c r => Ascii.eqb c "<" && starts_with_char is_word r
  | EmptyString => false
  end.

(** ASCII [toLowerCase]. *)
Definition lower_char (c : ascii) : ascii :=
  if is_upper c then ascii_of_nat (nat_of_ascii c + 32) else c.

Fixpoint to_lower (s : string) : string :=
  match s with
  | String c s' => String (lower_char c) (to_lower s')
  | EmptyString => EmptyString
  end.

Fixpoint rev_string (s : string) : string :=
  match s with
  | String c s' => rev_string s' ++ String c EmptyString
  | EmptyString => EmptyString
  end.

(** [trim] removes white space and line terminators at both ends. *)
Definition trim (s : string) : string :=
  rev_string (skip_spaces (rev_string (skip_spaces s))).

(** [parts.join(sep)]. *)
Fixpoint join (sep : string) (parts : list string) : string :=
  match parts with
  | [] => EmptyString
  | [p] => p
  | p :: ps => p ++ sep ++ join sep ps
  end.

End Js.

(* ------------------------------------------------------------------ *)
(** ** [src/chunker.ts] *)

Module Chunker.

Inductive kind := KComponent | KFunction | KHook | KModule.

(** [type Chunk = { id; code; kind; approxTokens }] *)
Record Chunk := mkChunk {
  id : string;
  code : string;
  chunk_kind : kind;
  approxTokens : Z
}.

(** [Math.ceil(text.length / 4)] *)
Definition estimateTokens (text : string) : Z := (Js.len text + 3) / 4.

(** [/^use[A-Z]/.test(name)] then [/^[A-Z]/.test(name)]. *)
Definition inferKindFromName (name : string) : kind :=
  match Js.strip_prefix "use" name with
  | Some r => if Js.starts_with_char Js.is_upper r then KHook
              else if Js.starts_with_char Js.is_upper name then KComponent else KFunction
  | None => if Js.starts_with_char Js.is_upper name then KComponent else KFunction
  end.

(** [(/return\s*\(/.test(text) || /<\w/.test(text)) && /^[A-Z]/.test(name)] *)
Definition looksLikeComponent (text name : string) : bool :=
  (Js.search Js.return_paren_at text || Js.search Js.lt_word_at text)
  && Js.starts_with_char Js.is_upper name.

(** The part of the ts-morph syntax tree the chunker inspects: a
    top-level statement is a function declaration (with its name, if
    any), a variable statement with its declarations, or anything else.
    Every node carries its source text ([getText()]). *)
Inductive init_node :=
| InitArrow (text : string)
| InitFunctionExpr (text : string)
| InitOther (text : string).

Definition init_text (i : init_node) : string :=
  match i with InitArrow t | InitFunctionExpr t | InitOther t => t end.

Inductive stmt :=
| SFunction (name : option string) (text : string)
| SVariable (text : string) (decls : list (string * option init_node))
| SOther (text : string).

Section ChunkSource.
(** [project.createSourceFile('index.tsx', code).getStatements()] *)
Variable getStatements : string -> list stmt.

Definition var_decl_chunks (relPath stext : string)
    (decls : list (string * option init_node)) : list Chunk :=
  flat_map (fun d =>
    let '(name, init) := d in
    match init with
    | None => []
    | Some i =>
        let is_fn := match i with InitArrow _ | InitFunctionExpr _ => true | InitOther _ => false end in
        if is_fn || looksLikeComponent (init_text i) name
        then [mkChunk (relPath ++ "#" ++ name) stext (inferKindFromName name) (estimateTokens stext)]
        else []
    end) decls.

(** The [for (const stmt of file.getStatements())] loop. *)
Definition declChunks (relPath code : string) : list Chunk :=
  flat_map (fun s =>
    match s with
    | SFunction (Some name) text =>
        if String.eqb name "" then []
        else [mkChunk (relPath ++ "#" ++ name) text (inferKindFromName name) (estimateTokens text)]
    | SFunction None _ => []
    | SVariable text decls => var_decl_chunks relPath text decls
    | SOther _ => []
    end) (getStatements code).

(** The fallback [for (let i = 0; i < code.length; i += approxSize * 4)]
    loop; [chunks] is the array so far, [fuel] bounds the iterations. *)
Fixpoint sliceLoop (fuel : nat) (relPath code : string) (step i : Z)
    (chunks : list Chunk) : list Chunk :=
  match fuel with
  | O => chunks
  | S fuel' =>
      if i <? Js.len code then
        let slice := Js.slice code i (i + step) in
        let chunks' := chunks ++ [mkChunk (relPath ++ "#slice" ++ Js.num_to_string i)
                                          slice KModule (estimateTokens slice)] in
        if 12 <? Z.of_nat (length chunks') then chunks'
        else sliceLoop fuel' relPath code step (i + step) chunks'
      else chunks
  end.

Definition approxSize (maxTokens : Z) : Z := Z.max 512 (maxTokens - 512).

(** [chunks] just before [return chunks.filter(...)]. *)
Definition chunkCandidates (relPath code : string) (maxTokens : Z) : list Chunk :=
  match declChunks relPath code with
  | [] => sliceLoop (S (String.length code)) relPath code (approxSize maxTokens * 4) 0 []
  | chunks => chunks
  end.

Definition chunkSource (relPath code : string) (maxTokens : Z) : list Chunk :=
  let tokens := estimateTokens code in
  if tokens <=? maxTokens then [mkChunk (relPath ++ "#module") code KModule tokens]
  else filter (fun c => approxTokens c <=? maxTokens) (chunkCandidates relPath code maxTokens).

End ChunkSource.

End Chunker.

(* ------------------------------------------------------------------ *)
(** ** [src/planner.ts] *)

Module Planner.
Import Chunker.

(** [type WorkItem = { rel; originalTokens; chunks; skipReason? }] *)
Record WorkItem := mkWorkItem {
  rel : string;
  originalTokens : Z;
  chunks : list Chunk;
  skipReason : option string
}.

(** [type WorkPlan = { ctxBudget; renderer; framework; items }] *)
Record WorkPlan := mkWorkPlan {
  ctxBudget : Z;
  renderer : string;
  framework : string;
  items : list WorkItem
}.

(** A scanned file: [{ rel, text }]. *)
Record ScanFile := mkScanFile { file_rel : string; file_text : string }.

(** [/^(export\s+type|type\s+|interface\s+)/] at the start of [s]. *)
Definition types_decl_at (s : string) : bool :=
  match Js.strip_prefix "export" s with
  | Some r => match Js.spaces1 r with
              | Some r' => match Js.strip_prefix "type" r' with Some _ => true | None => false end
              | None => false
              end
  | None => false
  end
  || match Js.strip_prefix "type" s with
     | Some r => match Js.spaces1 r with Some _ => true | None => false end
     | None => false
     end
  || match Js.strip_prefix "interface" s with
     | Some r => match Js.spaces1 r with Some _ => true | None => false end
     | None => false
     end.

(** The [m] flag: the pattern is tried at offset 0 and after every line
    terminator. *)
Fixpoint search_line_starts (at_pos : string -> bool) (line_start : bool)
    (s : string) : bool :=
  (line_start && at_pos s) ||
  match s with
  | String c s' =>
      search_line_starts at_pos
        (Ascii.eqb c (ascii_of_nat 10) || Ascii.eqb c (ascii_of_nat 13)) s'
  | EmptyString => false
  end.

(** [/\bfunction\b/] at the start of [s], the previous character being
    a non-word character or the start of the text. *)
Definition function_word_at (s : string) : bool :=
  match Js.strip_prefix "function" s with
  | Some r => negb (Js.starts_with_char Js.is_word r)
  | None => false
  end.

Fixpoint search_function_word (prev_word : bool) (s : string) : bool :=
  (negb prev_word && function_word_at s) ||
  match s with
  | String c s' => search_function_word (Js.is_word c) s'
  | EmptyString => false
  end.

Definition arrow_at (s : string) : bool :=
  match Js.strip_prefix "=>" s with Some _ => true | None => false end.

Definition isPureTypes (text : string) : bool :=
  search_line_starts types_decl_at true text
  && negb (search_function_word false text
           || Js.search arrow_at text
           || Js.search Js.return_paren_at text).

Section PlanWork.
Variable getStatements : string -> list stmt.

Definition usableBudget (contextSize : Z) : Z := Z.max 1024 (contextSize / 2).

(** The body of [for (const f of scan.files)]: the items pushed for [f]. *)
Definition planFile (usable : Z) (f : ScanFile) : list WorkItem :=
  let tok := estimateTokens (file_text f) in
  if tok <? 64 then []
  else if isPureTypes (file_text f)
  then [mkWorkItem (file_rel f) tok [] (Some "Types-only file"%string)]
  else
    let cs := chunkSource getStatements (file_rel f) (file_text f) (usable - 768) in
    match cs with
    | [] => [mkWorkItem (file_rel f) tok [] (Some "Too large to chunk under budget"%string)]
    | _ => [mkWorkItem (file_rel f) tok cs None]
    end.

Definition planWork (files : list ScanFile) (renderer framework : string)
    (contextSize : Z) : WorkPlan :=
  let usable := usableBudget contextSize in
  mkWorkPlan usable renderer framework (flat_map (planFile usable) files).
End PlanWork.

End Planner.

(* ------------------------------------------------------------------ *)
(** ** Node's [path] module (posix), as called by the output-path code *)

Module NodePath.

Definition slash : ascii := "/".
Definition dot : ascii := ".".

Definition at_ (l : list ascii) (i : nat) : ascii := nth i l "000"%char.

Definition slice_l (l : list ascii) (i j : Z) : string :=
  string_of_list_ascii (firstn (Z.to_nat (j - i)) (skipn (Z.to_nat i) l)).

(** The loop of [dirname] for [i = n, ..., 1]; returns [end]. *)
Fixpoint dirname_loop (l : list ascii) (n : nat) (matchedSlash : bool) : Z :=
  match n with
  | O => -1
  | S j =>
      if Ascii.eqb (at_ l n) slash
      then (if negb matchedSlash then Z.of_nat n else dirname_loop l j matchedSlash)
      else dirname_loop l j false
  end.

Definition dirname (p : string) : string :=
  let l := list_ascii_of_string p in
  match l with
  | [] => "."%string
  | c0 :: _ =>
      let hasRoot := Ascii.eqb c0 slash in
      let end_ := dirname_loop l (length l - 1) true in
      if end_ =? -1 then (if hasRoot then "/"%string else "."%string)
      else if hasRoot && (end_ =? 1) then "//"%string
      else slice_l l 0 end_
  end.

(** The loop of [extname] for [i = n - 1, ..., 0]; the state is
    [(startDot, startPart, end, matchedSlash, preDotState)]. *)
Fixpoint extname_loop (l : list ascii) (n : nat)
    (st : Z * Z * Z * bool * Z) : Z * Z * Z * bool * Z :=
  match n with
  | O => st
  | S i =>
      let '(startDot, startPart, end_, matchedSlash, preDotState) := st in
      let c := at_ l i in
      if Ascii.eqb c slash then
        (if negb matchedSlash then (startDot, Z.of_nat i + 1, end_, matchedSlash, preDotState)
         else extname_loop l i st)
      else
        let '(matchedSlash', end') :=
          if end_ =? -1 then (false, Z.of_nat i + 1) else (matchedSlash, end_) in
        if Ascii.eqb c dot then
          let '(startDot', pre') :=
            if startDot =? -1 then (Z.of_nat i, preDotState)
            else if negb (preDotState =? 1) then (startDot, 1) else (startDot, preDotState) in
          extname_loop l i (startDot', startPart, end', matchedSlash', pre')
        else
          let pre' := if negb (startDot =? -1) then -1 else preDotState in
          extname_loop l i (startDot, startPart, end', matchedSlash', pre')
  end.

Definition extname (p : string) : string :=
  let l := list_ascii_of_string p in
  let '(startDot, startPart, end_, _, preDotState) :=
    extname_loop l (length l) (-1, 0, -1, true, 0) in
  if (startDot =? -1) || (end_ =? -1) || (preDotState =? 0)
     || ((preDotState =? 1) && (startDot =? end_ - 1) && (startDot =? startPart + 1))
  then ""%string
  else slice_l l startDot end_.

(** The loop of [basename] without a suffix; state [(start, end, matchedSlash)]. *)
Fixpoint basename_loop (l : list ascii) (n : nat) (st : Z * Z * bool) : Z * Z * bool :=
  match n with
  | O => st
  | S i =>
      let '(start, end_, matchedSlash) := st in
      if Ascii.eqb (at_ l i) slash then
        (if negb matchedSlash then (Z.of_nat i + 1, end_, matchedSlash)
         else basename_loop l i st)
      else if end_ =? -1 then basename_loop l i (start, Z.of_nat i + 1, false)
      else basename_loop l i st
  end.

(** The loop of [basename] with a suffix; state
    [(start, end, matchedSlash, extIdx, firstNonSlashEnd)]. *)
Fixpoint basename_suffix_loop (l sfx : list ascii) (n : nat)
    (st : Z * Z * bool * Z * Z) : Z * Z * bool * Z * Z :=
  match n with
  | O => st
  | S i =>
      let '(start, end_, matchedSlash, extIdx, firstNonSlashEnd) := st in
      let c := at_ l i in
      if Ascii.eqb c slash then
        (if negb matchedSlash then (Z.of_nat i + 1, end_, matchedSlash, extIdx, firstNonSlashEnd)
         else basename_suffix_loop l sfx i st)
      else
        let '(matchedSlash', fnse) :=
          if firstNonSlashEnd =? -1 then (false, Z.of_nat i + 1)
          else (matchedSlash, firstNonSlashEnd) in
        let '(extIdx', end') :=
          if 0 <=? extIdx then
            (if Ascii.eqb c (at_ sfx (Z.to_nat extIdx))
             then (if extIdx - 1 =? -1 then (extIdx - 1, Z.of_nat i) else (extIdx - 1, end_))
             else (-1, fnse))
          else (extIdx, end_) in
        basename_suffix_loop l sfx i (start, end', matchedSlash', extIdx', fnse)
  end.

Definition basename (p suffix : string) : string :=
  let l := list_ascii_of_string p in
  let n := length l in
  if (0 <? String.length suffix)%nat && (String.length suffix <=? n)%nat then
    if String.eqb suffix p then ""%string
    else
      let sfx := list_ascii_of_string suffix in
      let '(start, end_, _, _, fnse) :=
        basename_suffix_loop l sfx n (0, -1, true, Z.of_nat (length sfx) - 1, -1) in
      let end' := if start =? end_ then fnse else if end_ =? -1 then Z.of_nat n else end_ in
      slice_l l start end'
  else
    let '(start, end_, _) := basename_loop l n (0, -1, true) in
    if end_ =? -1 then ""%string else slice_l l start end_.

(** [normalizeString]: segments are read left to right; empty and ["."]
    segments are dropped, [".."] removes the last kept segment unless that
    is itself [".."] (or none is left), in which case it is kept only when
    the path may climb above its root. *)
Fixpoint split_on (c : ascii) (s : string) : list string :=
  match s with
  | EmptyString => [EmptyString]
  | String a s' =>
      if Ascii.eqb a c then EmptyString :: split_on c s'
      else match split_on c s' with
           | w :: ws => String a w :: ws
           | [] => [String a EmptyString]
           end
  end.

Definition normalize_segments (allowAboveRoot : bool) (segs : list string) : list string :=
  rev (fold_left (fun res seg =>
         if String.eqb seg "" || String.eqb seg "." then res
         else if String.eqb seg ".." then
           match res with
           | last :: res' => if String.eqb last ".." then
                               (if allowAboveRoot then ".."%string :: res else res)
                             else res'
           | [] => if allowAboveRoot then [".."%string] else []
           end
         else seg :: res) segs []).

Definition normalize (p : string) : string :=
  match p with
  | EmptyString => "."
  | String c0 _ =>
      let isAbsolute := Ascii.eqb c0 slash in
      let trailingSeparator :=
        match rev (list_ascii_of_string p) with
        | c :: _ => Ascii.eqb c slash
        | [] => false
        end in
      let body := Js.join "/" (normalize_segments (negb isAbsolute) (split_on slash p)) in
      if String.eqb body "" then
        (if isAbsolute then "/" else if trailingSeparator then "./" else ".")
      else
        let body' := if trailingSeparator then body ++ "/" else body in
        if isAbsolute then "/" ++ body' else body'
  end%string.

Definition join (args : list string) : string :=
  match filter (fun a => negb (String.eqb a "")) args with
  | [] => "."%string
  | a :: rest => normalize (fold_left (fun joined arg => joined ++ "/" ++ arg) rest a)%string
  end.

End NodePath.

(* ------------------------------------------------------------------ *)
(** ** JSON values and the JavaScript operations the code applies to them *)

Module Json.

Local Set Warnings "-register-all".

(** A parsed JSON document; numbers are the integers this code stores. *)
Inductive json :=
| JNull
| JBool (b : bool)
| JNum (n : Z)
| JStr (s : string)
| JArr (xs : list json)
| JObj (fields : list (string * json)).

(** Thrown values: file-system errors with their [code], [SyntaxError]
    from [JSON.parse], [TypeError] from a property read on [null]. *)
Inductive exn :=
| ExnFs (code : option string)
| ExnSyntax
| ExnType.

Inductive result (A : Type) :=
| Ok (a : A)
| Throw (e : exn).
Arguments Ok {A} a.
Arguments Throw {A} e.

Definition bind_r {A B} (r : result A) (k : A -> result B) : result B :=
  match r with Ok a => k a | Throw e => Throw e end.

(** [try { body } catch (e) { handler(e) }] *)
Definition try_catch {A} (body : result A) (handler : exn -> result A) : result A :=
  match body with Ok a => Ok a | Throw e => handler e end.

(** Truthiness of a value ([undefined] is [None]). *)
Definition truthy (v : option json) : bool :=
  match v with
  | None | Some JNull => false
  | Some (JBool b) => b
  | Some (JNum n) => negb (n =? 0)
  | Some (JStr s) => negb (String.eqb s "")
  | Some (JArr _) | Some (JObj _) => true
  end.

(** [o[k]] for a key that no prototype defines; the last duplicate key of a
    parsed object wins, as in [JSON.parse]. *)
Definition get (v : json) (k : string) : option json :=
  match v with
  | JObj fields =>
      fold_left (fun acc kv => if String.eqb (fst kv) k then Some (snd kv) else acc) fields None
  | _ => None
  end.

(** [v.k] as an expression: reading a property of [null] throws. *)
Definition js_get (v : json) (k : string) : result (option json) :=
  match v with
  | JNull => Throw ExnType
  | _ => Ok (get v k)
  end.

(** [o?.k], used after a truthiness guard. *)
Definition get_opt (v : option json) (k : string) : option json :=
  match v with Some v' => get v' k | None => None end.

Definition json_eqb_num (v : option json) (n : Z) : bool :=
  match v with Some (JNum m) => m =? n | _ => false end.

Definition json_eqb_str (v : option json) (s : string) : bool :=
  match v with Some (JStr t) => String.eqb t s | _ => false end.

End Json.

(* ------------------------------------------------------------------ *)
(** ** [src/runState.ts]: keys, loading and compatibility *)

Module RunState.
Import Json.

(** [chunkKey(file, chunkId?)] = [`${file}::${chunkId ?? '0'}`] *)
Definition chunkKey (file : string) (chunkId : option string) : string :=
  (file ++ "::" ++ match chunkId with Some c => c | None => "0" end)%string.

(** [loadRunState]: [readResult] is the outcome of
    [fs.readFile(statePath, 'utf-8')], [parse] is [JSON.parse] ([None] when
    it throws a [SyntaxError]). *)
Definition loadRunState (readResult : result string) (parse : string -> option json)
    : result (option json) :=
  try_catch
    (bind_r readResult (fun data =>
     bind_r (match parse data with Some p => Ok p | None => Throw ExnSyntax end) (fun parsed =>
     bind_r (if truthy (Some parsed)
             then bind_r (js_get parsed "version") (fun v => Ok (json_eqb_num v 1))
             else Ok false) (fun is_v1 =>
     if is_v1 then Ok (Some parsed) else Ok None))))
    (fun error =>
       match error with
       | ExnFs (Some c) => if String.eqb c "ENOENT" then Ok None else Ok None
       | _ => Ok None
       end).

(** [isStateCompatible(state, signature, mode, totalChunks)] *)
Definition isStateCompatible (state : json) (signature mode : string) (totalChunks : Z)
    : result bool :=
  if negb (truthy (Some state)) then Ok false else
  bind_r (js_get state "version") (fun v =>
  if negb (json_eqb_num v 1) then Ok false else
  bind_r (js_get state "planSignature") (fun sg =>
  if negb (json_eqb_str sg signature) then Ok false else
  bind_r (js_get state "mode") (fun md =>
  if negb (json_eqb_str md mode) then Ok false else
  bind_r (js_get state "totals") (fun tot =>
  if negb (truthy tot) then Ok false else
  if negb (json_eqb_num (get_opt tot "totalChunks") totalChunks) then Ok false else
  Ok true)))).

(** The CLI's use of the loaded state (the block after
    [const existingState = await loadRunState(statePath)]).  [continueRun]
    is the answer of [askForResume].  Returns the state resumed from and
    whether the state file is removed. *)
Definition chooseRunState (existingState : option json) (signature mode : string)
    (totalChunks : Z) (continueRun : bool) : option json * bool :=
  match existingState with
  | Some st =>
      let compatible := match isStateCompatible st signature mode totalChunks with
                        | Ok b => b | Throw _ => false end in
      if compatible then
        let completed := get_opt (get st "totals") "completedChunks" in
        let finished := match completed with Some (JNum c) => totalChunks <=? c | _ => false end in
        if finished then (None, true)
        else if continueRun then (Some st, false) else (None, true)
      else (None, true)
  | None => (None, false)
  end.

(** [StoredChunkState] and [StoredFileState] as the manager holds them;
    [status] is kept as a string since a loaded state is not re-validated. *)
Record StoredChunkState := mkStoredChunkState {
  status : string;
  message : option string
}.

Record StoredFileState := mkStoredFileState {
  summary_status : string;
  file_chunks : list (string * StoredChunkState)
}.

(** [RunStateManager.getCompletedChunkKeys()] over [perFile] (a record
    keyed by file). *)
Definition getCompletedChunkKeys (perFile : list (string * StoredFileState)) : list string :=
  flat_map (fun entry =>
    flat_map (fun kv =>
      let st := status (snd kv) in
      if String.eqb st "write" || String.eqb st "skip" || String.eqb st "exists"
      then [fst kv] else []) (file_chunks (snd entry))) perFile.

(** [Set.prototype.has] on a set given by its elements. *)
Definition set_has (s : list string) (k : string) : bool := existsb (String.eqb k) s.

End RunState.

(* ------------------------------------------------------------------ *)
(** ** SHA-1 ([crypto.createHash('sha1')]) over bytes held as [Z] *)

Module Sha1.

Definition mask32 : Z := Z.ones 32.

Definition add32 (a b : Z) : Z := Z.land (a + b) mask32.

Definition rotl (x n : Z) : Z :=
  Z.land (Z.lor (Z.shiftl x n) (Z.shiftr x (32 - n))) mask32.

(** The [k] low bytes of [n], most significant first. *)
Definition be_bytes (n : Z) (k : nat) : list Z :=
  map (fun i => Z.land (Z.shiftr n (8 * Z.of_nat (k - 1 - i))) 255) (seq 0 k).

(** Message padding: [0x80], zeros up to 56 mod 64, the bit length. *)
Definition pad (msg : list Z) : list Z :=
  let l := Z.of_nat (length msg) in
  msg ++ [128] ++ repeat 0 (Z.to_nat ((55 - l) mod 64)) ++ be_bytes (8 * l) 8.

Fixpoint words (bs : list Z) : list Z :=
  match bs with
  | a :: b :: c :: d :: r => (a * 16777216 + b * 65536 + c * 256 + d) :: words r
  | _ => []
  end.

Fixpoint blocks (fuel : nat) (ws : list Z) : list (list Z) :=
  match fuel with
  | O => []
  | S fuel' => match ws with [] => [] | _ => firstn 16 ws :: blocks fuel' (skipn 16 ws) end
  end.

(** Message schedule; [rw] holds the words so far, newest first. *)
Fixpoint expand (n : nat) (rw : list Z) : list Z :=
  match n with
  | O => rw
  | S n' =>
      let w := rotl (Z.lxor (Z.lxor (nth 2 rw 0) (nth 7 rw 0))
                            (Z.lxor (nth 13 rw 0) (nth 15 rw 0))) 1 in
      expand n' (w :: rw)
  end.

Definition schedule (block : list Z) : list Z := rev (expand 64 (rev block)).

Definition round (t : nat) (w : Z) (s : Z * Z * Z * Z * Z) : Z * Z * Z * Z * Z :=
  let '(a, b, c, d, e) := s in
  let '(f, k) :=
    if (t <? 20)%nat then (Z.lor (Z.land b c) (Z.land (Z.lxor b mask32) d), 1518500249)
    else if (t <? 40)%nat then (Z.lxor (Z.lxor b c) d, 1859775393)
    else if (t <? 60)%nat then (Z.lor (Z.lor (Z.land b c) (Z.land b d)) (Z.land c d), 2400959708)
    else (Z.lxor (Z.lxor b c) d, 3395469782) in
  let temp := add32 (add32 (add32 (add32 (rotl a 5) f) e) k) w in
  (temp, a, rotl b 30, c, d).

Fixpoint rounds (t : nat) (ws : list Z) (s : Z * Z * Z * Z * Z) : Z * Z * Z * Z * Z :=
  match ws with [] => s | w :: ws' => rounds (S t) ws' (round t w s) end.

Definition compress (h : Z * Z * Z * Z * Z) (block : list Z) : Z * Z * Z * Z * Z :=
  let '(h0, h1, h2, h3, h4) := h in
  let '(a, b, c, d, e) := rounds 0 (schedule block) h in
  (add32 h0 a, add32 h1 b, add32 h2 c, add32 h3 d, add32 h4 e).

Definition h_init : Z * Z * Z * Z * Z :=
  (1732584193, 4023233417, 2562383102, 271733878, 3285377520).

Definition digest (msg : list Z) : list Z :=
  let ws := words (pad msg) in
  let '(h0, h1, h2, h3, h4) := fold_left compress (blocks (length ws) ws) h_init in
  flat_map (fun h => be_bytes h 4) [h0; h1; h2; h3; h4].

Definition hex_digit (n : Z) : ascii :=
  ascii_of_nat (Z.to_nat (if n <? 10 then 48 + n else 87 + n)).

(** [digest('hex')] *)
Definition hex (bs : list Z) : string :=
  string_of_list_ascii (flat_map (fun b => [hex_digit (Z.shiftr b 4); hex_digit (Z.land b 15)]) bs).

(** [hash.update(s)] encodes [s] as UTF-8; a code unit below 256 is one
    byte below 128 and two bytes otherwise. *)
Definition utf8 (s : string) : list Z :=
  flat_map (fun c => let n := Js.code c in
                     if n <? 128 then [n]
                     else [Z.lor 192 (Z.shiftr n 6); Z.lor 128 (Z.land n 63)])
           (list_ascii_of_string s).

(** A hash object: the bytes passed to [update] so far. *)
Definition update (h : list Z) (s : string) : list Z := (h ++ utf8 s)%list.

End Sha1.

(* ------------------------------------------------------------------ *)
(** ** [computePlanSignature] ([src/runState.ts]) *)

Module PlanSignature.
Import Chunker Planner.

(** [Array.prototype.sort] with a comparator. The sort is stable, and for
    a consistent comparator every stable sort returns this list: [x] is
    placed before the first element that the comparator puts after it. *)
Fixpoint insert_by {A} (cmp : A -> A -> Z) (x : A) (l : list A) : list A :=
  match l with
  | [] => [x]
  | y :: ys => if 0 <? cmp y x then x :: y :: ys else y :: insert_by cmp x ys
  end.

Definition sort_by {A} (cmp : A -> A -> Z) (l : list A) : list A :=
  fold_left (fun acc x => insert_by cmp x acc) l [].

Definition kind_name (k : kind) : string :=
  match k with
  | KComponent => "component" | KFunction => "function"
  | KHook => "hook" | KModule => "module"
  end.

Section Signature.
(** [String.prototype.localeCompare] *)
Variable localeCompare : string -> string -> Z.

(** [{ ...item, chunks: [...item.chunks].sort((a, b) => a.id.localeCompare(b.id)) }] *)
Definition sortChunks (item : WorkItem) : WorkItem :=
  mkWorkItem (rel item) (originalTokens item)
    (sort_by (fun a b => localeCompare (id a) (id b)) (chunks item)) (skipReason item).

Definition sortedItems (plan : WorkPlan) : list WorkItem :=
  sort_by (fun a b => localeCompare (rel a) (rel b)) (map sortChunks (items plan)).

Definition hashChunk (h : list Z) (chunk : Chunk) : list Z :=
  let h := Sha1.update h (id chunk) in
  let h := Sha1.update h "|" in
  let h := Sha1.update h (kind_name (chunk_kind chunk)) in
  let h := Sha1.update h "|" in
  Sha1.update h (Js.num_to_string (approxTokens chunk)).

Definition hashItem (h : list Z) (item : WorkItem) : list Z :=
  let h := Sha1.update h (rel item) in
  let h := Sha1.update h "|" in
  let h := Sha1.update h (Js.num_to_string (originalTokens item)) in
  let h := Sha1.update h "|" in
  let h := match skipReason item with
           | Some r => if negb (String.eqb r "") then Sha1.update h r else h
           | None => h
           end in
  let h := Sha1.update h "|" in
  let h := Sha1.update h (Js.num_to_string (Z.of_nat (length (chunks item)))) in
  fold_left hashChunk (chunks item) h.

(** The bytes fed to the hash, in order. *)
Definition signatureInput (plan : WorkPlan) : list Z :=
  let h := Sha1.update [] (framework plan) in
  let h := Sha1.update h "|" in
  let h := Sha1.update h (renderer plan) in
  let h := Sha1.update h "|" in
  let h := Sha1.update h (Js.num_to_string (ctxBudget plan)) in
  fold_left hashItem (sortedItems plan) h.

Definition computePlanSignature (plan : WorkPlan) : string :=
  Sha1.hex (Sha1.digest (signatureInput plan)).

End Signature.

(** [localeCompare] is a strict total order on the strings [ks]: for
    distinct keys exactly one sorts after the other, and sorting after is
    transitive. *)
Definition strict_on (localeCompare : string -> string -> Z) (ks : list string) : bool :=
  let gt a b := 0 <? localeCompare a b in
  forallb (fun a => forallb (fun b =>
    (String.eqb a b || xorb (gt a b) (gt b a))
    && forallb (fun c => implb (gt a b && gt b c) (gt a c)) ks) ks) ks.

(** Same file entry up to the order of its chunks. *)
Definition item_reordered (i j : WorkItem) : Prop :=
  rel i = rel j /\ originalTokens i = originalTokens j /\ skipReason i = skipReason j
  /\ Permutation (chunks i) (chunks j).

(** [p'] is [p] with its items permuted and the chunks of each item
    permuted. *)
Definition plan_reordered (p p' : WorkPlan) : Prop :=
  framework p = framework p' /\ renderer p = renderer p' /\ ctxBudget p = ctxBudget p'
  /\ exists l, Forall2 item_reordered (items p) l /\ Permutation l (items p').

Fixpoint nodupb (l : list string) : bool :=
  match l with [] => true | x :: r => negb (existsb (String.eqb x) r) && nodupb r end.

(** Plans where the sort keys are unique and [localeCompare] orders them. *)
Definition keys_ordered (localeCompare : string -> string -> Z) (p : WorkPlan) : bool :=
  let rels := map rel (items p) in
  nodupb rels
  && strict_on localeCompare rels
  && forallb (fun it => let ids := map id (chunks it) in
                        nodupb ids
                        && strict_on localeCompare ids) (items p).

(** Code-unit order, [a < b ? -1 : a > b ? 1 : 0]. *)
Definition codeUnitCompare (a b : string) : Z :=
  match String.compare a b with Lt => -1 | Eq => 0 | Gt => 1 end.

(** [p'] is [p] with one chunk [c] of one item replaced by [c'], every
    other field of the plan, of the item and of the other chunks kept. *)
Definition chunk_replaced (p p' : WorkPlan) (c c' : Chunk) : Prop :=
  framework p = framework p' /\ renderer p = renderer p' /\ ctxBudget p = ctxBudget p' /\
  exists ipre it ipost cpre cpost,
    items p = ipre ++ it :: ipost /\ chunks it = cpre ++ c :: cpost /\
    items p' = ipre ++ mkWorkItem (rel it) (originalTokens it) (cpre ++ c' :: cpost) (skipReason it)
                 :: ipost.

End PlanSignature.

(* ------------------------------------------------------------------ *)
(** ** Effects of the generators: file system, backend calls, progress *)

Module Effects.

(** [onProgress] events. *)
Inductive evt_type := EStart | EWrite | ESkip | EExists | ETool | EError.

Record Event := mkEvent {
  etype : evt_type;
  efile : string;
  echunk : option string;
  emsg : option string
}.

(** Observable actions, in program order.  [ACall key prompt response] is
    one [model.complete] made while processing the chunk with run-state
    key [key]; [AAccess p b] is [fs.access(p)], [b] telling whether it
    succeeded. *)
Inductive Action :=
| ACall (key prompt response : string)
| AEvent (e : Event)
| AMkdir (dir : string)
| AAccess (path : string) (found : bool)
| AWrite (path contents : string)
| ARm (path : string)
| ARun (path : string).

Record St := mkSt {
  files : string -> option string;
  log : list Action
}.

Definition M (A : Type) : Type := St -> A * St.

Definition ret {A} (a : A) : M A := fun st => (a, st).

Definition bind {A B} (m : M A) (k : A -> M B) : M B :=
  fun st => let (a, st') := m st in k a st'.

Notation "x <- m ;; k" := (bind m (fun x => k)) (at level 61, m at next level, right associativity).
Notation "m ;;; k" := (bind m (fun _ => k)) (at level 61, right associativity).

Definition record (a : Action) : St -> St :=
  fun st => mkSt (files st) (log st ++ [a]).

Definition is_call (a : Action) : bool := match a with ACall _ _ _ => true | _ => false end.

Definition count_calls (l : list Action) : nat := length (filter is_call l).

Definition emit (e : Event) : M unit := fun st => (tt, record (AEvent e) st).

(** [model.complete(prompt)]: [backend n prompt] is the text returned by
    the [n]-th call of the run. *)
Definition complete (backend : nat -> string -> string) (key prompt : string) : M string :=
  fun st => let r := backend (count_calls (log st)) prompt in
            (r, record (ACall key prompt r) st).

Definition update (f : string -> option string) (p : string) (v : option string) :=
  fun q => if String.eqb q p then v else f q.

Definition mkdir (d : string) : M unit := fun st => (tt, record (AMkdir d) st).

Definition access (p : string) : M bool :=
  fun st => let b := match files st p with Some _ => true | None => false end in
            (b, record (AAccess p b) st).

Definition writeFile (p c : string) : M unit :=
  fun st => (tt, mkSt (update (files st) p (Some c)) (log st ++ [AWrite p c])).

(** [fs.rm(p, { force: true })] *)
Definition rm (p : string) : M unit :=
  fun st => (tt, mkSt (update (files st) p None) (log st ++ [ARm p])).

(** Effect of [for (const x of xs) await f(x)]. *)
Fixpoint mapM_ {A} (f : A -> M unit) (xs : list A) : M unit :=
  match xs with
  | [] => ret tt
  | x :: xs' => f x ;;; mapM_ f xs'
  end.

End Effects.

(* ------------------------------------------------------------------ *)
(** ** [src/generator.ts] *)

Module Generator.
Import Chunker Planner Effects RunState.

(** [resolveOutPath(projectRoot, outDir, rel)] *)
Definition resolveOutPath (projectRoot outDir rel : string) : string :=
  let relDir := NodePath.dirname rel in
  let ext := NodePath.extname rel in
  let normalizedExt :=
    if existsb (String.eqb (Js.to_lower ext)) [".ts"; ".tsx"; ".js"; ".jsx"]%string
    then ext else ".ts"%string in
  let baseName := NodePath.basename rel ext in
  let testFile := (baseName ++ ".test" ++ normalizedExt)%string in
  let destDir := if String.eqb relDir "." then ""%string else relDir in
  let baseDir := if String.eqb outDir "" then projectRoot else outDir in
  NodePath.join [baseDir; destDir; "__tests__"; testFile]%string.

(** The three-code-unit suffix of the source literal (U+00E2 U+20AC U+00A6,
    a mis-decoded ellipsis); U+20AC does not fit one [ascii], so the model
    keeps three characters of the same length. *)
Definition ellipsis : string := String "226"%char (String "128"%char (String "166"%char EmptyString)).

Definition drop_cr (s : string) : string :=
  let n := String.length s in
  match String.get (n - 1) s with
  | Some c => if Ascii.eqb c "013"%char then substring 0 (n - 1) s else s
  | None => s
  end.

(** [text.split(/\r?\n/)] *)
Definition split_lines (text : string) : list string :=
  let pieces := NodePath.split_on "010"%char text in
  let k := length pieces in
  (map drop_cr (firstn (k - 1) pieces) ++ skipn (k - 1) pieces)%list.

(** [summarizeFailure(text)] *)
Definition summarizeFailure (text : string) : string :=
  if String.eqb text "" then "Unknown error"%string else
  let lines := filter (fun l => negb (String.eqb l "")) (map Js.trim (split_lines text)) in
  let snippet := Js.join " " (firstn 3 lines) in
  if 160 <? Js.len snippet then (Js.slice snippet 0 157 ++ ellipsis)%string else snippet.

(** Arguments of [buildPrompt]. *)
Record PromptArgs := mkPromptArgs {
  pa_framework : string;
  pa_renderer : string;
  pa_relPath : string;
  pa_codeChunk : string;
  pa_attempt : option Z;
  pa_previousTest : option string;
  pa_failureMessage : option string
}.

(** Result of [verifyGeneratedTestSource]. *)
Record Verification := mkVerification {
  v_code : string;
  v_diagnostics : list string;
  v_testCount : Z
}.

(** Result of [runGeneratedTestFile]. *)
Record RunResult := mkRunResult {
  r_ok : bool;
  r_command : string;
  r_output : string
}.

(** The services [generateTestsForPlan] calls: the backend, the prompt
    template, prettier, the TypeScript verifier, the jest runner, and the
    regex helpers of the module. *)
Record GenEnv := mkGenEnv {
  backend : nat -> string -> string;
  buildPrompt : PromptArgs -> string;
  extractCodeBlock : string -> option string;
  tryFormat : string -> string;
  slimCode : string -> Z -> string;
  verify : string -> string -> Verification;
  (** the run of the test file, given its path and its contents on disk *)
  runTest : string -> option string -> RunResult;
  countTests : string -> Z;
  detectHints : string -> list string
}.

Record GenOpts := mkGenOpts {
  projectRoot : string;
  outDir : string;
  force : bool;
  resume : option (list string);
  maxFixLoops : Z
}.

Definition resume_has (r : option (list string)) (k : string) : bool :=
  match r with Some s => set_has s k | None => false end.

Record LoopState := mkLoopState {
  previousTest : option string;
  failureMessage : option string;
  finalFailure : string;
  wrote : bool
}.

Definition runGeneratedTestFile (E : GenEnv) (p : string) : M RunResult :=
  fun st => (runTest E p (files st p), record (ARun p) st).

Section Chunk.
Variables (E : GenEnv) (opts : GenOpts) (plan : WorkPlan) (item : WorkItem) (chunk : Chunk).
Variables (key outPath codeForPrompt : string).

Definition attemptPrompt (attempt : Z) (ls : LoopState) : string :=
  buildPrompt E (mkPromptArgs (framework plan) (renderer plan) (rel item) codeForPrompt
                   (Some attempt) (previousTest ls) (failureMessage ls)).

(** The [for (let attempt = 1; attempt <= opts.maxFixLoops; attempt++)]
    loop; [fuel] only makes the recursion structural. *)
Fixpoint attempts (fuel : nat) (attempt : Z) (ls : LoopState) : M LoopState :=
  match fuel with
  | O => ret ls
  | S fuel' =>
    if attempt <=? maxFixLoops opts then
      raw <- complete (backend E) key (attemptPrompt attempt ls) ;;
      let no_code := mkLoopState (previousTest ls) (Some "Model returned no code"%string)
                       "Model returned no code" (wrote ls) in
      match extractCodeBlock E raw with
      | None => attempts fuel' (attempt + 1) no_code
      | Some code =>
        if String.eqb code "" then attempts fuel' (attempt + 1) no_code else
        let formatted := tryFormat E code in
        let verification := verify E formatted outPath in
        if negb (Nat.eqb (length (v_diagnostics verification)) 0) then
          attempts fuel' (attempt + 1)
            (mkLoopState (Some formatted)
               (Some ("TypeScript diagnostics:" ++ String "010"%char
                        (Js.join (String "010"%char EmptyString) (v_diagnostics verification))))%string
               (Js.join " | " (v_diagnostics verification)) (wrote ls))
        else if v_testCount verification =? 0 then
          attempts fuel' (attempt + 1)
            (mkLoopState (Some formatted) (Some "No tests detected after verification"%string)
               "No tests detected after verification" (wrote ls))
        else
          let finalCode := tryFormat E (v_code verification) in
          writeFile outPath finalCode ;;;
          runResult <- runGeneratedTestFile E outPath ;;
          if negb (r_ok runResult) then
            let ls' := mkLoopState (Some finalCode)
                         (Some (Js.trim (r_command runResult ++ String "010"%char (r_output runResult))))
                         (summarizeFailure (if String.eqb (r_output runResult) ""
                                            then "Jest run failed"%string else r_output runResult))
                         (wrote ls) in
            if attempt =? maxFixLoops opts then ret ls'
            else attempts fuel' (attempt + 1) ls'
          else
            emit (mkEvent EWrite (rel item) (Some (id chunk))
                    (Some (Js.num_to_string (countTests E finalCode) ++ "|"
                           ++ Js.join ", " (detectHints E finalCode))%string)) ;;;
            ret (mkLoopState (previousTest ls) (failureMessage ls) (finalFailure ls) true)
      end
    else ret ls
  end.

End Chunk.

(** Initial loop variables. *)
Definition initLoop : LoopState := mkLoopState None None "Model returned no code" false.

(** One iteration of [for (const chunk of item.chunks)]. *)
Definition processChunk (E : GenEnv) (opts : GenOpts) (plan : WorkPlan) (item : WorkItem)
    (chunk : Chunk) : M unit :=
  let key := chunkKey (rel item) (Some (id chunk)) in
  if resume_has (resume opts) key then ret tt else
  emit (mkEvent EStart (rel item) (Some (id chunk)) (Some (Js.num_to_string (approxTokens chunk)))) ;;;
  let initialPrompt := buildPrompt E (mkPromptArgs (framework plan) (renderer plan) (rel item)
                                        (code chunk) None None None) in
  let budget := ctxBudget plan - 128 in
  let codeForPrompt :=
    if budget <? estimateTokens initialPrompt
    then slimCode E (code chunk) (Z.max 128 ((budget * 4) / 5)) else code chunk in
  let outPath := resolveOutPath (projectRoot opts) (outDir opts) (rel item) in
  mkdir (NodePath.dirname outPath) ;;;
  found <- (if force opts then ret false else access outPath) ;;
  if found then emit (mkEvent EExists (rel item) (Some (id chunk)) None) else
  ls <- attempts E opts plan item chunk key outPath codeForPrompt
          (Z.to_nat (maxFixLoops opts)) 1 initLoop ;;
  if wrote ls then ret tt else
  rm outPath ;;;
  emit (mkEvent ESkip (rel item) (Some (id chunk))
          (Some ("Failed after " ++ Js.num_to_string (maxFixLoops opts) ++ " attempts: "
                 ++ summarizeFailure (finalFailure ls))%string)).

Definition processItem (E : GenEnv) (opts : GenOpts) (plan : WorkPlan) (item : WorkItem) : M unit :=
  match chunks item with
  | [] => if resume_has (resume opts) (chunkKey (rel item) None) then ret tt
          else emit (mkEvent ESkip (rel item) None (skipReason item))
  | _ => mapM_ (processChunk E opts plan item) (chunks item)
  end.

(** [generateTestsForPlan(model, plan, opts)] *)
Definition generateTestsForPlan (E : GenEnv) (opts : GenOpts) (plan : WorkPlan) : M unit :=
  mapM_ (processItem E opts plan) (items plan).

End Generator.

(* ------------------------------------------------------------------ *)
(** ** [src/agent.ts] ([runAgent], the JSON-protocol version) and
       [src/generateAgent.ts] ([generateWithAgent], first version) *)

Module Agent.
Import Json Chunker Planner Effects RunState.

Record ToolResult := mkToolResult {
  tr_ok : bool;
  tr_data : option json;
  tr_error : option string
}.

Record AgentResult := mkAgentResult {
  ok : bool;
  plan : option (list json)
}.

(** Own keys of the [tools] object, and the keys [in] also finds on
    [Object.prototype]. *)
Definition tool_names : list string :=
  ["project_info"; "read_file"; "list_exports"; "find_usages"; "get_ast_digest";
   "grep_text"; "infer_props_from_usage"]%string.

Definition object_prototype_keys : list string :=
  ["constructor"; "__proto__"; "hasOwnProperty"; "isPrototypeOf"; "propertyIsEnumerable";
   "toLocaleString"; "toString"; "valueOf"; "__defineGetter__"; "__defineSetter__";
   "__lookupGetter__"; "__lookupSetter__"]%string.

(** [String(v)] for a parsed JSON value. *)
Fixpoint to_str (v : json) : string :=
  match v with
  | JNull => "null"
  | JBool b => if b then "true" else "false"
  | JNum n => Js.num_to_string n
  | JStr s => s
  | JArr xs => Js.join "," (map (fun x => match x with JNull => ""%string | _ => to_str x end) xs)
  | JObj _ => "[object Object]"
  end%string.

Fixpoint last_pos (c : ascii) (l : list ascii) (k : nat) (acc : option nat) : option nat :=
  match l with
  | [] => acc
  | x :: r => last_pos c r (S k) (if Ascii.eqb x c then Some k else acc)
  end.

(** The leftmost match of [/(\{[\s\S]*\}|\[[\s\S]*\])/]: from the
    first opening brace or bracket that is followed somewhere by a closing
    one, up to the last such closing character. *)
Definition json_span (s : string) : option string :=
  let l := list_ascii_of_string s in
  let lastBrace := last_pos "}"%char l 0 None in
  let lastBracket := last_pos "]"%char l 0 None in
  let fix scan (r : list ascii) (i : nat) : option string :=
    match r with
    | [] => None
    | c :: r' =>
      let close := if Ascii.eqb c "{"%char then lastBrace
                   else if Ascii.eqb c "["%char then lastBracket else None in
      match close with
      | Some j => if Nat.ltb i j then Some (substring i (j - i + 1) s) else scan r' (S i)
      | None => scan r' (S i)
      end
    end in
  scan l 0%nat.

Record AgentEnv := mkAgentEnv {
  a_backend : nat -> string -> string;
  agentSystemPrompt : string;
  (** [JSON.parse]; [None] when it throws *)
  parseJson : string -> option json;
  stringify : json -> string;
  (** [tools[name](args, ctx)] *)
  callTool : string -> json -> result ToolResult;
  errorMessage : exn -> string;
  buildPlanPrompt : string -> string -> string -> string -> string;
  buildTestsPrompt : string -> string -> string -> string -> string -> string;
  a_extractCodeBlock : string -> option string;
  a_tryFormat : string -> string;
  a_verify : string -> string -> Generator.Verification;
  reviewPrompt : string -> string -> string -> string -> string -> string;
  reviewExtractCodeBlock : string -> option string;
  a_countTests : string -> Z;
  a_detectHints : string -> list string
}.

(** [extractJson(text)] *)
Definition extractJson (E : AgentEnv) (text : string) : option json :=
  match json_span text with
  | None => None
  | Some m => parseJson E m
  end.

Definition nl2 : string := String "010"%char (String "010"%char EmptyString).

Section RunAgent.
Variables (E : AgentEnv) (key file : string) (chunkId : option string).
Variables (userPrompt : string) (maxSteps : Z).

Definition agentPrompt (observation : option json) : string :=
  Js.join nl2 [agentSystemPrompt E; "User task:"%string; userPrompt;
               if truthy observation
               then ("Observation:" ++ String "010"%char
                       (Js.slice (match observation with Some o => stringify E o | None => ""%string end) 0 4000))%string
               else ""%string].

(** [args?.relPath || args?.identifier || args?.component || ''] *)
Definition toolDetail (args : json) : string :=
  let r := get args "relPath" in
  let i := get args "identifier" in
  let c := get args "component" in
  match (if truthy r then r else if truthy i then i else if truthy c then c else None) with
  | Some v => to_str v
  | None => ""%string
  end.

(** The [for (let step = 0; step < (ctx.maxSteps ?? 4); step++)] loop;
    running out of [fuel] returns what the loop's exit returns. *)
Fixpoint agentLoop (fuel : nat) (step : Z) (observation : option json) : M (result AgentResult) :=
  match fuel with
  | O => ret (Ok (mkAgentResult false (Some [])))
  | S fuel' =>
    if step <? maxSteps then
      out <- complete (a_backend E) key (agentPrompt observation) ;;
      let js := extractJson E out in
      if negb (truthy js) then ret (Ok (mkAgentResult false None)) else
      let final := get_opt js "final" in
      match (if truthy final then get_opt final "plan" else None) with
      | Some (JArr p) => ret (Ok (mkAgentResult true (Some p)))
      | _ =>
        let toolName := get_opt js "tool" in
        let args := match get_opt js "args" with None | Some JNull => JObj [] | Some a => a end in
        let name := match toolName with Some t => to_str t | None => "undefined"%string end in
        if negb (truthy toolName)
           || negb (existsb (String.eqb name) (tool_names ++ object_prototype_keys))
        then ret (Ok (mkAgentResult false None))
        else
          emit (mkEvent ETool file chunkId (Some (name ++ " " ++ toolDetail args)%string)) ;;;
          match callTool E name args with
          | Throw e => ret (Throw e)
          | Ok r =>
            agentLoop fuel' (step + 1)
              (if tr_ok r then tr_data r
               else Some (JObj (match tr_error r with Some e => [("error"%string, JStr e)] | None => [] end)))
          end
      end
    else ret (Ok (mkAgentResult false (Some [])))
  end.

(** [runAgent(model, userPrompt, ctx)] *)
Definition runAgent : M (result AgentResult) := agentLoop (Z.to_nat maxSteps) 0 None.

End RunAgent.

(** [resolveOutPath(outDir, rel)] of [generateAgent.ts] *)
Definition resolveOutPath (outDir rel : string) : string :=
  let relDir := NodePath.dirname rel in
  let ext := NodePath.extname rel in
  let normalizedExt :=
    if existsb (String.eqb (Js.to_lower ext)) [".ts"; ".tsx"; ".js"; ".jsx"]%string
    then ext else ".ts"%string in
  let baseName := NodePath.basename rel ext in
  let testFile := (baseName ++ ".test" ++ normalizedExt)%string in
  let destDir := if String.eqb relDir "." then ""%string else relDir in
  NodePath.join [outDir; destDir; "__tests__"; testFile]%string.

Record AgentOpts := mkAgentOpts {
  a_projectRoot : string;
  a_outDir : string;
  a_force : bool;
  maxToolCalls : option Z;
  a_renderer : string;
  a_framework : string;
  a_resume : option (list string)
}.

Definition truthy_code (c : option string) : option string :=
  match c with Some s => if String.eqb s "" then None else Some s | None => None end.

(** [reviewGeneratedTest]: [Some code] when [review.ok && review.code]. *)
Definition reviewGeneratedTest (E : AgentEnv) (key rel original generated testPath planJson : string)
    : M (option string) :=
  raw <- complete (a_backend E) key (reviewPrompt E rel original generated testPath planJson) ;;
  ret (truthy_code (reviewExtractCodeBlock E raw)).

(** One iteration of [for (const chunk of item.chunks)] in
    [generateWithAgent]. *)
Definition agentChunk (E : AgentEnv) (opts : AgentOpts) (item : WorkItem) (chunk : Chunk) : M unit :=
  let key := chunkKey (rel item) (Some (id chunk)) in
  let ev t m := mkEvent t (rel item) (Some (id chunk)) m in
  if Generator.resume_has (a_resume opts) key then ret tt else
  emit (ev EStart (Some (Js.num_to_string (approxTokens chunk)))) ;;;
  let planPrompt := buildPlanPrompt E (rel item) (code chunk) (a_renderer opts) (a_framework opts) in
  let steps := match maxToolCalls opts with Some n => n | None => 40 end in
  agentResult <- runAgent E key (rel item) (Some (id chunk)) planPrompt steps ;;
  match agentResult with
  | Throw e => emit (ev EError (Some (errorMessage E e)))
  | Ok ar =>
    match plan ar with
    | Some ((_ :: _) as p) =>
      if negb (ok ar) then emit (ev ESkip (Some "Empty plan"%string)) else
      let planJson := stringify E (JArr p) in
      let testsPrompt := buildTestsPrompt E (rel item) (code chunk) planJson
                           (a_renderer opts) (a_framework opts) in
      raw <- complete (a_backend E) key testsPrompt ;;
      match truthy_code (a_extractCodeBlock E raw) with
      | None => emit (ev ESkip (Some "Model returned no code"%string))
      | Some code =>
        let formatted := a_tryFormat E code in
        let outPath := resolveOutPath (a_outDir opts) (rel item) in
        mkdir (NodePath.dirname outPath) ;;;
        found <- (if a_force opts then ret false else access outPath) ;;
        if found then emit (ev EExists None) else
        let verification := a_verify E formatted outPath in
        if negb (Nat.eqb (length (Generator.v_diagnostics verification)) 0) then
          emit (ev EError (Some (Js.join " | " (Generator.v_diagnostics verification))))
        else if Generator.v_testCount verification =? 0 then
          emit (ev ESkip (Some "No tests detected after verification"%string))
        else
          let finalCode0 := a_tryFormat E (Generator.v_code verification) in
          review <- reviewGeneratedTest E key (rel item) (Chunker.code chunk) finalCode0 outPath planJson ;;
          finalCode <- (match review with
                        | Some rc =>
                          let refined := a_tryFormat E rc in
                          let rv := a_verify E refined outPath in
                          if negb (Nat.eqb (length (Generator.v_diagnostics rv)) 0) then
                            emit (ev EError (Some ("Review output failed verification: "
                                     ++ Js.join " | " (Generator.v_diagnostics rv))%string)) ;;;
                            ret finalCode0
                          else if Generator.v_testCount rv =? 0 then
                            emit (ev EError (Some "Review output removed all tests"%string)) ;;;
                            ret finalCode0
                          else ret (a_tryFormat E (Generator.v_code rv))
                        | None => ret finalCode0
                        end) ;;
          writeFile outPath finalCode ;;;
          emit (ev EWrite (Some (Js.num_to_string (a_countTests E finalCode) ++ "|"
                                 ++ Js.join ", " (a_detectHints E finalCode))%string))
      end
    | _ => emit (ev ESkip (Some "Empty plan"%string))
    end
  end.

Definition agentItem (E : AgentEnv) (opts : AgentOpts) (item : WorkItem) : M unit :=
  match chunks item with
  | [] => if Generator.resume_has (a_resume opts) (chunkKey (rel item) None) then ret tt
          else emit (mkEvent ESkip (rel item) None (Some "No viable chunks"%string))
  | _ => mapM_ (agentChunk E opts item) (chunks item)
  end.

(** [generateWithAgent(model, plan, opts)] *)
Definition generateWithAgent (E : AgentEnv) (opts : AgentOpts) (plan : WorkPlan) : M unit :=
  mapM_ (agentItem E opts) (items plan).

End Agent.

(* ------------------------------------------------------------------ *)
(** ** The text helpers of [src/generator.ts], [src/testReviewer.ts] and
       [src/generateAgent.ts]: [extractCodeBlock] and [slimCode] *)

Module CodeBlocks.

Definition fence : string := "```".

(** [[a-zA-Z0-9_-]] *)
Definition is_lang_char (c : ascii) : bool :=
  let n := Js.code c in
  ((65 <=? n) && (n <=? 90)) || ((97 <=? n) && (n <=? 122))
  || ((48 <=? n) && (n <=? 57)) || (n =? 95) || (n =? 45).

(** [[a-zA-Z]] *)
Definition is_letter (c : ascii) : bool :=
  let n := Js.code c in
  ((65 <=? n) && (n <=? 90)) || ((97 <=? n) && (n <=? 122)).

(** [[ \t]] *)
Definition is_blank (c : ascii) : bool :=
  let n := Js.code c in (n =? 32) || (n =? 9).

Fixpoint skip_while (f : ascii -> bool) (s : string) : string :=
  match s with
  | String c s' => if f c then skip_while f s' else s
  | EmptyString => EmptyString
  end.

(** [([\s\S]*?)```] at the start of [s]: the text before the first
    [```], if there is one. *)
Fixpoint upto_fence (s : string) : option string :=
  match Js.strip_prefix fence s with
  | Some _ => Some EmptyString
  | None =>
    match s with
    | String c s' => option_map (String c) (upto_fence s')
    | EmptyString => None
    end
  end.

(** [\r?\n] at the start of [s]. *)
Definition line_break (s : string) : option string :=
  match s with
  | String c t =>
    if Ascii.eqb c "013"%char then
      match t with
      | String d t' => if Ascii.eqb d "010"%char then Some t' else None
      | EmptyString => None
      end
    else if Ascii.eqb c "010"%char then Some t
    else None
  | EmptyString => None
  end.

(** The capture of [/```[a-zA-Z0-9_-]*\r?\n([\s\S]*?)```/] for a match
    starting at the beginning of [s].  The class run is maximal: a shorter
    run is followed by a class character, which is neither [\r] nor [\n]. *)
Definition fenced_at (s : string) : option string :=
  match Js.strip_prefix fence s with
  | Some r =>
    match line_break (skip_while is_lang_char r) with
    | Some t => upto_fence t
    | None => None
    end
  | None => None
  end.

(** The capture of [/```[a-zA-Z0-9_-]*[ \t]+([\s\S]*?)```/] at the
    beginning of [s]: the lazy group starts after the whole blank run. *)
Definition inline_at (s : string) : option string :=
  match Js.strip_prefix fence s with
  | Some r =>
    match skip_while is_lang_char r with
    | String c t => if is_blank c then upto_fence (skip_while is_blank t) else None
    | EmptyString => None
    end
  | None => None
  end.

(** The capture of [/```[a-zA-Z]*\n([\s\S]*?)```/] of [generateAgent.ts]. *)
Definition agent_fenced_at (s : string) : option string :=
  match Js.strip_prefix fence s with
  | Some r =>
    match skip_while is_letter r with
    | String c t => if Ascii.eqb c "010"%char then upto_fence t else None
    | EmptyString => None
    end
  | None => None
  end.

(** [text.match(re)]: the first start position where [at_pos] matches. *)
Fixpoint first_match (at_pos : string -> option string) (s : string) : option string :=
  match at_pos s with
  | Some m => Some m
  | None =>
    match s with
    | String _ s' => first_match at_pos s'
    | EmptyString => None
    end
  end.

(** [/p/.test(s)] for a literal pattern [p]. *)
Definition contains (p s : string) : bool :=
  Js.search (fun r => match Js.strip_prefix p r with Some _ => true | None => false end) s.

(** [/describe\(|it\(|test\(/.test(text)] *)
Definition has_test_call (text : string) : bool :=
  contains "describe(" text || contains "it(" text || contains "test(" text.

(** [extractCodeBlock(text)] of [generator.ts]; the function of
    [testReviewer.ts] has the same body. *)
Definition extractCodeBlock (text : string) : option string :=
  match first_match fenced_at text with
  | Some m => Some (Js.trim m)
  | None =>
    match first_match inline_at text with
    | Some m => Some (Js.trim m)
    | None =>
      if contains "__SKIP__" text then None
      else if has_test_call text then Some (Js.trim text)
      else None
    end
  end.

(** [extractCodeBlock(text)] of [generateAgent.ts]. *)
Definition agentExtractCodeBlock (text : string) : option string :=
  match first_match agent_fenced_at text with
  | Some m => Some (Js.trim m)
  | None =>
    if contains "__SKIP__" text then None
    else if has_test_call text then Some (Js.trim text)
    else None
  end.

(** [.replace(/\/\*[\s\S]*?\*\//g, '')]: each comment runs to the first
    [*/] after its [/*]; once a [/*] has no closing, no later one has, and
    the rest is kept.  [fuel] (the length) makes the recursion structural. *)
Fixpoint after_first (p s : string) : option string :=
  match Js.strip_prefix p s with
  | Some r => Some r
  | None =>
    match s with
    | String _ s' => after_first p s'
    | EmptyString => None
    end
  end.

Fixpoint strip_block_comments (fuel : nat) (s : string) : string :=
  match fuel with
  | O => s
  | S fuel' =>
    match s with
    | EmptyString => EmptyString
    | String c s' =>
      match Js.strip_prefix "/*" s with
      | Some r =>
        match after_first "*/" r with
        | Some rest => strip_block_comments fuel' rest
        | None => s
        end
      | None => String c (strip_block_comments fuel' s')
      end
    end
  end.

(** Line terminators of [.] and [$] (those below 256). *)
Definition is_line_term (c : ascii) : bool :=
  let n := Js.code c in (n =? 10) || (n =? 13).

Fixpoint to_line_end (s : string) : string :=
  match s with
  | String c s' => if is_line_term c then s else to_line_end s'
  | EmptyString => EmptyString
  end.

(** [.replace(/(^|\s)\/\/.*$/gm, '$1')]: [line_start] tells whether [^]
    holds at the current position (start of input or after a line
    terminator); a match runs to the end of its line, and the search goes
    on from there, where [^] does not hold. *)
Fixpoint strip_line_comments (fuel : nat) (line_start : bool) (s : string) : string :=
  match fuel with
  | O => s
  | S fuel' =>
    match s with
    | EmptyString => EmptyString
    | String c s' =>
      if line_start && match Js.strip_prefix "//" s with Some _ => true | None => false end
      then strip_line_comments fuel' false (to_line_end s)
      else if Js.is_space c && match Js.strip_prefix "//" s' with Some _ => true | None => false end
      then String c (strip_line_comments fuel' false (to_line_end s'))
      else String c (strip_line_comments fuel' (is_line_term c) s')
    end
  end.

(** [.replace(/\s+/g, ' ')]; [in_run] tells whether the previous character
    was white space. *)
Fixpoint collapse_spaces (in_run : bool) (s : string) : string :=
  match s with
  | EmptyString => EmptyString
  | String c s' =>
    if Js.is_space c then
      if in_run then collapse_spaces true s' else String " " (collapse_spaces true s')
    else String c (collapse_spaces false s')
  end.

(** [slimCode(src, maxTokens)].  [Math.floor(s.length * (maxTokens /
    tokens))] is computed exactly; when [tokens] is [0] the string is empty
    and both give the empty slice. *)
Definition slimCode (src : string) (maxTokens : Z) : string :=
  let s1 := strip_block_comments (String.length src) src in
  let s2 := strip_line_comments (String.length s1) true s1 in
  let s := collapse_spaces false s2 in
  let tokens := Chunker.estimateTokens s in
  let s' := if maxTokens <? tokens
            then Js.slice s 0 (Z.max 200 ((Js.len s * maxTokens) / tokens))
            else s in
  Js.trim s'.

(** Vocabulary of the statements below. *)
Definition lf : string := String "010"%char EmptyString.
Definition crlf : string := String "013"%char lf.

Definition fence_free (s : string) : bool := negb (contains fence s).

Fixpoint all_chars (f : ascii -> bool) (s : string) : bool :=
  match s with
  | String c s' => f c && all_chars f s'
  | EmptyString => true
  end.

(** Every white-space character is a plain space and no two are adjacent
    ([prev_space]: the previous character was one). *)
Fixpoint single_spaced (prev_space : bool) (s : string) : bool :=
  match s with
  | String c s' =>
    if Js.is_space c then Ascii.eqb c " " && negb prev_space && single_spaced true s'
    else single_spaced false s'
  | EmptyString => true
  end.

End CodeBlocks.

(* ------------------------------------------------------------------ *)
(** ** [src/runState.ts]: [RunStateManager] *)

Module Manager.
Import Json RunState Effects.
Local Open Scope string_scope.

(** [FileSummary] of [src/progressTypes.ts]; an absent or [null] optional
    field is [None]. *)
Record FileSummary := mkFileSummary {
  fs_status : string;
  fs_cases : option Z;
  fs_hints : option string;
  fs_reason : option string;
  fs_startedAt : option Z;
  fs_tokens : option Z;
  fs_durationMs : option Z
}.

(** [PersistedFileSummary = Omit<FileSummary, 'startedAt'>] *)
Record PersistedSummary := mkPersistedSummary {
  ps_status : string;
  ps_cases : option Z;
  ps_hints : option string;
  ps_reason : option string;
  ps_tokens : option Z;
  ps_durationMs : option Z
}.

(** [sanitizeSummary]: copies the fields that are not [null]/[undefined],
    dropping [startedAt]. *)
Definition sanitizeSummary (summary : FileSummary) : PersistedSummary :=
  mkPersistedSummary (fs_status summary) (fs_cases summary) (fs_hints summary)
    (fs_reason summary) (fs_tokens summary) (fs_durationMs summary).

(** A [StoredChunkState] as returned by [sanitizeChunkState] (absent
    optional fields are [None]). *)
Record ChunkRecord := mkChunkRecord {
  c_status : string;
  c_message : option string;
  c_durationMs : option Z;
  c_tokens : option Z;
  c_updatedAt : Z
}.

Record FileRecord := mkFileRecord {
  f_summary : PersistedSummary;
  f_chunks : list (string * ChunkRecord)
}.

Record Totals := mkTotals {
  t_written : Z;
  t_skipped : Z;
  t_exists : Z;
  t_completedChunks : Z;
  t_totalChunks : Z
}.

(** [StoredRunState] ([version] is always [1]); [perFile] and the chunk
    records are objects, kept as association lists in key order. *)
Record State := mkState {
  planSignature : string;
  mode : string;
  totals : Totals;
  perFile : list (string * FileRecord);
  createdAt : Z;
  updatedAt : Z
}.

(** The private fields of a [RunStateManager]; [flushTimer] tells whether
    a timer is pending. *)
Record Manager := mkManager {
  statePath : string;
  state : State;
  dirty : bool;
  flushTimer : bool
}.

(** Reading an own property of an object. *)
Fixpoint assoc_get {A} (k : string) (l : list (string * A)) : option A :=
  match l with
  | [] => None
  | (k', v) :: r => if String.eqb k' k then Some v else assoc_get k r
  end.

(** [o[k] = v]: an existing key keeps its place, a new one comes last (the
    keys here are paths and [path::id] strings, none of them an array
    index, so insertion order is the key order). *)
Fixpoint assoc_set {A} (k : string) (v : A) (l : list (string * A)) : list (string * A) :=
  match l with
  | [] => [(k, v)]
  | (k', v') :: r => if String.eqb k' k then (k', v) :: r else (k', v') :: assoc_set k v r
  end.

Definition with_state (m : Manager) (s : State) : Manager :=
  mkManager (statePath m) s (dirty m) (flushTimer m).

(** The constructor; [now] is [Date.now()], read only when there is no
    [existing] state. *)
Definition newManager (statePath sig md : string) (totalChunks : Z)
    (existing : option State) (now : Z) : Manager :=
  let st := match existing with
    | Some ex =>
        let t := totals ex in
        mkState sig md
          (mkTotals (t_written t) (t_skipped t) (t_exists t) (t_completedChunks t) totalChunks)
          (perFile ex) (createdAt ex) (updatedAt ex)
    | None => mkState sig md (mkTotals 0 0 0 0 totalChunks) [] now now
    end in
  mkManager statePath st false false.

(** [getCompletedChunkKeys()]: the chunk keys whose status is [write],
    [skip] or [exists], read through the projection of the records onto the
    fields [RunState.getCompletedChunkKeys] looks at. *)
Definition to_stored (f : FileRecord) : StoredFileState :=
  mkStoredFileState (ps_status (f_summary f))
    (map (fun kv => (fst kv, mkStoredChunkState (c_status (snd kv)) (c_message (snd kv))))
         (f_chunks f)).

Definition getCompletedChunkKeys (m : Manager) : list string :=
  RunState.getCompletedChunkKeys
    (map (fun kv => (fst kv, to_stored (snd kv))) (perFile (state m))).

(** [markDirty()] followed by [scheduleFlush()]; [now] is [Date.now()]. *)
Definition markDirty (now : Z) (m : Manager) : Manager :=
  let s := state m in
  mkManager (statePath m)
    (mkState (planSignature s) (mode s) (totals s) (perFile s) (createdAt s) now)
    true true.

(** [setTotals({ written, skipped, exists, completedChunks })] *)
Definition setTotals (written skipped exists_ completedChunks now : Z) (m : Manager) : Manager :=
  let s := state m in
  let prev := totals s in
  if Z.eqb (t_written prev) written && Z.eqb (t_skipped prev) skipped
     && Z.eqb (t_exists prev) exists_ && Z.eqb (t_completedChunks prev) completedChunks
  then m
  else markDirty now
         (with_state m (mkState (planSignature s) (mode s)
            (mkTotals written skipped exists_ completedChunks (t_totalChunks prev))
            (perFile s) (createdAt s) (updatedAt s))).

(** [recordFileSummary(file, summary)].  [file] is a project path: the
    model reads [perFile[file]] as an own property, which it is for every
    name that is not a member of [Object.prototype]. *)
Definition recordFileSummary (file : string) (summary : FileSummary) (now : Z)
    (m : Manager) : Manager :=
  let s := state m in
  let persisted := sanitizeSummary summary in
  let chunks := match assoc_get file (perFile s) with Some e => f_chunks e | None => [] end in
  markDirty now
    (with_state m (mkState (planSignature s) (mode s) (totals s)
       (assoc_set file (mkFileRecord persisted chunks) (perFile s)) (createdAt s) (updatedAt s))).

Definition default_entry : FileRecord :=
  mkFileRecord (mkPersistedSummary "skip" None None None None None) [].

(** [recordChunkResult(file, chunkId, result)]; [chunkTime] is the
    [Date.now()] of the chunk record, [now] the one of [markDirty]. *)
Definition recordChunkResult (file : string) (chunkId : option string) (status : string)
    (message : option string) (tokens durationMs : option Z) (chunkTime now : Z)
    (m : Manager) : Manager :=
  let s := state m in
  let key := chunkKey file chunkId in
  let entry := match assoc_get file (perFile s) with Some e => e | None => default_entry end in
  let entry' := mkFileRecord (f_summary entry)
                  (assoc_set key (mkChunkRecord status message durationMs tokens chunkTime)
                             (f_chunks entry)) in
  markDirty now
    (with_state m (mkState (planSignature s) (mode s) (totals s)
       (assoc_set file entry' (perFile s)) (createdAt s) (updatedAt s))).

(** [JSON.stringify] of the records: the keys in the order the code
    creates them, optional fields only when present. *)
Definition opt_field {A} (k : string) (f : A -> json) (v : option A) : list (string * json) :=
  match v with Some a => [(k, f a)] | None => [] end.

Definition summary_json (p : PersistedSummary) : json :=
  JObj ([("status", JStr (ps_status p))]
        ++ opt_field "cases" JNum (ps_cases p)
        ++ opt_field "hints" JStr (ps_hints p)
        ++ opt_field "reason" JStr (ps_reason p)
        ++ opt_field "tokens" JNum (ps_tokens p)
        ++ opt_field "durationMs" JNum (ps_durationMs p))%list.

Definition chunk_json (c : ChunkRecord) : json :=
  JObj ([("status", JStr (c_status c)); ("updatedAt", JNum (c_updatedAt c))]
        ++ opt_field "message" JStr (c_message c)
        ++ opt_field "durationMs" JNum (c_durationMs c)
        ++ opt_field "tokens" JNum (c_tokens c))%list.

Definition file_json (f : FileRecord) : json :=
  JObj [("summary", summary_json (f_summary f));
        ("chunks", JObj (map (fun kv => (fst kv, chunk_json (snd kv))) (f_chunks f)))].

Definition totals_json (t : Totals) : json :=
  JObj [("written", JNum (t_written t)); ("skipped", JNum (t_skipped t));
        ("exists", JNum (t_exists t)); ("completedChunks", JNum (t_completedChunks t));
        ("totalChunks", JNum (t_totalChunks t))].

Definition to_json (s : State) : json :=
  JObj [("version", JNum 1); ("planSignature", JStr (planSignature s)); ("mode", JStr (mode s));
        ("totals", totals_json (totals s));
        ("perFile", JObj (map (fun kv => (fst kv, file_json (snd kv))) (perFile s)));
        ("createdAt", JNum (createdAt s)); ("updatedAt", JNum (updatedAt s))].

(** The asynchronous methods, each run to completion; [stringify] is
    [JSON.stringify(_, null, 2)]. *)
Section Io.
Variable stringify : json -> string.

Definition set_flags (m : Manager) (d t : bool) : Manager :=
  mkManager (statePath m) (state m) d t.

(** [flush()]; the [mkdir] error is swallowed by [.catch(() => {})]. *)
Definition flush (m : Manager) : M Manager :=
  if negb (dirty m) then ret m else
  let m' := set_flags m false (flushTimer m) in
  mkdir (NodePath.dirname (statePath m)) ;;;
  writeFile (statePath m) (stringify (to_json (state m))) ;;;
  ret m'.

(** The callback of the timer set by [scheduleFlush()]. *)
Definition timerFires (m : Manager) : M Manager :=
  let m' := set_flags m (dirty m) false in
  if dirty m' then flush m' else ret m'.

(** [reset()] *)
Definition reset (m : Manager) : M Manager :=
  let m' := set_flags m false false in
  rm (statePath m) ;;; ret m'.

(** [complete()] *)
Definition complete (m : Manager) : M Manager :=
  m' <- flush m ;; rm (statePath m) ;;; ret m'.

(** The calls a client makes on a manager, with the clock readings they
    take. *)
Inductive Op :=
| OSetTotals (written skipped exists_ completedChunks now : Z)
| ORecordFileSummary (file : string) (summary : FileSummary) (now : Z)
| ORecordChunkResult (file : string) (chunkId : option string) (status : string)
    (message : option string) (tokens durationMs : option Z) (chunkTime now : Z)
| OFlush
| OTimer
| OReset
| OComplete.

Definition step (o : Op) (m : Manager) : M Manager :=
  match o with
  | OSetTotals w s e c now => ret (setTotals w s e c now m)
  | ORecordFileSummary f sm now => ret (recordFileSummary f sm now m)
  | ORecordChunkResult f id st msg tk d t now => ret (recordChunkResult f id st msg tk d t now m)
  | OFlush => flush m
  | OTimer => if flushTimer m then timerFires m else ret m
  | OReset => reset m
  | OComplete => complete m
  end.

Fixpoint run (ops : list Op) (m : Manager) : M Manager :=
  match ops with
  | [] => ret m
  | o :: r => m' <- step o m ;; run r m'
  end.

End Io.

(** The calls the model covers: files that are not [Object.prototype]
    member names, and chunk results with one of the statuses the type of
    [result.status] allows. *)
Definition is_proto_key (file : string) : bool :=
  existsb (String.eqb file) Agent.object_prototype_keys.

Definition op_ok (o : Op) : bool :=
  match o with
  | ORecordFileSummary f _ _ => negb (is_proto_key f)
  | ORecordChunkResult f _ st _ _ _ _ _ =>
      negb (is_proto_key f) && (String.eqb st "write" || String.eqb st "skip" || String.eqb st "exists")
  | _ => true
  end.

End Manager.

(* ------------------------------------------------------------------ *)
(** ** [src/runState.ts]: the CLI's progress bookkeeping around
    [generateTestsForPlan] *)

Module Cli.
Import Effects RunState Planner Chunker Generator.

(** The counters and sets of the CLI action that the run-state decisions
    depend on ([written], [skippedCount], [exists], [completedChunks],
    [finishedChunks], [completedChunkKeys]); sets are kept as lists of
    their elements in insertion order. *)
Record Progress := mkProgress {
  written : Z;
  skippedCount : Z;
  exists_ : Z;
  completedChunks : Z;
  finishedChunks : list string;
  completedChunkKeys : list string
}.

(** [Set.prototype.add] *)
Definition set_add (s : list string) (k : string) : list string :=
  if set_has s k then s else (s ++ [k])%list.

(** [markChunkFinished(evt)] *)
Definition markChunkFinished (totalChunks : Z) (file : string) (chunkId : option string)
    (p : Progress) : Progress :=
  match chunkId with
  | None => p
  | Some _ =>
      let key := chunkKey file chunkId in
      if set_has (finishedChunks p) key then p else
      mkProgress (written p) (skippedCount p) (exists_ p)
        (Z.min (completedChunks p + 1) totalChunks)
        (set_add (finishedChunks p) key) (set_add (completedChunkKeys p) key)
  end.

Definition add_completed_key (k : string) (p : Progress) : Progress :=
  mkProgress (written p) (skippedCount p) (exists_ p) (completedChunks p)
    (finishedChunks p) (set_add (completedChunkKeys p) k).

(** The counter and set updates of [commonProgress(evt)]: [exists++],
    [skippedCount++] or [written++], then [markChunkFinished(evt)] and
    [completedChunkKeys.add(key)]; [start], [tool] and [error] events
    change none of them. *)
Definition commonProgress (totalChunks : Z) (evt : Event) (p : Progress) : Progress :=
  let key := chunkKey (efile evt) (echunk evt) in
  let finish p' := add_completed_key key
                     (markChunkFinished totalChunks (efile evt) (echunk evt) p') in
  match etype evt with
  | EExists => finish (mkProgress (written p) (skippedCount p) (exists_ p + 1)
                         (completedChunks p) (finishedChunks p) (completedChunkKeys p))
  | ESkip => finish (mkProgress (written p) (skippedCount p + 1) (exists_ p)
                       (completedChunks p) (finishedChunks p) (completedChunkKeys p))
  | EWrite => finish (mkProgress (written p + 1) (skippedCount p) (exists_ p)
                        (completedChunks p) (finishedChunks p) (completedChunkKeys p))
  | _ => p
  end.

(** [onProgress] applied to the events of a stretch of the log. *)
Definition observe_events (totalChunks : Z) (acts : list Action) (p : Progress) : Progress :=
  fold_left (fun p a => match a with AEvent e => commonProgress totalChunks e p | _ => p end)
    acts p.

(** The options the CLI passes: [resume: { completedChunks: completedChunkKeys }]. *)
Definition with_resume (opts : GenOpts) (r : list string) : GenOpts :=
  mkGenOpts (projectRoot opts) (outDir opts) (force opts) (Some r) (maxFixLoops opts).

(** [body] reads the resume set once, when it starts (the
    [opts.resume?.completedChunks?.has(key)] test of a chunk or of a
    chunkless item); the events it emits reach [commonProgress] as they are
    emitted, and [commonProgress] adds to that same set. *)
Definition observed (totalChunks : Z) (body : list string -> M unit) (p : Progress)
    : M Progress :=
  fun st =>
    let n := length (log st) in
    let '(_, st') := body (completedChunkKeys p) st in
    (observe_events totalChunks (skipn n (log st')) p, st').

Fixpoint foldM {A} (f : A -> Progress -> M Progress) (xs : list A) (p : Progress) : M Progress :=
  match xs with
  | [] => ret p
  | x :: r => p' <- f x p ;; foldM f r p'
  end.

(** [processItem], one resume test at a time. *)
Definition cli_item (E : GenEnv) (opts : GenOpts) (plan : WorkPlan) (totalChunks : Z)
    (item : WorkItem) (p : Progress) : M Progress :=
  match chunks item with
  | [] => observed totalChunks (fun r => processItem E (with_resume opts r) plan item) p
  | cs => foldM (fun c => observed totalChunks
                            (fun r => processChunk E (with_resume opts r) plan item c)) cs p
  end.

(** [plan.items.reduce((acc, it) => acc + it.chunks.length, 0)] *)
Definition totalChunks (plan : WorkPlan) : Z :=
  fold_left (fun acc it => acc + Z.of_nat (length (chunks it))) (items plan) 0.

(** [plan.items.filter(i => !i.chunks.length).length] *)
Definition initiallySkipped (plan : WorkPlan) : Z :=
  Z.of_nat (length (filter (fun i => match chunks i with [] => true | _ => false end) (items plan))).

(** The progress of a run that does not continue a previous one. *)
Definition freshProgress (plan : WorkPlan) : Progress :=
  mkProgress 0 (initiallySkipped plan) 0 0 [] [].

(** [await generateTestsForPlan(model, plan, { ..., onProgress:
    commonProgress, resume: { completedChunks: completedChunkKeys } })] *)
Definition cli_generate (E : GenEnv) (opts : GenOpts) (plan : WorkPlan) (p : Progress)
    : M Progress :=
  foldM (cli_item E opts plan (totalChunks plan)) (items plan) p.

(** [if (completedChunks >= totalChunks) await runStateManager.complete();
    else await runStateManager.flush();]: [true] when the state file is
    removed. *)
Definition completes_run (totalChunks : Z) (p : Progress) : bool :=
  totalChunks <=? completedChunks p.

(** The run-state keys of the plan's chunks, with repetitions. *)
Definition plan_keys (plan : WorkPlan) : list string :=
  flat_map (fun it => map (fun c => chunkKey (rel it) (Some (id c))) (chunks it)) (items plan).

End Cli.

(* ------------------------------------------------------------------ *)
(** ** [runGeneratedTestFile] (the test-runner part of [src/runState.ts]) *)

Module TestRunner.
Import Effects.
Local Open Scope string_scope.

(** How a spawned child ends: an ['error'] event (reported before any
    ['close'], so it decides the promise), with the error's [code] and
    [message]; or a ['close'] event with the exit code ([None] when the
    child was killed by a signal) and everything it wrote to stdout and
    stderr. *)
Inductive ChildOutcome :=
| SpawnError (code : option string) (message : string)
| Closed (exitCode : option Z) (output : string).

Record RunTestResult := mkRunTestResult {
  ok : bool;
  output : string;
  command : string
}.

(** The [Error] a rejected [execRunner] promise carries. *)
Record Failure := mkFailure { f_code : option string; f_message : string }.

Inductive outcome :=
| Resolved (r : RunTestResult)
| Rejected (e : Failure).

Section Runner.
(** [spawn(command, args, { cwd, shell: false, ... })], [path.relative],
    and [process.platform === 'win32']. *)
Variable spawnChild : string -> list string -> string -> ChildOutcome.
Variable relative : string -> string -> string.
Variable isWin32 : bool.

(** [runnerArgs(runner, relTestPath)] *)
Definition runnerArgs (runner relTestPath : string) : list string :=
  if String.eqb runner "vitest" then ["run"; relTestPath] else ["--runTestsByPath"; relTestPath].

(** [execRunner(command, args, cwd)] *)
Definition execRunner (command : string) (args : list string) (cwd : string)
    : RunTestResult + Failure :=
  match spawnChild command args cwd with
  | SpawnError c msg => inr (mkFailure c msg)
  | Closed code out =>
      inl (mkRunTestResult
             (match code with Some 0 => true | _ => false end)
             (Js.trim out)
             (Js.trim (command ++ " " ++ Js.join " " args)))
  end.

(** [getRunnerBinaries(projectRoot, runner)]: the local binary when
    [fs.access] finds it, then the bare name. *)
Definition getRunnerBinaries (projectRoot runner : string) : M (list (string * list string)) :=
  let binDir := NodePath.join [projectRoot; "node_modules"; ".bin"] in
  let executable := if isWin32 then runner ++ ".cmd" else runner in
  let localBin := NodePath.join [binDir; executable] in
  found <- access localBin ;;
  ret ((if found then [(localBin, [])] else []) ++ [(runner, [])])%list.

(** The [for (const candidate of binCandidates)] loop. *)
Fixpoint tryCandidates (projectRoot runner rel : string) (cands : list (string * list string))
    (lastError : option Failure) : outcome :=
  match cands with
  | [] =>
      let message := match lastError with
                     | Some e => if String.eqb (f_message e) "" then None else Some (f_message e)
                     | None => None
                     end in
      Resolved (mkRunTestResult false
                  (match message with Some m => m | None => "Unable to locate " ++ runner ++ " binary" end)
                  (Js.trim (runner ++ " " ++ Js.join " " (runnerArgs runner rel))))
  | (cmd, args) :: rest =>
      match execRunner cmd (args ++ runnerArgs runner rel)%list projectRoot with
      | inl r => Resolved r
      | inr e =>
          match f_code e with
          | Some c => if String.eqb c "ENOENT" then tryCandidates projectRoot runner rel rest (Some e)
                      else Rejected e
          | None => Rejected e
          end
      end
  end.

(** [runGeneratedTestFile({ projectRoot, testFilePath, framework })] *)
Definition runGeneratedTestFile (projectRoot testFilePath framework : string) : M outcome :=
  let runner := if String.eqb framework "vitest" then "vitest" else "jest" in
  let r := relative projectRoot testFilePath in
  let rel := if String.eqb r "" then testFilePath else r in
  binCandidates <- getRunnerBinaries projectRoot runner ;;
  ret (tryCandidates projectRoot runner rel binCandidates None).

End Runner.

End TestRunner.

(* ------------------------------------------------------------------ *)
(** ** The chunk loop of [generateTestsForPlan] with rejected promises *)

(** [model.complete] and [runGeneratedTestFile] return promises that can
    reject: the backend call fails, or the runner's [throw lastError] on a
    spawn error other than [ENOENT].  Nothing in [generateTestsForPlan]
    catches these, so the rejection ends the chunk, the item loop and the
    call.  This module runs the same loop as [Generator.processChunk] in a
    state monad whose results can be such a rejection, with the real
    runner of [TestRunner]. *)
Module GeneratorX.
Import Chunker Planner Effects RunState Generator.

Inductive res (A : Type) :=
| Val (a : A)
| Err (e : TestRunner.Failure).
Arguments Val {A} a.
Arguments Err {A} e.

Definition MX (A : Type) : Type := St -> res A * St.

Definition retX {A} (a : A) : MX A := fun st => (Val a, st).

(** [await]: a rejection skips the rest of the body. *)
Definition bindX {A B} (m : MX A) (k : A -> MX B) : MX B :=
  fun st => match m st with
            | (Val a, st') => k a st'
            | (Err e, st') => (Err e, st')
            end.

(** A step that cannot reject. *)
Definition lift {A} (m : M A) : MX A := fun st => let (a, st') := m st in (Val a, st').

Notation "x <-! m ;; k" := (bindX m (fun x => k)) (at level 61, m at next level, right associativity).
Notation "m ;;! k" := (bindX m (fun _ => k)) (at level 61, right associativity).

Section ChunkX.
(** [backendX n prompt]: the [n]-th answer of the backend, or its
    rejection; the runner's [spawn], [path.relative] and platform. *)
Variable E : GenEnv.
Variable backendX : nat -> string -> string + TestRunner.Failure.
Variable spawnChild : string -> list string -> string -> TestRunner.ChildOutcome.
Variable relative : string -> string -> string.
Variable isWin32 : bool.

(** [await model.complete(prompt, ...)] *)
Definition completeX (key prompt : string) : MX string :=
  fun st => match backendX (count_calls (log st)) prompt with
            | inl r => (Val r, record (ACall key prompt r) st)
            | inr e => (Err e, st)
            end.

(** [await runGeneratedTestFile({ projectRoot, testFilePath, framework })] *)
Definition runX (projectRoot testFilePath framework : string) : MX RunResult :=
  fun st =>
    let (o, st') := TestRunner.runGeneratedTestFile spawnChild relative isWin32
                      projectRoot testFilePath framework (record (ARun testFilePath) st) in
    match o with
    | TestRunner.Resolved r =>
        (Val (mkRunResult (TestRunner.ok r) (TestRunner.command r) (TestRunner.output r)), st')
    | TestRunner.Rejected e => (Err e, st')
    end.

Variables (opts : GenOpts) (plan : WorkPlan) (item : WorkItem) (chunk : Chunk).
Variables (key outPath codeForPrompt : string).

(** [Generator.attempts] with the rejecting calls. *)
Fixpoint attemptsX (fuel : nat) (attempt : Z) (ls : LoopState) : MX LoopState :=
  match fuel with
  | O => retX ls
  | S fuel' =>
    if attempt <=? maxFixLoops opts then
      raw <-! completeX key (attemptPrompt E plan item codeForPrompt attempt ls) ;;
      let no_code := mkLoopState (previousTest ls) (Some "Model returned no code"%string)
                       "Model returned no code" (wrote ls) in
      match extractCodeBlock E raw with
      | None => attemptsX fuel' (attempt + 1) no_code
      | Some code =>
        if String.eqb code "" then attemptsX fuel' (attempt + 1) no_code else
        let formatted := tryFormat E code in
        let verification := verify E formatted outPath in
        if negb (Nat.eqb (length (v_diagnostics verification)) 0) then
          attemptsX fuel' (attempt + 1)
            (mkLoopState (Some formatted)
               (Some ("TypeScript diagnostics:" ++ String "010"%char
                        (Js.join (String "010"%char EmptyString) (v_diagnostics verification))))%string
               (Js.join " | " (v_diagnostics verification)) (wrote ls))
        else if v_testCount verification =? 0 then
          attemptsX fuel' (attempt + 1)
            (mkLoopState (Some formatted) (Some "No tests detected after verification"%string)
               "No tests detected after verification" (wrote ls))
        else
          let finalCode := tryFormat E (v_code verification) in
          lift (writeFile outPath finalCode) ;;!
          runResult <-! runX (projectRoot opts) outPath (framework plan) ;;
          if negb (r_ok runResult) then
            let ls' := mkLoopState (Some finalCode)
                         (Some (Js.trim (r_command runResult ++ String "010"%char (r_output runResult))))
                         (summarizeFailure (if String.eqb (r_output runResult) ""
                                            then "Jest run failed"%string else r_output runResult))
                         (wrote ls) in
            if attempt =? maxFixLoops opts then retX ls'
            else attemptsX fuel' (attempt + 1) ls'
          else
            lift (emit (mkEvent EWrite (rel item) (Some (id chunk))
                    (Some (Js.num_to_string (countTests E finalCode) ++ "|"
                           ++ Js.join ", " (detectHints E finalCode))%string))) ;;!
            retX (mkLoopState (previousTest ls) (failureMessage ls) (finalFailure ls) true)
      end
    else retX ls
  end.

End ChunkX.

(** [Generator.processChunk] with the rejecting calls. *)
Definition processChunkX (E : GenEnv) backendX spawnChild relative isWin32
    (opts : GenOpts) (plan : WorkPlan) (item : WorkItem) (chunk : Chunk) : MX unit :=
  let key := chunkKey (rel item) (Some (id chunk)) in
  if resume_has (resume opts) key then retX tt else
  lift (emit (mkEvent EStart (rel item) (Some (id chunk)) (Some (Js.num_to_string (approxTokens chunk))))) ;;!
  let initialPrompt := buildPrompt E (mkPromptArgs (framework plan) (renderer plan) (rel item)
                                        (code chunk) None None None) in
  let budget := ctxBudget plan - 128 in
  let codeForPrompt :=
    if budget <? estimateTokens initialPrompt
    then slimCode E (code chunk) (Z.max 128 ((budget * 4) / 5)) else code chunk in
  let outPath := resolveOutPath (projectRoot opts) (outDir opts) (rel item) in
  lift (mkdir (NodePath.dirname outPath)) ;;!
  found <-! lift (if force opts then ret false else access outPath) ;;
  if found then lift (emit (mkEvent EExists (rel item) (Some (id chunk)) None)) else
  ls <-! attemptsX E backendX spawnChild relative isWin32 opts plan item chunk key outPath codeForPrompt
          (Z.to_nat (maxFixLoops opts)) 1 initLoop ;;
  if wrote ls then retX tt else
  lift (rm outPath) ;;!
  lift (emit (mkEvent ESkip (rel item) (Some (id chunk))
          (Some ("Failed after " ++ Js.num_to_string (maxFixLoops opts) ++ " attempts: "
                 ++ summarizeFailure (finalFailure ls))%string))).

End GeneratorX.


(* ------------------------------------------------------------------ *)
(** ** [src/agent.ts]: the [read_file] tool *)

Module ReadFile.
Import Json Planner Agent.
Local Open Scope string_scope.

(** A JavaScript number as the code uses it here: [NaN], an infinity, or a
    finite value by its integer part (every use below truncates it, and
    [Math.min(8000, x)] commutes with truncation). *)
Inductive JsNum := NaN | PosInf | NegInf | Fin (z : Z).

(** [String(v)] for a value of a parsed tool call.  An object with an own
    [toString] key has no callable [toString] and its [valueOf] gives back
    the object, so the conversion throws a [TypeError]; arrays are joined
    with [","], [null] elements giving [""]. *)
Fixpoint js_String (v : json) : result string :=
  match v with
  | JNull => Ok "null"
  | JBool b => Ok (if b then "true" else "false")
  | JNum n => Ok (Js.num_to_string n)
  | JStr s => Ok s
  | JArr xs =>
      let fix elems (l : list json) : result (list string) :=
        match l with
        | [] => Ok []
        | x :: r =>
            bind_r (match x with JNull => Ok "" | _ => js_String x end) (fun s =>
            bind_r (elems r) (fun ss => Ok (s :: ss)))
        end in
      bind_r (elems xs) (fun ss => Ok (Js.join "," ss))
  | JObj _ => match get v "toString" with Some _ => Throw ExnType | None => Ok "[object Object]" end
  end.

Section Tool.
(** [Number(s)] for a string (StringToNumber). *)
Variable stringToNumber : string -> JsNum.

(** [Number(v)]: objects and arrays go through their string conversion. *)
Definition js_Number (v : json) : result JsNum :=
  match v with
  | JNull => Ok (Fin 0)
  | JBool b => Ok (Fin (if b then 1 else 0))
  | JNum n => Ok (Fin n)
  | JStr s => Ok (stringToNumber s)
  | JArr _ => bind_r (js_String v) (fun s => Ok (stringToNumber s))
  | JObj _ => bind_r (js_String v) (fun _ => Ok NaN)
  end.

(** [Math.min(8000, n)] *)
Definition min8000 (n : JsNum) : JsNum :=
  match n with
  | NaN => NaN
  | PosInf => Fin 8000
  | NegInf => NegInf
  | Fin z => Fin (Z.min 8000 z)
  end.

(** [text.slice(0, n)]: [NaN] counts as [0], a negative end counts from
    the end of the string. *)
Definition slice0 (text : string) (n : JsNum) : string :=
  let len := Js.len text in
  let e := match n with
           | NaN | NegInf => 0
           | PosInf => len
           | Fin z => if Z.ltb z 0 then Z.max (len + z) 0 else Z.min z len
           end in
  Js.slice text 0 e.

Definition convert_error : string := "TypeError: Cannot convert object to primitive value".

(** [tools.read_file(args, ctx)]; [files] is [ctx.scan.files], and [args]
    is [json.args ?? {}], never [null], so reading its properties does not
    throw; the conversions can, and the [catch] answers [String(e)]. *)
Definition read_file (files : list ScanFile) (args : json) : ToolResult :=
  let caught (r : result ToolResult) :=
    match r with Ok t => t | Throw _ => mkToolResult false None (Some convert_error) end in
  caught
    (let rp := get args "relPath" in
     bind_r (js_String (match rp with Some v => if truthy rp then v else JStr "" | None => JStr "" end))
       (fun rel =>
        match find (fun f => String.eqb (file_rel f) rel) files with
        | None => Ok (mkToolResult false None (Some "not_found"))
        | Some entry =>
            let mc := get args "maxChars" in
            bind_r (js_Number (match mc with None | Some JNull => JNum 4000 | Some v => v end))
              (fun n => Ok (mkToolResult true (Some (JStr (slice0 (file_text entry) (min8000 n)))) None))
        end)).

End Tool.

End ReadFile.

(* ------------------------------------------------------------------ *)
(** ** Observations on action logs used by the statements below *)

Module Observe.
Import Effects Generator.

(** The text returned by the last backend call of a log. *)
Fixpoint last_response (l : list Action) : option string :=
  match l with
  | [] => None
  | a :: r =>
    match last_response r with
    | Some x => Some x
    | None => match a with ACall _ _ resp => Some resp | _ => None end
    end
  end.

(** The failure one attempt of the basic generator records when the backend
    answers [raw]: no code block, the verifier's diagnostics, no tests, or
    the summary of the failed jest run on the written file. *)
Definition attemptFailure (E : GenEnv) (outPath raw : string) : string :=
  match extractCodeBlock E raw with
  | None => "Model returned no code"%string
  | Some code =>
    if String.eqb code "" then "Model returned no code"%string else
    let verification := verify E (tryFormat E code) outPath in
    if negb (Nat.eqb (length (v_diagnostics verification)) 0)
    then Js.join " | " (v_diagnostics verification)
    else if v_testCount verification =? 0 then "No tests detected after verification"%string
    else
      let finalCode := tryFormat E (v_code verification) in
      let r := runTest E outPath (Some finalCode) in
      summarizeFailure (if String.eqb (r_output r) "" then "Jest run failed"%string else r_output r)
  end.

(** An action made on behalf of the chunk with run-state key [key], source
    file [file] and chunk id [chunkId], whose destination is [outPath]. *)
Definition action_scoped (key file : string) (chunkId : option string) (outPath : string)
    (a : Action) : Prop :=
  match a with
  | ACall k _ _ => k = key
  | AEvent e => efile e = file /\ echunk e = chunkId
  | AMkdir _ => True
  | AAccess p _ | AWrite p _ | ARm p | ARun p => p = outPath
  end.

(** Paths the file-system actions of a log touch. *)
Definition touched_path (a : Action) : option string :=
  match a with
  | AAccess p _ | AWrite p _ | ARm p | ARun p => Some p
  | _ => None
  end.

(** What one run of the attempt loop from attempt [attempt] guarantees:
    its actions [new], at most [maxFixLoops + 1 - attempt] backend calls,
    all on behalf of the chunk, and when nothing was written, no event and
    the failure of the last attempt kept in [finalFailure]. *)
Definition loop_post (E : GenEnv) (opts : GenOpts) (key file chunkId outPath : string)
    (attempt : Z) (ls : LoopState) (st : St) (ls' : LoopState) (st' : St) : Prop :=
  exists new,
    log st' = log st ++ new /\
    (count_calls new <= Z.to_nat (maxFixLoops opts + 1 - attempt))%nat /\
    Forall (action_scoped key file (Some chunkId) outPath) new /\
    (wrote ls' = false ->
       (forall e, ~ In (AEvent e) new) /\
       finalFailure ls' = match last_response new with
                          | Some raw => attemptFailure E outPath raw
                          | None => finalFailure ls
                          end) /\
    (wrote ls' = true -> exists e, In (AEvent e) new /\ etype e = EWrite).

(** [m] only appends actions satisfying [P] to the log. *)
Definition logs_forall {A} (P : Action -> Prop) (m : M A) : Prop :=
  forall st a st', m st = (a, st') -> exists new, log st' = log st ++ new /\ Forall P new.

(** The key an event is recorded under in the run state
    ([makeChunkKey(evt.file, evt.chunkId)]). *)
Definition event_key (e : Event) : string := RunState.chunkKey (efile e) (echunk e).

(** Nothing done on behalf of a chunk whose key is in the resume set [R]: no
    backend call and no event under such a key. *)
Definition outside_resume (R : list string) (a : Action) : Prop :=
  match a with
  | ACall k _ _ => ~ In k R
  | AEvent e => ~ In (event_key e) R
  | _ => True
  end.

End Observe.

(* ================================================================== *)
(** * Concrete inputs *)

Module Inputs.
Import Chunker Planner.

Fixpoint repeat_char (n : nat) (c : ascii) : string :=
  match n with O => EmptyString | S n' => String c (repeat_char n' c) end.

(** What ts-morph returns for a text made of semicolons: one empty
    statement per semicolon, none of them a declaration. *)
Definition parse_semicolons (s : string) : list stmt :=
  map (fun _ => SOther ";") (list_ascii_of_string s).

(** A parser that finds no declarations at all. *)
Definition parse_nothing (s : string) : list stmt := [].

(** 24577 code units of expression-level code. *)
Definition long_expression_code : string := repeat_char (Z.to_nat 24577) ";".

Definition small_file : ScanFile := mkScanFile "src/small.ts" (repeat_char 400 ";").
Definition huge_file : ScanFile := mkScanFile "src/huge.ts" (repeat_char 4096 ";").
Definition tiny_file : ScanFile := mkScanFile "src/tiny.ts" "export const x = 1;".

Definition sample_plan : WorkPlan :=
  planWork parse_semicolons [small_file; huge_file] "none" "jest" 2048.

End Inputs.

Module GenInputs.
Import Chunker Planner Effects Json.
Local Open Scope string_scope.

Definition q : string := String "034"%char EmptyString.
Definition nl : string := String "010"%char EmptyString.

Definition big_chunk_a : Chunk :=
  mkChunk "src/Big.tsx#Button" "export function Button() { return null; }" KComponent 11.
Definition big_chunk_b : Chunk :=
  mkChunk "src/Big.tsx#useToggle" "export function useToggle() { return 0; }" KHook 11.
Definition big_item : WorkItem := mkWorkItem "src/Big.tsx" 3000 [big_chunk_a; big_chunk_b] None.
Definition big_plan : WorkPlan := mkWorkPlan 4096 "rtl-web" "jest" [big_item].

Definition test_source : string := "test('ok', () => {})".

(** Services under which every answer is code that verifies and whose
    jest run passes. *)
Definition passing_env : Generator.GenEnv :=
  Generator.mkGenEnv (fun _ _ => test_source) (fun a => Generator.pa_codeChunk a)
    (fun raw => Some raw) (fun c => c) (fun s _ => s)
    (fun c _ => Generator.mkVerification c [] 1)
    (fun _ _ => Generator.mkRunResult true "npx jest" "") (fun _ => 1) (fun _ => []).

(** Services under which the code verifies but jest fails every time. *)
Definition failing_env : Generator.GenEnv :=
  Generator.mkGenEnv (fun _ _ => test_source) (fun a => Generator.pa_codeChunk a)
    (fun raw => Some raw) (fun c => c) (fun s _ => s)
    (fun c _ => Generator.mkVerification c [] 1)
    (fun _ _ => Generator.mkRunResult false "npx jest"
                  ("FAIL src/__tests__/Big.test.tsx" ++ nl ++ "  Expected: 2" ++ nl ++ "  Received: 1"))
    (fun _ => 1) (fun _ => []).

Definition empty_fs : string -> option string := fun _ => None.
Definition st0 : St := mkSt empty_fs [].

Definition big_test_path : string := "out/src/__tests__/Big.test.tsx".

(** A project where the destination test file already exists. *)
Definition existing_fs : string -> option string :=
  fun p => if String.eqb p big_test_path then Some "// hand-written tests"%string else None.
Definition st_existing : St := mkSt existing_fs [].

Definition basic_opts : Generator.GenOpts := Generator.mkGenOpts "/proj" "out" false None 2.

(** A project whose local jest binary cannot be executed: [fs.access]
    finds [node_modules/.bin/jest], and spawning it fails with [EACCES]. *)
Definition jest_bin : string := "/proj/node_modules/.bin/jest".
Definition st_jest_bin : St :=
  mkSt (fun p => if String.eqb p jest_bin then Some "#!/usr/bin/env node" else None) [].
Definition spawn_jest_eacces (cmd : string) (_ : list string) (_ : string) : TestRunner.ChildOutcome :=
  if String.eqb cmd jest_bin then TestRunner.SpawnError (Some "EACCES") ("spawn " ++ cmd ++ " EACCES")
  else TestRunner.Closed (Some 0) "PASS".
Definition relative_id (_ p : string) : string := p.

(** A backend that always answers with test code. *)
Definition answers_test (_ : nat) (_ : string) : string + TestRunner.Failure := inl test_source.

(** JSON texts the planning backend answers with, and their parse. *)
Definition final_plan_text : string :=
  "{" ++ q ++ "final" ++ q ++ ":{" ++ q ++ "plan" ++ q ++ ":[" ++ q ++ "renders" ++ q ++ "]}}".
Definition final_empty_text : string :=
  "{" ++ q ++ "final" ++ q ++ ":{" ++ q ++ "plan" ++ q ++ ":[]}}".
Definition tool_call_text : string :=
  "{" ++ q ++ "tool" ++ q ++ ":" ++ q ++ "project_info" ++ q ++ "," ++ q ++ "args" ++ q ++ ":{}}".

Definition parse_table (s : string) : option json :=
  if String.eqb s final_plan_text then
    Some (JObj [("final", JObj [("plan", JArr [JStr "renders"])])])
  else if String.eqb s final_empty_text then
    Some (JObj [("final", JObj [("plan", JArr [])])])
  else if String.eqb s tool_call_text then
    Some (JObj [("tool", JStr "project_info"); ("args", JObj [])])
  else None.

(** Agent services; [answer n] is the backend's [n]-th answer. *)
Definition agent_env (answer : nat -> string) : Agent.AgentEnv :=
  Agent.mkAgentEnv (fun n _ => answer n) "You are a planning agent for unit tests."
    parse_table (fun _ => "[]")
    (fun _ _ => Ok (Agent.mkToolResult true (Some (JObj [("name", JStr "app")])) None))
    (fun _ => "error")
    (fun rel code _ _ => rel ++ nl ++ code) (fun rel code planJson _ _ => rel ++ nl ++ planJson)
    (fun raw => Some raw) (fun c => c) (fun c _ => Generator.mkVerification c [] 1)
    (fun _ _ generated _ _ => generated) (fun raw => Some raw) (fun _ => 1) (fun _ => []).

(** First a plan, then test code. *)
Definition planning_answers (n : nat) : string :=
  match n with O => final_plan_text | _ => test_source end.

(** Always another tool request. *)
Definition stuck_answers (_ : nat) : string := tool_call_text.

(** A deliberate empty plan. *)
Definition empty_plan_answers (_ : nat) : string := final_empty_text.

Definition agent_opts (maxToolCalls : option Z) : Agent.AgentOpts :=
  Agent.mkAgentOpts "/proj" "out" false maxToolCalls "rtl-web" "jest" None.

(** A run state where the first chunk of [src/Big.tsx] was abandoned. *)
Definition skipped_state : list (string * RunState.StoredFileState) :=
  [("src/Big.tsx", RunState.mkStoredFileState "skip"
       [("src/Big.tsx::src/Big.tsx#Button",
         RunState.mkStoredChunkState "skip" (Some "Failed after 2 attempts: FAIL"))])].

(** Options of a rerun that resumes from [skipped_state]. *)
Definition resumed_opts : Generator.GenOpts :=
  Generator.mkGenOpts "/proj" "out" false (Some (RunState.getCompletedChunkKeys skipped_state)) 2.

End GenInputs.

Module SigInputs.
Import Chunker Planner Json.
Local Open Scope string_scope.

(** An overloaded function: ts-morph reports the overload signature and
    the implementation as two named function declarations, and the
    chunker gives both the id [src/over.ts#parse]. *)
Definition overload_sig_text : string := "export function parse(x: string): number;".
Definition overload_impl_text : string := "export function parse(x: any) { return Number(x); }".

Definition overload_sig : Chunk :=
  mkChunk "src/over.ts#parse" overload_sig_text KFunction (estimateTokens overload_sig_text).
Definition overload_impl : Chunk :=
  mkChunk "src/over.ts#parse" overload_impl_text KFunction (estimateTokens overload_impl_text).

Definition over_plan (cs : list Chunk) : WorkPlan :=
  mkWorkPlan 4096 "rtl-web" "jest" [mkWorkItem "src/over.ts" 900 cs None].

(** A plan with distinct paths and ids, and the same plan reordered. *)
Definition chunk_a1 : Chunk := mkChunk "src/a.ts#alpha" "function alpha() {}" KFunction 5.
Definition chunk_a2 : Chunk := mkChunk "src/a.ts#useBeta" "const useBeta = () => 1;" KHook 6.
Definition chunk_b1 : Chunk := mkChunk "src/b.tsx#Card" "const Card = () => <div/>;" KComponent 7.

Definition item_a (cs : list Chunk) : WorkItem := mkWorkItem "src/a.ts" 300 cs None.
Definition item_b : WorkItem := mkWorkItem "src/b.tsx" 120 [chunk_b1] None.
Definition item_c : WorkItem := mkWorkItem "src/types.ts" 80 [] (Some "types-only").

Definition plan_fwd : WorkPlan :=
  mkWorkPlan 4096 "rtl-web" "jest" [item_a [chunk_a1; chunk_a2]; item_b; item_c].
Definition plan_bwd : WorkPlan :=
  mkWorkPlan 4096 "rtl-web" "jest" [item_c; item_b; item_a [chunk_a2; chunk_a1]].

(** The same plan with the kind of [chunk_a1] changed. *)
Definition chunk_a1_hook : Chunk := mkChunk "src/a.ts#alpha" "function alpha() {}" KHook 5.
Definition plan_fwd_hook : WorkPlan :=
  mkWorkPlan 4096 "rtl-web" "jest" [item_a [chunk_a1_hook; chunk_a2]; item_b; item_c].

(** Chunk ids containing the separator: with [s = |function|1], the ids
    [u = a s b], [v = a s b s a] and [w = b s a] satisfy
    [u s v s = v s w s], and [u < v < w] in code-unit order. *)
Definition pipe_u : Chunk := mkChunk "a|function|1b" "" KFunction 1.
Definition pipe_v : Chunk := mkChunk "a|function|1b|function|1a" "" KFunction 1.
Definition pipe_w : Chunk := mkChunk "b|function|1a" "" KFunction 1.
Definition pipe_plan (cs : list Chunk) : WorkPlan :=
  mkWorkPlan 4096 "rtl-web" "jest" [mkWorkItem "src/pipe.ts" 100 cs None].

(** The [JSON.parse] of a few state files. *)
Definition state_text_stale : string := "stale".
Definition stale_state : json :=
  JObj [("version", JNum 1); ("planSignature", JStr "0123abcd"); ("mode", JStr "basic");
        ("totals", JObj [("completedChunks", JNum 1); ("totalChunks", JNum 2)])].
Definition parse_state (s : string) : option json :=
  if String.eqb s state_text_stale then Some stale_state
  else if String.eqb s "null" then Some JNull
  else None.

End SigInputs.

(* ================================================================== *)
(** * Properties *)

Module NodePathFacts.
Import NodePath.
Local Open Scope string_scope.

Example dirname_nested : dirname "src/a/b.tsx" = "src/a"%string.
Proof. reflexivity. Qed.
Example dirname_top : dirname "b.ts" = "."%string.
Proof. reflexivity. Qed.
Example dirname_root : dirname "/b.ts" = "/"%string.
Proof. reflexivity. Qed.
Example extname_tsx : extname "src/b.tsx" = ".tsx"%string.
Proof. reflexivity. Qed.
Example extname_dotfile : extname ".bashrc" = ""%string.
Proof. reflexivity. Qed.
Example extname_last : extname "a.b.c" = ".c"%string.
Proof. reflexivity. Qed.
Example extname_trailing_dot : extname "a." = "."%string.
Proof. reflexivity. Qed.
Example basename_suffix : basename "src/a/b.tsx" ".tsx" = "b"%string.
Proof. reflexivity. Qed.
Example basename_plain : basename "src/b.ts" "" = "b.ts"%string.
Proof. reflexivity. Qed.
Example basename_trailing_slash : basename "src/b/" "" = "b"%string.
Proof. reflexivity. Qed.
Example join_plain : join ["out"; "src"; "__tests__"; "b.test.ts"] = "out/src/__tests__/b.test.ts"%string.
Proof. reflexivity. Qed.
Example join_abs : join ["/root/out"; ""; "__tests__"; "x.ts"] = "/root/out/__tests__/x.ts"%string.
Proof. reflexivity. Qed.
Example join_above : join ["a/../.."; "b"] = "../b"%string.
Proof. reflexivity. Qed.

End NodePathFacts.

Module ChunkerFacts.
Import Chunker.

Example kind_hook : inferKindFromName "useThing" = KHook.
Proof. reflexivity. Qed.
Example kind_component : inferKindFromName "Thing" = KComponent.
Proof. reflexivity. Qed.
Example kind_function : inferKindFromName "user" = KFunction.
Proof. reflexivity. Qed.
Example kind_use_alone : inferKindFromName "use" = KFunction.
Proof. reflexivity. Qed.
Example tokens_ceil : estimateTokens "abcde" = 2.
Proof. reflexivity. Qed.
Example component_like : looksLikeComponent "() => <div/>" "Card" = true.
Proof. reflexivity. Qed.

End ChunkerFacts.

Module ChunkerProofs.
Import Chunker Planner Inputs.

Lemma chunkSource_within_budget getStatements relPath code maxTokens c :
  In c (chunkSource getStatements relPath code maxTokens) -> approxTokens c <= maxTokens.
Proof.
  unfold chunkSource. destruct (Z.leb_spec (estimateTokens code) maxTokens) as [Hle|Hgt].
  - intros [<-|[]]. exact Hle.
  - intros Hc. apply filter_In in Hc as [_ Hc]. now apply Z.leb_le.
Qed.

Lemma sliceLoop_length fuel relPath code step i chunks :
  (length chunks <= 12)%nat ->
  (length (sliceLoop fuel relPath code step i chunks) <= 13)%nat.
Proof.
  revert i chunks. induction fuel as [|fuel IH]; intros i chunks Hlen; simpl.
  - lia.
  - destruct (i <? Js.len code); [|lia].
    rewrite length_app. simpl.
    destruct (Z.ltb_spec 12 (Z.of_nat (length chunks + 1))) as [Hgt|Hle].
    + rewrite length_app. simpl. lia.
    + apply IH. rewrite length_app. simpl. lia.
Qed.

Lemma planFile_length gs usable f :
  length (planFile gs usable f) = if estimateTokens (file_text f) <? 64 then 0%nat else 1%nat.
Proof.
  unfold planFile. destruct (estimateTokens (file_text f) <? 64); [reflexivity|].
  destruct (isPureTypes (file_text f)); [reflexivity|].
  destruct (chunkSource gs (file_rel f) (file_text f) (usable - 768)); reflexivity.
Qed.

(** C5: every chunk kept by [planWork] fits the budget handed to
    [chunkSource] ([usable - 768]); a file that passes the size and
    types-only gates but whose chunk list comes back empty becomes a
    WorkItem with no chunks and a skip reason. *)
Theorem planWork_chunks_within_budget gs files renderer framework contextSize :
  (forall it c,
      In it (items (planWork gs files renderer framework contextSize)) ->
      In c (chunks it) ->
      approxTokens c <= usableBudget contextSize - 768) /\
  (forall f,
      In f files ->
      64 <= estimateTokens (file_text f) ->
      isPureTypes (file_text f) = false ->
      chunkSource gs (file_rel f) (file_text f) (usableBudget contextSize - 768) = [] ->
      exists it, In it (items (planWork gs files renderer framework contextSize))
                 /\ rel it = file_rel f /\ chunks it = [] /\ skipReason it <> None).
Proof.
  split.
  - intros it c Hit Hc. unfold planWork in Hit. simpl in Hit.
    apply in_flat_map in Hit as [f [_ Hit]]. unfold planFile in Hit.
    destruct (estimateTokens (file_text f) <? 64); [contradiction|].
    destruct (isPureTypes (file_text f)).
    + destruct Hit as [<-|[]]. contradiction.
    + destruct (chunkSource gs (file_rel f) (file_text f) (usableBudget contextSize - 768)) eqn:E.
      * destruct Hit as [<-|[]]. contradiction.
      * destruct Hit as [<-|[]]. cbn [chunks] in Hc. rewrite <- E in Hc.
        exact (chunkSource_within_budget _ _ _ _ _ Hc).
  - intros f Hf Hmin Htypes Hempty.
    exists (mkWorkItem (file_rel f) (estimateTokens (file_text f)) []
                       (Some "Too large to chunk under budget"%string)).
    split; [|repeat split; simpl; congruence].
    unfold planWork. simpl. apply in_flat_map. exists f. split; [exact Hf|].
    unfold planFile. destruct (Z.ltb_spec (estimateTokens (file_text f)) 64); [lia|].
    rewrite Htypes, Hempty. left. reflexivity.
Qed.

(** C8 (code_bug): the fallback slicing pushes a slice before testing
    [chunks.length > 12], so it can produce 13 slices.  At a budget of 256
    (the smallest [planWork] passes) a text of 24577 semicolons has no
    declarations and yields 13 slice chunks before the post-filter. *)
Theorem chunkSource_fallback_thirteen_slices :
  declChunks parse_semicolons "src/expr.ts" long_expression_code = []
  /\ 256 < estimateTokens long_expression_code
  /\ length (chunkCandidates parse_semicolons "src/expr.ts" long_expression_code 256) = 13%nat.
Proof. vm_compute. repeat split; reflexivity. Qed.

(** The fallback never yields more than 13 slices. *)
Lemma chunkCandidates_fallback_at_most_13 gs relPath code maxTokens :
  declChunks gs relPath code = [] ->
  (length (chunkCandidates gs relPath code maxTokens) <= 13)%nat.
Proof.
  intros H. unfold chunkCandidates. rewrite H. apply sliceLoop_length. simpl. lia.
Qed.

(** C7 (counterexample): a scanned file below the 64-token threshold
    gets no WorkItem at all. *)
Lemma planWork_tiny_file_no_item :
  estimateTokens "export const x = 1;" < 64 /\
  ~ (exists it, In it (items (planWork parse_nothing
                                [mkScanFile "src/tiny.ts" "export const x = 1;"]
                                "none" "jest" 4096))
                /\ rel it = "src/tiny.ts"%string).
Proof.
  split; [reflexivity|]. intros [it [Hit _]]. vm_compute in Hit. exact Hit.
Qed.

(** C7 (amended): a file below 64 estimated tokens contributes nothing to
    the plan (removing it leaves the items unchanged, and the chunker is
    not consulted for it); every WorkItem without chunks carries the skip
    reason [Types-only file] or [Too large to chunk under budget]; and the
    files of at least 64 estimated tokens and the WorkItems correspond one
    to one, in scan order, each WorkItem carrying its file's path and token
    count. *)
Theorem planWork_small_files_dropped gs files renderer framework contextSize :
  (forall pre f post,
      files = pre ++ f :: post ->
      estimateTokens (file_text f) < 64 ->
      items (planWork gs files renderer framework contextSize)
      = items (planWork gs (pre ++ post) renderer framework contextSize)) /\
  (forall it, In it (items (planWork gs files renderer framework contextSize)) ->
              chunks it = [] ->
              skipReason it = Some "Types-only file"%string \/
              skipReason it = Some "Too large to chunk under budget"%string) /\
  Forall2 (fun f it => rel it = file_rel f /\ originalTokens it = estimateTokens (file_text f))
    (filter (fun f => 64 <=? estimateTokens (file_text f)) files)
    (items (planWork gs files renderer framework contextSize)).
Proof.
  split; [|split].
  - intros pre f post -> Hsmall. unfold planWork. simpl.
    rewrite !flat_map_app. simpl. unfold planFile at 2.
    rewrite (proj2 (Z.ltb_lt _ _) Hsmall). reflexivity.
  - intros it Hit Hnil. unfold planWork in Hit. simpl in Hit.
    apply in_flat_map in Hit as [f [_ Hit]]. unfold planFile in Hit.
    destruct (estimateTokens (file_text f) <? 64); [contradiction|].
    destruct (isPureTypes (file_text f)).
    + destruct Hit as [<-|[]]. left. reflexivity.
    + destruct (chunkSource gs (file_rel f) (file_text f) (usableBudget contextSize - 768)) eqn:E.
      * destruct Hit as [<-|[]]. right. reflexivity.
      * destruct Hit as [<-|[]]. simpl in Hnil. discriminate.
  - unfold planWork. simpl. induction files as [|f fs IH]; [constructor|].
    cbn [flat_map filter]. unfold planFile at 1.
    destruct (Z.ltb_spec (estimateTokens (file_text f)) 64);
      destruct (Z.leb_spec 64 (estimateTokens (file_text f))); try lia.
    + exact IH.
    + destruct (isPureTypes (file_text f)).
      * constructor; [split; reflexivity|exact IH].
      * destruct (chunkSource gs (file_rel f) (file_text f) (usableBudget contextSize - 768));
          constructor; (split; reflexivity) || exact IH.
Qed.

Lemma planWork_chunks_within_budget_witness :
  (exists it c, In it (items sample_plan) /\ In c (chunks it) /\
                approxTokens c <= usableBudget 2048 - 768) /\
  (exists it, In it (items sample_plan) /\ rel it = file_rel huge_file
              /\ chunks it = [] /\ skipReason it <> None).
Proof.
  destruct (planWork_chunks_within_budget parse_semicolons [small_file; huge_file]
              "none" "jest" 2048) as [H1 H2].
  split.
  - set (it := hd (mkWorkItem "" 0 [] None) (items sample_plan)).
    set (c := hd (mkChunk "" "" KModule 0) (chunks it)).
    assert (Hit : In it (items sample_plan)) by (vm_compute; left; reflexivity).
    assert (Hc : In c (chunks it)) by (vm_compute; left; reflexivity).
    exists it, c. split; [exact Hit|split; [exact Hc|]].
    exact (H1 it c Hit Hc).
  - apply H2.
    + simpl. right. left. reflexivity.
    + vm_compute. congruence.
    + vm_compute. reflexivity.
    + vm_compute. reflexivity.
Defined.

Lemma planWork_small_files_dropped_witness :
  items (planWork parse_semicolons [tiny_file; small_file] "none" "jest" 2048)
  = items (planWork parse_semicolons [small_file] "none" "jest" 2048).
Proof.
  apply (proj1 (planWork_small_files_dropped parse_semicolons [tiny_file; small_file]
                  "none" "jest" 2048) [] tiny_file [small_file]).
  - reflexivity.
  - vm_compute. reflexivity.
Defined.

End ChunkerProofs.

Module LogFacts.
Import Effects Observe.

Lemma lf_ret {A} P (a : A) : logs_forall P (ret a).
Proof. intros st b st' H. inversion H; subst. exists []. split; [rewrite app_nil_r; reflexivity|constructor]. Qed.

Lemma lf_bind {A B} P (m : M A) (k : A -> M B) :
  logs_forall P m -> (forall a, logs_forall P (k a)) -> logs_forall P (bind m k).
Proof.
  intros Hm Hk st b st' H. unfold bind in H.
  destruct (m st) as [a st1] eqn:H1.
  destruct (Hm _ _ _ H1) as (n1 & Hl1 & Hf1).
  destruct (Hk a _ _ _ H) as (n2 & Hl2 & Hf2).
  exists (n1 ++ n2). split; [rewrite Hl2, Hl1, app_assoc; reflexivity|apply Forall_app; split; assumption].
Qed.

Lemma lf_record P (a : Action) (f : St -> string -> option string) (x : unit) :
  P a -> logs_forall P (fun st => (x, mkSt (f st) (log st ++ [a]))).
Proof. intros Ha st b st' H. inversion H; subst. exists [a]. split; [reflexivity|repeat constructor; exact Ha]. Qed.

Lemma lf_emit P e : P (AEvent e) -> logs_forall P (emit e).
Proof. intros Ha. apply (lf_record P (AEvent e) files tt Ha). Qed.

Lemma lf_mkdir P d : P (AMkdir d) -> logs_forall P (mkdir d).
Proof. intros Ha. apply (lf_record P (AMkdir d) files tt Ha). Qed.

Lemma lf_writeFile P p c : P (AWrite p c) -> logs_forall P (writeFile p c).
Proof. intros Ha. apply (lf_record P (AWrite p c) (fun st => update (files st) p (Some c)) tt Ha). Qed.

Lemma lf_rm P p : P (ARm p) -> logs_forall P (rm p).
Proof. intros Ha. apply (lf_record P (ARm p) (fun st => update (files st) p None) tt Ha). Qed.

Lemma lf_complete P b key p : (forall r, P (ACall key p r)) -> logs_forall P (complete b key p).
Proof.
  intros Ha st r st' H. inversion H; subst. eexists. split; [reflexivity|repeat constructor; apply Ha].
Qed.

Lemma lf_access P p : (forall b, P (AAccess p b)) -> logs_forall P (access p).
Proof.
  intros Ha st r st' H. inversion H; subst. eexists. split; [reflexivity|repeat constructor; apply Ha].
Qed.

Lemma lf_run P E p : P (ARun p) -> logs_forall P (Generator.runGeneratedTestFile E p).
Proof.
  intros Ha st r st' H. inversion H; subst. eexists. split; [reflexivity|repeat constructor; apply Ha].
Qed.

Lemma lf_mapM_ {A} P (f : A -> M unit) (xs : list A) :
  (forall x, In x xs -> logs_forall P (f x)) -> logs_forall P (mapM_ f xs).
Proof.
  induction xs as [|x xs IH]; intros Hf; simpl.
  - apply lf_ret.
  - apply lf_bind; [apply Hf; left; reflexivity|intros _; apply IH; intros y Hy; apply Hf; right; exact Hy].
Qed.

Lemma lf_mono {A} (P Q : Action -> Prop) (m : M A) :
  (forall a, P a -> Q a) -> logs_forall P m -> logs_forall Q m.
Proof.
  intros HPQ Hm st a st' H. destruct (Hm _ _ _ H) as (n & Hl & Hf).
  exists n. split; [exact Hl|]. eapply Forall_impl; [exact HPQ|exact Hf].
Qed.

(** Decompose a program into the primitives above, case-splitting on the
    tests it makes. *)
Ltac lf_step :=
  match goal with
  | |- logs_forall _ (bind _ _) => apply lf_bind; [|intro]
  | |- logs_forall _ (ret _) => apply lf_ret
  | |- logs_forall _ (emit _) => apply lf_emit
  | |- logs_forall _ (mkdir _) => apply lf_mkdir
  | |- logs_forall _ (writeFile _ _) => apply lf_writeFile
  | |- logs_forall _ (rm _) => apply lf_rm
  | |- logs_forall _ (complete _ _ _) => apply lf_complete; intro
  | |- logs_forall _ (access _) => apply lf_access; intro
  | |- logs_forall _ (Generator.runGeneratedTestFile _ _) => apply lf_run
  | |- logs_forall _ (if ?b then _ else _) => destruct b
  | |- logs_forall _ (match ?x with _ => _ end) => destruct x
  end.

End LogFacts.

Module GeneratorProofs.
Import Chunker Planner Effects RunState Generator Observe LogFacts.

Lemma count_calls_app (l1 l2 : list Action) :
  count_calls (l1 ++ l2) = (count_calls l1 + count_calls l2)%nat.
Proof. unfold count_calls. rewrite filter_app, length_app. reflexivity. Qed.

Lemma last_response_app (l1 l2 : list Action) :
  last_response (l1 ++ l2) =
  match last_response l2 with Some x => Some x | None => last_response l1 end.
Proof.
  induction l1 as [|a l1 IH]; simpl.
  - destruct (last_response l2); reflexivity.
  - rewrite IH. destruct (last_response l2); reflexivity.
Qed.

Lemma loop_post_nil E opts key file chunkId outPath attempt ls st :
  wrote ls = false ->
  loop_post E opts key file chunkId outPath attempt ls st ls st.
Proof.
  intros Hw. exists []. rewrite app_nil_r.
  split; [reflexivity|]; split; [apply Nat.le_0_l|]; split; [constructor|].
  split; [intros _; split; [intros e []|reflexivity] | intros Ht; congruence].
Qed.

Lemma loop_post_step E opts key file chunkId outPath attempt ls ls0 st st1 ls' st' pre raw :
  loop_post E opts key file chunkId outPath (attempt + 1) ls0 st1 ls' st' ->
  attempt <= maxFixLoops opts ->
  log st1 = log st ++ pre ->
  count_calls pre = 1%nat ->
  Forall (action_scoped key file (Some chunkId) outPath) pre ->
  (forall e, ~ In (AEvent e) pre) ->
  last_response pre = Some raw ->
  finalFailure ls0 = attemptFailure E outPath raw ->
  loop_post E opts key file chunkId outPath attempt ls st ls' st'.
Proof.
  intros (new & Hl & Hcnt & Hsc & Hno & Hyes) Hle Hlog Hc Hf Hev Hlast Hfail.
  exists (pre ++ new). split; [rewrite Hl, Hlog, app_assoc; reflexivity|].
  split; [rewrite count_calls_app; lia|].
  split; [apply Forall_app; split; assumption|].
  split.
  - intros Hw. destruct (Hno Hw) as [Hn Hff]. split.
    + intros e Hin. apply in_app_or in Hin as [Hin|Hin]; [exact (Hev e Hin)|exact (Hn e Hin)].
    + rewrite last_response_app, Hff. destruct (last_response new); [reflexivity|].
      rewrite Hlast. exact Hfail.
  - intros Hw. destruct (Hyes Hw) as (e & Hin & He). exists e. split; [apply in_or_app; right; exact Hin|exact He].
Qed.

Lemma attempts_spec (E : GenEnv) opts plan item chunk key outPath cfp :
  forall fuel attempt ls st ls' st',
  attempts E opts plan item chunk key outPath cfp fuel attempt ls st = (ls', st') ->
  wrote ls = false ->
  loop_post E opts key (rel item) (id chunk) outPath attempt ls st ls' st'.
Proof.
  induction fuel as [|fuel IH]; intros attempt ls st ls' st' H Hw; simpl in H.
  - inversion H; subst. apply loop_post_nil; exact Hw.
  - destruct (attempt <=? maxFixLoops opts) eqn:Hle.
    2: { inversion H; subst. apply loop_post_nil; exact Hw. }
    apply Z.leb_le in Hle.
    unfold bind, complete in H. cbn beta iota zeta in H.
    match type of H with context [ACall key ?p ?r] => set (raw := r) in H; set (prm := p) in * end.
    assert (Hcall : Forall (action_scoped key (rel item) (Some (id chunk)) outPath)
                      [ACall key prm raw]) by (constructor; [reflexivity|constructor]).
    destruct (extractCodeBlock E raw) as [code|] eqn:Hx.
    2: { eapply loop_post_step with (pre := [ACall key prm raw]) (raw := raw);
         [apply (IH _ _ _ _ _ H); exact Hw | exact Hle | reflexivity | reflexivity | exact Hcall | intros e [He|[]]; discriminate
         | reflexivity | unfold attemptFailure; rewrite Hx; reflexivity]. }
    destruct (String.eqb code "") eqn:He.
    { eapply loop_post_step with (pre := [ACall key prm raw]) (raw := raw);
      [apply (IH _ _ _ _ _ H); exact Hw | exact Hle | reflexivity | reflexivity | exact Hcall | intros e [He'|[]]; discriminate
      | reflexivity | unfold attemptFailure; rewrite Hx, He; reflexivity]. }
    destruct (negb (Nat.eqb (length (v_diagnostics (verify E (tryFormat E code) outPath))) 0)) eqn:Hd.
    { eapply loop_post_step with (pre := [ACall key prm raw]) (raw := raw);
      [apply (IH _ _ _ _ _ H); exact Hw | exact Hle | reflexivity | reflexivity | exact Hcall | intros e [He'|[]]; discriminate
      | reflexivity | unfold attemptFailure; rewrite Hx, He; cbn zeta; rewrite Hd; reflexivity]. }
    destruct (v_testCount (verify E (tryFormat E code) outPath) =? 0) eqn:Ht.
    { eapply loop_post_step with (pre := [ACall key prm raw]) (raw := raw);
      [apply (IH _ _ _ _ _ H); exact Hw | exact Hle | reflexivity | reflexivity | exact Hcall | intros e [He'|[]]; discriminate
      | reflexivity | unfold attemptFailure; rewrite Hx, He; cbn zeta; rewrite Hd, Ht; reflexivity]. }
    unfold writeFile, runGeneratedTestFile, record in H. cbn beta iota zeta in H.
    cbn [files log] in H. unfold update in H. rewrite String.eqb_refl in H.
    set (fc := tryFormat E (v_code (verify E (tryFormat E code) outPath))) in H.
    set (r := runTest E outPath (Some fc)) in H.
    assert (Hpre : Forall (action_scoped key (rel item) (Some (id chunk)) outPath)
                     [ACall key prm raw; AWrite outPath fc; ARun outPath])
      by (repeat constructor).
    assert (Hfail : attemptFailure E outPath raw =
                    summarizeFailure (if String.eqb (r_output r) "" then "Jest run failed"%string
                                      else r_output r))
      by (unfold attemptFailure; rewrite Hx, He; cbn zeta; rewrite Hd, Ht; reflexivity).
    destruct (r_ok r) eqn:Hr; cbn beta iota in H.
    + unfold emit, ret, record in H. cbn in H. inversion H; subst; clear H.
      exists [ACall key prm raw; AWrite outPath fc; ARun outPath;
              AEvent (mkEvent EWrite (rel item) (Some (id chunk))
                        (Some (Js.num_to_string (countTests E fc) ++ "|"
                               ++ Js.join ", " (detectHints E fc))%string))].
      split; [cbn; rewrite <- !app_assoc; reflexivity|].
      split; [cbn; lia|].
      split; [repeat constructor|].
      split; [cbn; intros Hf; discriminate|].
      intros _. eexists. split; [right; right; right; left; reflexivity|reflexivity].
    + destruct (attempt =? maxFixLoops opts) eqn:Heq.
      * unfold ret in H. inversion H; subst; clear H.
        eapply loop_post_step with (pre := [ACall key prm raw; AWrite outPath fc; ARun outPath]) (raw := raw);
          [apply loop_post_nil; exact Hw | exact Hle | cbn; rewrite <- !app_assoc; reflexivity | reflexivity | exact Hpre
          | intros e [He'|[He'|[He'|[]]]]; discriminate | reflexivity | symmetry; exact Hfail].
      * eapply loop_post_step with (pre := [ACall key prm raw; AWrite outPath fc; ARun outPath]) (raw := raw);
          [apply (IH _ _ _ _ _ H); exact Hw | exact Hle | cbn; rewrite <- !app_assoc; reflexivity | reflexivity | exact Hpre
          | intros e [He'|[He'|[He'|[]]]]; discriminate | reflexivity | symmetry; exact Hfail].
Qed.

Ltac loop_tail :=
  match goal with
  | H : context [attempts ?E ?opts ?plan ?item ?chunk ?key ?outPath ?c ?f ?a ?l ?s0] |- _ =>
      set (cfp := c) in H;
      destruct (attempts E opts plan item chunk key outPath cfp f a l s0) as [ls stL] eqn:Ha;
      exists cfp, ls, stL; split; [first [left; reflexivity | right; reflexivity]|];
      split; [rewrite <- Ha; cbn [files log]; rewrite <- !app_assoc; reflexivity|];
      destruct (wrote ls) eqn:Hw;
      [ left; split; [reflexivity|]; unfold ret in H; congruence
      | right; split; [reflexivity|]; unfold rm in H; cbn in H; inversion H; subst;
        cbn; rewrite <- !app_assoc; reflexivity ]
  end.

(** The fuel given to the attempt loop never cuts it short: with at least
    [maxFixLoops + 1 - attempt] units, more fuel changes nothing. *)
Lemma attempts_fuel_enough E opts plan item chunk key outPath cfp :
  forall fuel attempt ls st extra,
  (Z.to_nat (maxFixLoops opts + 1 - attempt) <= fuel)%nat ->
  attempts E opts plan item chunk key outPath cfp (fuel + extra) attempt ls st =
  attempts E opts plan item chunk key outPath cfp fuel attempt ls st.
Proof.
  induction fuel as [|fuel IH]; intros attempt ls st extra Hf.
  - destruct extra as [|extra]; [reflexivity|]. simpl.
    assert (Hgt : (attempt <=? maxFixLoops opts) = false) by (apply Z.leb_gt; lia).
    rewrite Hgt. reflexivity.
  - cbn [Nat.add attempts].
    destruct (attempt <=? maxFixLoops opts) eqn:Hle; [|reflexivity].
    apply Z.leb_le in Hle.
    assert (Hf' : (Z.to_nat (maxFixLoops opts + 1 - (attempt + 1)) <= fuel)%nat) by lia.
    unfold bind, complete. cbn beta iota zeta.
    repeat match goal with
           | |- context [match ?x with _ => _ end] =>
               match x with context [attempts] => fail 1 | _ => destruct x end
           end;
      unfold writeFile, runGeneratedTestFile, record, ret, emit; cbn beta iota zeta;
      repeat match goal with
             | |- context [match ?x with _ => _ end] =>
                 match x with context [attempts] => fail 1 | _ => destruct x end
             end;
      try rewrite IH by exact Hf'; try reflexivity.
Qed.

Lemma processChunk_cases E opts plan item chunk st u st' :
  processChunk E opts plan item chunk st = (u, st') ->
  let key := chunkKey (rel item) (Some (id chunk)) in
  let outPath := resolveOutPath (projectRoot opts) (outDir opts) (rel item) in
  let startEv := AEvent (mkEvent EStart (rel item) (Some (id chunk))
                           (Some (Js.num_to_string (approxTokens chunk)))) in
  (resume_has (resume opts) key = true /\ st' = st) \/
  (resume_has (resume opts) key = false /\ force opts = false /\
   (exists c, files st outPath = Some c) /\
   st' = mkSt (files st) (log st ++ [startEv; AMkdir (NodePath.dirname outPath);
                                     AAccess outPath true;
                                     AEvent (mkEvent EExists (rel item) (Some (id chunk)) None)])) \/
  (resume_has (resume opts) key = false /\
   exists cfp ls stL,
     (force opts = true \/ files st outPath = None) /\
     attempts E opts plan item chunk key outPath cfp (Z.to_nat (maxFixLoops opts)) 1 initLoop
       (mkSt (files st) (log st ++ [startEv; AMkdir (NodePath.dirname outPath)]
                               ++ (if force opts then [] else [AAccess outPath false])))
       = (ls, stL) /\
     ((wrote ls = true /\ st' = stL) \/
      (wrote ls = false /\
       st' = mkSt (update (files stL) outPath None)
               (log stL ++ [ARm outPath;
                            AEvent (mkEvent ESkip (rel item) (Some (id chunk))
                                      (Some ("Failed after " ++ Js.num_to_string (maxFixLoops opts)
                                             ++ " attempts: " ++ summarizeFailure (finalFailure ls))%string))])))).
Proof.
  intros H key outPath startEv.
  unfold processChunk in H. fold key in H. fold outPath in H.
  destruct (resume_has (resume opts) key) eqn:Hr.
  - left. unfold ret in H. split; [reflexivity|congruence].
  - right. unfold bind, emit, mkdir, record in H. cbn beta iota zeta in H.
    destruct (force opts) eqn:Hf.
    + right. split; [reflexivity|].
      unfold ret in H. cbn [files log] in H. cbn beta iota in H.
      loop_tail.
    + unfold access, record in H. cbn [files log] in H. cbn beta iota zeta in H.
      destruct (files st outPath) as [c|] eqn:Hfs; cbn beta iota in H.
      * left. split; [reflexivity|]. split; [reflexivity|]. split; [exists c; reflexivity|].
        inversion H; subst. cbn. rewrite <- !app_assoc. reflexivity.
      * right. split; [reflexivity|].
        loop_tail.
Qed.


Lemma str_length_append (a b : string) :
  String.length (a ++ b) = (String.length a + String.length b)%nat.
Proof. induction a as [|c a IH]; simpl; [reflexivity|rewrite IH; reflexivity]. Qed.

Lemma substring_length_le (s : string) : forall n m,
  (String.length (substring n m s) <= m)%nat.
Proof.
  induction s as [|c s IH]; intros n m; destruct n as [|n], m as [|m]; simpl; try lia;
    try (specialize (IH 0%nat m); lia); apply IH.
Qed.

Lemma summarizeFailure_len (t : string) : Js.len (summarizeFailure t) <= 160.
Proof.
  unfold summarizeFailure. destruct (String.eqb t "").
  - unfold Js.len. simpl. lia.
  - cbn zeta. match goal with |- context [if 160 <? Js.len ?sn then _ else _] => set (snippet := sn) end.
    destruct (160 <? Js.len snippet) eqn:Hlt.
    + unfold Js.len, Js.slice. rewrite str_length_append.
      pose proof (substring_length_le snippet (Z.to_nat 0) (Z.to_nat (157 - 0))).
      unfold ellipsis. simpl String.length at 2. lia.
    + apply Z.ltb_ge in Hlt. exact Hlt.
Qed.

Lemma app_inv_log (l new : list Action) : l = l ++ new -> new = [].
Proof. intros H. apply (app_inv_head l). rewrite app_nil_r. symmetry. exact H. Qed.

(** With a backend and a runner that always resolve, a chunk of the basic
    generator gets at most [maxFixLoops] backend calls; when none of its attempts succeeds (no 'write' and no 'exists'
    event), the run ends by deleting the destination file and emitting
    'skip' with the length-capped summary of the last attempt's failure. *)
Theorem processChunk_bounded_then_abandons (E : GenEnv) opts plan item chunk st u st' new :
  processChunk E opts plan item chunk st = (u, st') ->
  log st' = log st ++ new ->
  (count_calls new <= Z.to_nat (maxFixLoops opts))%nat /\
  (resume_has (resume opts) (chunkKey (rel item) (Some (id chunk))) = false ->
   (forall e, In (AEvent e) new -> etype e <> EWrite /\ etype e <> EExists) ->
   let outPath := resolveOutPath (projectRoot opts) (outDir opts) (rel item) in
   let lastFailure := match last_response new with
                      | Some raw => attemptFailure E outPath raw
                      | None => "Model returned no code"%string
                      end in
   (exists pre, new = pre ++ [ARm outPath;
                              AEvent (mkEvent ESkip (rel item) (Some (id chunk))
                                        (Some ("Failed after " ++ Js.num_to_string (maxFixLoops opts)
                                               ++ " attempts: " ++ summarizeFailure lastFailure)%string))]) /\
   Js.len (summarizeFailure lastFailure) <= 160 /\
   files st' outPath = None).
Proof.
  intros H Hlog.
  destruct (processChunk_cases E opts plan item chunk st u st' H)
    as [[Hr Hst] | [[Hr [Hf [[c Hc] Hst]]] | [Hr (cfp & ls & stL & Hfo & Ha & Hend)]]].
  - subst st'. apply app_inv_log in Hlog. subst new. split; [apply Nat.le_0_l|].
    intros Hr'. congruence.
  - subst st'. cbn [log] in Hlog. apply app_inv_head in Hlog. subst new.
    split; [apply Nat.le_0_l|].
    intros _ Hev. exfalso.
    destruct (Hev _ (or_intror (or_intror (or_intror (or_introl eq_refl))))) as [_ Hx].
    apply Hx. reflexivity.
  - set (outPath := resolveOutPath (projectRoot opts) (outDir opts) (rel item)) in *.
    set (pre := ([AEvent (mkEvent EStart (rel item) (Some (id chunk))
                            (Some (Js.num_to_string (approxTokens chunk))));
                  AMkdir (NodePath.dirname outPath)]
                 ++ (if force opts then [] else [AAccess outPath false]))%list) in *.
    assert (Hpre_calls : count_calls pre = 0%nat) by (subst pre; destruct (force opts); reflexivity).
    assert (Hpre_last : last_response pre = None) by (subst pre; destruct (force opts); reflexivity).
    destruct (attempts_spec E opts plan item chunk _ outPath cfp _ 1 initLoop _ ls stL Ha eq_refl)
      as (newL & HlL & Hcnt & _ & Hno & Hyes).
    cbn [log] in HlL.
    replace (maxFixLoops opts + 1 - 1) with (maxFixLoops opts) in Hcnt by lia.
    destruct Hend as [[Hw Hst] | [Hw Hst]].
    + subst st'. rewrite HlL, <- app_assoc in Hlog. apply app_inv_head in Hlog. subst new.
      split; [rewrite count_calls_app, Hpre_calls; lia|].
      intros _ Hev. exfalso. destruct (Hyes Hw) as (e & Hin & He).
      apply (proj1 (Hev e (in_or_app _ _ _ (or_intror Hin)))). exact He.
    + subst st'. cbn [log files] in Hlog.
      rewrite HlL, <- !app_assoc in Hlog. apply app_inv_head in Hlog. subst new.
      destruct (Hno Hw) as [_ Hff].
      split; [rewrite !count_calls_app, Hpre_calls; simpl; unfold count_calls in *; simpl; lia|].
      intros _ _ outPath' lastFailure.
      assert (Hlf : lastFailure = finalFailure ls).
      { subst lastFailure. rewrite Hff, !last_response_app. cbn [last_response].
        destruct (last_response newL); [reflexivity|].
        rewrite ?Hpre_last; destruct (force opts); reflexivity. }
      rewrite Hlf. split; [|split].
      * exists (pre ++ newL). rewrite <- app_assoc. reflexivity.
      * apply summarizeFailure_len.
      * cbn [files]. unfold update. subst outPath'. rewrite String.eqb_refl. reflexivity.
Qed.

Lemma lf_attempts E opts plan item chunk key outPath cfp :
  forall fuel attempt ls,
  logs_forall (action_scoped key (rel item) (Some (id chunk)) outPath)
    (attempts E opts plan item chunk key outPath cfp fuel attempt ls).
Proof.
  induction fuel as [|fuel IH]; intros attempt ls; simpl.
  - apply lf_ret.
  - repeat (first [apply IH | lf_step]); cbn; repeat split.
Qed.

Lemma lf_processChunk E opts plan item chunk :
  resume_has (resume opts) (chunkKey (rel item) (Some (id chunk))) = false ->
  logs_forall (action_scoped (chunkKey (rel item) (Some (id chunk))) (rel item) (Some (id chunk))
                 (resolveOutPath (projectRoot opts) (outDir opts) (rel item)))
    (processChunk E opts plan item chunk).
Proof.
  intros Hr. unfold processChunk. rewrite Hr. cbv zeta.
  repeat (first [apply lf_attempts | lf_step]); cbn; repeat split.
Qed.

Lemma processChunk_resumed E opts plan item chunk :
  resume_has (resume opts) (chunkKey (rel item) (Some (id chunk))) = true ->
  processChunk E opts plan item chunk = ret tt.
Proof. intros Hr. unfold processChunk. rewrite Hr. reflexivity. Qed.

End GeneratorProofs.

Module AgentProofs.
Import Chunker Planner Effects RunState Agent Observe LogFacts.

Lemma lf_agentLoop E key file chunkId prompt maxSteps outPath :
  forall fuel step obs,
  logs_forall (action_scoped key file chunkId outPath)
    (agentLoop E key file chunkId prompt maxSteps fuel step obs).
Proof.
  induction fuel as [|fuel IH]; intros step obs; simpl.
  - apply lf_ret.
  - repeat (first [apply IH | lf_step]); cbn; repeat split.
Qed.

Lemma lf_agentChunk E opts item chunk :
  Generator.resume_has (a_resume opts) (chunkKey (rel item) (Some (id chunk))) = false ->
  logs_forall (action_scoped (chunkKey (rel item) (Some (id chunk))) (rel item) (Some (id chunk))
                 (resolveOutPath (a_outDir opts) (rel item)))
    (agentChunk E opts item chunk).
Proof.
  intros Hr. unfold agentChunk. rewrite Hr. cbv zeta.
  unfold runAgent, reviewGeneratedTest.
  repeat (first [apply lf_agentLoop | lf_step]); cbn; repeat split.
Qed.

Lemma agentChunk_resumed E opts item chunk :
  Generator.resume_has (a_resume opts) (chunkKey (rel item) (Some (id chunk))) = true ->
  agentChunk E opts item chunk = ret tt.
Proof. intros Hr. unfold agentChunk. rewrite Hr. reflexivity. Qed.

End AgentProofs.

Module ResumeProofs.
Import Chunker Planner Effects RunState Observe LogFacts.

Lemma set_has_false (s : list string) (k : string) : set_has s k = false -> ~ In k s.
Proof.
  unfold set_has. intros H Hin. assert (existsb (String.eqb k) s = true) as Ht.
  { apply existsb_exists. exists k. split; [exact Hin|apply String.eqb_refl]. }
  congruence.
Qed.

Lemma set_has_true (s : list string) (k : string) : In k s -> set_has s k = true.
Proof.
  unfold set_has. intros Hin. apply existsb_exists. exists k. split; [exact Hin|apply String.eqb_refl].
Qed.

Lemma scoped_outside_resume R key file chunkId outPath a :
  ~ In key R -> chunkKey file chunkId = key ->
  action_scoped key file chunkId outPath a -> outside_resume R a.
Proof.
  intros Hk Hkey. destruct a; cbn; try tauto.
  - intros ->. exact Hk.
  - intros [Hf Hc]. unfold event_key. rewrite Hf, Hc, Hkey. exact Hk.
Qed.

Lemma lf_generateTestsForPlan_resume E opts plan R :
  Generator.resume opts = Some R ->
  logs_forall (outside_resume R) (Generator.generateTestsForPlan E opts plan).
Proof.
  intros HR. unfold Generator.generateTestsForPlan. apply lf_mapM_. intros item _.
  unfold Generator.processItem.
  destruct (chunks item) as [|c cs] eqn:Hc.
  - unfold Generator.resume_has. rewrite HR.
    destruct (set_has R (chunkKey (rel item) None)) eqn:Hh; [apply lf_ret|].
    apply lf_emit. cbn. unfold event_key. cbn. apply set_has_false. exact Hh.
  - rewrite <- Hc. apply lf_mapM_. intros chunk _.
    destruct (Generator.resume_has (Generator.resume opts) (chunkKey (rel item) (Some (id chunk)))) eqn:Hh.
    + rewrite GeneratorProofs.processChunk_resumed by exact Hh. apply lf_ret.
    + eapply lf_mono; [|apply GeneratorProofs.lf_processChunk; exact Hh].
      intros a. apply scoped_outside_resume; [|reflexivity].
      unfold Generator.resume_has in Hh. rewrite HR in Hh. apply set_has_false. exact Hh.
Qed.

Lemma lf_generateWithAgent_resume E opts plan R :
  Agent.a_resume opts = Some R ->
  logs_forall (outside_resume R) (Agent.generateWithAgent E opts plan).
Proof.
  intros HR. unfold Agent.generateWithAgent. apply lf_mapM_. intros item _.
  unfold Agent.agentItem.
  destruct (chunks item) as [|c cs] eqn:Hc.
  - unfold Generator.resume_has. rewrite HR.
    destruct (set_has R (chunkKey (rel item) None)) eqn:Hh; [apply lf_ret|].
    apply lf_emit. cbn. unfold event_key. cbn. apply set_has_false. exact Hh.
  - rewrite <- Hc. apply lf_mapM_. intros chunk _.
    destruct (Generator.resume_has (Agent.a_resume opts) (chunkKey (rel item) (Some (id chunk)))) eqn:Hh.
    + rewrite AgentProofs.agentChunk_resumed by exact Hh. apply lf_ret.
    + eapply lf_mono; [|apply AgentProofs.lf_agentChunk; exact Hh].
      intros a. apply scoped_outside_resume; [|reflexivity].
      unfold Generator.resume_has in Hh. rewrite HR in Hh. apply set_has_false. exact Hh.
Qed.

Lemma getCompletedChunkKeys_complete (perFile : list (string * StoredFileState)) k file fs cs :
  In (file, fs) perFile -> In (k, cs) (file_chunks fs) ->
  In (status cs) ["write"; "skip"; "exists"]%string ->
  In k (getCompletedChunkKeys perFile).
Proof.
  intros Hf Hk Hs. unfold getCompletedChunkKeys. apply in_flat_map. exists (file, fs).
  split; [exact Hf|]. apply in_flat_map. exists (k, cs). split; [exact Hk|].
  cbn [fst snd].
  destruct Hs as [<-|[<-|[<-|[]]]]; cbn; left; reflexivity.
Qed.

Lemma logs_forall_new {A} P (m : M A) st a st' new :
  logs_forall P m -> m st = (a, st') -> log st' = log st ++ new -> Forall P new.
Proof.
  intros Hm H Hl. destruct (Hm _ _ _ H) as (n & Hn & Hf).
  rewrite Hl in Hn. apply app_inv_head in Hn. subst. exact Hf.
Qed.

(** C10: a chunk recorded with status 'write', 'skip' or 'exists' is among
    [getCompletedChunkKeys], and when that set is passed as the resume set,
    neither generator makes a backend call or emits an event under its key
    (a chunk abandoned as 'skip' is not re-attempted). *)
Theorem completed_chunks_not_reattempted (perFile : list (string * StoredFileState))
    (k file : string) (fs : StoredFileState) (cs : StoredChunkState) :
  In (file, fs) perFile -> In (k, cs) (file_chunks fs) ->
  In (status cs) ["write"; "skip"; "exists"]%string ->
  In k (getCompletedChunkKeys perFile) /\
  (forall E opts plan st u st' new,
     Generator.resume opts = Some (getCompletedChunkKeys perFile) ->
     Generator.generateTestsForPlan E opts plan st = (u, st') -> log st' = log st ++ new ->
     (forall p r, ~ In (ACall k p r) new) /\ (forall e, In (AEvent e) new -> event_key e <> k)) /\
  (forall E opts plan st u st' new,
     Agent.a_resume opts = Some (getCompletedChunkKeys perFile) ->
     Agent.generateWithAgent E opts plan st = (u, st') -> log st' = log st ++ new ->
     (forall p r, ~ In (ACall k p r) new) /\ (forall e, In (AEvent e) new -> event_key e <> k)).
Proof.
  intros Hf Hk Hs.
  pose proof (getCompletedChunkKeys_complete perFile k file fs cs Hf Hk Hs) as Hin.
  split; [exact Hin|]. split.
  - intros E opts plan st u st' new HR H Hl.
    pose proof (logs_forall_new _ _ _ _ _ _ (lf_generateTestsForPlan_resume E opts plan _ HR) H Hl) as HF.
    rewrite Forall_forall in HF. split.
    + intros p r Hc. exact (HF _ Hc Hin).
    + intros e He Hek. apply (HF _ He). rewrite Hek. exact Hin.
  - intros E opts plan st u st' new HR H Hl.
    pose proof (logs_forall_new _ _ _ _ _ _ (lf_generateWithAgent_resume E opts plan _ HR) H Hl) as HF.
    rewrite Forall_forall in HF. split.
    + intros p r Hc. exact (HF _ Hc Hin).
    + intros e He Hek. apply (HF _ He). rewrite Hek. exact Hin.
Qed.

End ResumeProofs.

Module DestinationProofs.
Import Chunker Planner Effects RunState Observe LogFacts GenInputs.

Ltac in_list := repeat (first [left; reflexivity | right]).

(** C6, counterexample: the two distinct chunks of [src/Big.tsx] resolve
    to the same destination in both paths; in the basic path the first
    chunk writes it and the second one then reports 'exists'. *)
Lemma big_chunks_share_destination :
  big_chunk_a <> big_chunk_b /\
  In big_chunk_a (chunks big_item) /\ In big_chunk_b (chunks big_item) /\
  Generator.resolveOutPath "/proj"%string "out"%string (rel big_item) = big_test_path /\
  Agent.resolveOutPath "out"%string (rel big_item) = big_test_path /\
  In (AWrite big_test_path test_source)
     (log (snd (Generator.generateTestsForPlan passing_env basic_opts big_plan st0))) /\
  In (AAccess big_test_path true)
     (log (snd (Generator.generateTestsForPlan passing_env basic_opts big_plan st0))) /\
  In (AEvent (mkEvent EExists "src/Big.tsx"%string (Some "src/Big.tsx#useToggle"%string) None))
     (log (snd (Generator.generateTestsForPlan passing_env basic_opts big_plan st0))).
Proof.
  split; [discriminate|].
  split; [left; reflexivity|]. split; [right; left; reflexivity|].
  split; [vm_compute; reflexivity|]. split; [vm_compute; reflexivity|].
  split; [|split]; vm_compute; in_list.
Qed.

Lemma touched_scoped key file chunkId outPath a p :
  action_scoped key file chunkId outPath a -> touched_path a = Some p -> p = outPath.
Proof. destruct a; cbn; try discriminate; intros H1 H2; inversion H2; subst; reflexivity. Qed.

(** C6, amended: every file access, write, run or removal made for a chunk
    targets the destination of the chunk's source file, which does not
    depend on the chunk: [resolveOutPath(projectRoot, outDir, rel)] in the
    basic path, [resolveOutPath(outDir, rel)] in the agent path. *)
Theorem chunk_destination_is_file_destination :
  (forall E opts plan item chunk st u st' new,
     Generator.processChunk E opts plan item chunk st = (u, st') -> log st' = log st ++ new ->
     forall a p, In a new -> touched_path a = Some p ->
     p = Generator.resolveOutPath (Generator.projectRoot opts) (Generator.outDir opts) (rel item)) /\
  (forall E opts item chunk st u st' new,
     Agent.agentChunk E opts item chunk st = (u, st') -> log st' = log st ++ new ->
     forall a p, In a new -> touched_path a = Some p ->
     p = Agent.resolveOutPath (Agent.a_outDir opts) (rel item)).
Proof.
  split.
  - intros E opts plan item chunk st u st' new H Hl a p Hin Ht.
    destruct (Generator.resume_has (Generator.resume opts) (chunkKey (rel item) (Some (id chunk)))) eqn:Hr.
    + rewrite GeneratorProofs.processChunk_resumed in H by exact Hr.
      inversion H; subst. apply GeneratorProofs.app_inv_log in Hl. subst new. destruct Hin.
    + pose proof (ResumeProofs.logs_forall_new _ _ _ _ _ _
                    (GeneratorProofs.lf_processChunk E opts plan item chunk Hr) H Hl) as HF.
      rewrite Forall_forall in HF. exact (touched_scoped _ _ _ _ _ _ (HF a Hin) Ht).
  - intros E opts item chunk st u st' new H Hl a p Hin Ht.
    destruct (Generator.resume_has (Agent.a_resume opts) (chunkKey (rel item) (Some (id chunk)))) eqn:Hr.
    + rewrite AgentProofs.agentChunk_resumed in H by exact Hr.
      inversion H; subst. apply GeneratorProofs.app_inv_log in Hl. subst new. destruct Hin.
    + pose proof (ResumeProofs.logs_forall_new _ _ _ _ _ _
                    (AgentProofs.lf_agentChunk E opts item chunk Hr) H Hl) as HF.
      rewrite Forall_forall in HF. exact (touched_scoped _ _ _ _ _ _ (HF a Hin) Ht).
Qed.

End DestinationProofs.

Module AgentFacts.
Import Chunker Planner Effects RunState Json Agent GenInputs.
Local Open Scope string_scope.

Definition button_key : string := chunkKey "src/Big.tsx" (Some "src/Big.tsx#Button").

(** C3: with [force] off and the destination already present, both paths
    leave the file alone and report 'exists'; the basic path checks before
    any backend call, but the agent path has already made its two backend
    calls (planning and test generation) when it checks. *)
Theorem agent_checks_existence_after_backend_calls :
  let stB := snd (Generator.processChunk passing_env basic_opts big_plan big_item big_chunk_a st_existing) in
  let stA := snd (agentChunk (agent_env planning_answers) (agent_opts None) big_item big_chunk_a st_existing) in
  let existsEv := AEvent (mkEvent EExists "src/Big.tsx" (Some "src/Big.tsx#Button") None) in
  count_calls (log stB) = 0%nat /\
  files stB big_test_path = existing_fs big_test_path /\
  In existsEv (log stB) /\
  files stA big_test_path = existing_fs big_test_path /\
  In existsEv (log stA) /\
  (exists pre post, log stA = (pre ++ AAccess big_test_path true :: post)%list /\ count_calls pre = 2%nat).
Proof.
  cbv zeta. split; [vm_compute; reflexivity|].
  split; [vm_compute; reflexivity|].
  split; [vm_compute; DestinationProofs.in_list|].
  split; [vm_compute; reflexivity|].
  split; [vm_compute; DestinationProofs.in_list|].
  exists (firstn 4 (log (snd (agentChunk (agent_env planning_answers) (agent_opts None) big_item big_chunk_a st_existing)))).
  exists (skipn 5 (log (snd (agentChunk (agent_env planning_answers) (agent_opts None) big_item big_chunk_a st_existing)))).
  split; vm_compute; reflexivity.
Qed.

Definition is_tool_event (a : Action) : bool :=
  match a with AEvent e => match etype e with ETool => true | _ => false end | _ => false end.

(** C4: when the step bound is exhausted, [runAgent] resolves (it does not
    reject) with [{ ok: false, plan: [] }] after the allowed tool calls,
    and the orchestrator's resulting event is the same 'skip' with message
    'Empty plan' that a deliberate empty plan produces. *)
Theorem agent_step_limit_reported_as_empty_plan :
  let stuck := agent_env stuck_answers in
  let deliberate := agent_env empty_plan_answers in
  let skipEv := AEvent (mkEvent ESkip "src/Big.tsx" (Some "src/Big.tsx#Button") (Some "Empty plan")) in
  fst (runAgent stuck button_key "src/Big.tsx" (Some "src/Big.tsx#Button") "plan" 2 st0)
    = Ok (mkAgentResult false (Some [])) /\
  fst (runAgent deliberate button_key "src/Big.tsx" (Some "src/Big.tsx#Button") "plan" 2 st0)
    = Ok (mkAgentResult true (Some [])) /\
  length (filter is_tool_event (log (snd (agentChunk stuck (agent_opts (Some 2)) big_item big_chunk_a st0)))) = 2%nat /\
  last (log (snd (agentChunk stuck (agent_opts (Some 2)) big_item big_chunk_a st0))) (AMkdir "") = skipEv /\
  last (log (snd (agentChunk deliberate (agent_opts (Some 2)) big_item big_chunk_a st0))) (AMkdir "") = skipEv.
Proof. cbv zeta. repeat split; vm_compute; reflexivity. Qed.

End AgentFacts.

Module SignatureProofs.
Import Chunker Planner PlanSignature SigInputs.

Lemma nodupb_NoDup (l : list string) : nodupb l = true -> NoDup l.
Proof.
  induction l as [|x r IH]; simpl; intros H; [constructor|].
  apply andb_prop in H as [Hx Hr]. constructor; [|auto].
  intros Hin. apply negb_true_iff in Hx.
  assert (existsb (String.eqb x) r = true) by (apply existsb_exists; exists x; split; [exact Hin | apply String.eqb_refl]).
  congruence.
Qed.

Lemma NoDup_map_inj {A B} (f : A -> B) (l : list A) a b :
  NoDup (map f l) -> In a l -> In b l -> f a = f b -> a = b.
Proof.
  induction l as [|x l IH]; simpl; [tauto|].
  intros Hnd Ha Hb Hf. inversion Hnd as [|? ? Hnot Hnd']; subst.
  destruct Ha as [<-|Ha], Hb as [<-|Hb]; auto.
  - exfalso. apply Hnot. rewrite Hf. now apply in_map.
  - exfalso. apply Hnot. rewrite <- Hf. now apply in_map.
Qed.

Section SortFacts.
Context {A : Type} (key : A -> string) (lc : string -> string -> Z) (K : list string).
Hypothesis Hstrict : strict_on lc K = true.

Lemma strict_total a b :
  In a K -> In b K -> a <> b -> (0 <? lc a b) = negb (0 <? lc b a).
Proof.
  intros Ha Hb Hne. pose proof Hstrict as H. unfold strict_on in H.
  rewrite forallb_forall in H. specialize (H a Ha).
  rewrite forallb_forall in H. specialize (H b Hb).
  apply andb_prop in H as [H _]. apply String.eqb_neq in Hne. rewrite Hne in H.
  simpl in H. destruct (0 <? lc a b), (0 <? lc b a); simpl in *; congruence.
Qed.

Lemma strict_trans a b c :
  In a K -> In b K -> In c K ->
  (0 <? lc a b) = true -> (0 <? lc b c) = true -> (0 <? lc a c) = true.
Proof.
  intros Ha Hb Hc Hab Hbc. pose proof Hstrict as H. unfold strict_on in H.
  rewrite forallb_forall in H. specialize (H a Ha).
  rewrite forallb_forall in H. specialize (H b Hb).
  apply andb_prop in H as [_ H]. rewrite forallb_forall in H. specialize (H c Hc).
  rewrite Hab, Hbc in H. exact H.
Qed.

Lemma insert_perm x (l : list A) :
  Permutation (insert_by (fun a b => lc (key a) (key b)) x l) (x :: l).
Proof.
  induction l as [|y ys IH]; simpl; [auto|].
  destruct (0 <? lc (key y) (key x)); [auto|].
  eapply perm_trans; [apply perm_skip, IH | apply perm_swap].
Qed.

Lemma sort_perm_acc (l acc : list A) :
  Permutation (fold_left (fun acc x => insert_by (fun a b => lc (key a) (key b)) x acc) l acc)
              (l ++ acc).
Proof.
  revert acc. induction l as [|x l IH]; intros acc; simpl; [auto|].
  eapply perm_trans; [apply IH|].
  eapply perm_trans; [apply Permutation_app_head, insert_perm|].
  apply Permutation_sym, Permutation_middle.
Qed.

Lemma sort_perm (l : list A) :
  Permutation (sort_by (fun a b => lc (key a) (key b)) l) l.
Proof.
  unfold sort_by. rewrite <- (app_nil_r l) at 2. apply sort_perm_acc.
Qed.

Lemma insert_sorted x (l : list A) :
  In (key x) K -> Forall (fun y => In (key y) K) l -> ~ In (key x) (map key l) ->
  StronglySorted (fun a b => (0 <? lc (key b) (key a)) = true) l ->
  StronglySorted (fun a b => (0 <? lc (key b) (key a)) = true)
                 (insert_by (fun a b => lc (key a) (key b)) x l).
Proof.
  induction l as [|y ys IH]; simpl; intros Hx HK Hnot Hs.
  - repeat constructor.
  - inversion Hs as [|? ? Hs' Hy]; subst. inversion HK as [|? ? Hky HK']; subst.
    destruct (0 <? lc (key y) (key x)) eqn:E.
    + constructor; [exact Hs|]. constructor; [exact E|].
      rewrite Forall_forall in Hy |- *. rewrite Forall_forall in HK'.
      intros z Hz. apply (strict_trans (key z) (key y) (key x)); auto.
    + constructor.
      * apply IH; auto.
      * apply Forall_forall. intros z Hz.
        apply (Permutation_in _ (insert_perm x ys)) in Hz as [<-|Hz].
        -- rewrite strict_total; auto. now rewrite E.
        -- rewrite Forall_forall in Hy. auto.
Qed.

Lemma sort_sorted_acc (l acc : list A) :
  Forall (fun y => In (key y) K) (l ++ acc) -> NoDup (map key (l ++ acc)) ->
  StronglySorted (fun a b => (0 <? lc (key b) (key a)) = true) acc ->
  StronglySorted (fun a b => (0 <? lc (key b) (key a)) = true)
    (fold_left (fun acc x => insert_by (fun a b => lc (key a) (key b)) x acc) l acc).
Proof.
  revert acc. induction l as [|x l IH]; intros acc HK Hnd Hs; simpl; [exact Hs|].
  assert (P : Permutation (l ++ insert_by (fun a b => lc (key a) (key b)) x acc) ((x :: l) ++ acc)).
  { eapply perm_trans; [apply Permutation_app_head, insert_perm|].
    apply Permutation_sym, Permutation_middle. }
  apply IH.
  - rewrite Forall_forall in HK |- *. intros z Hz. apply HK.
    exact (Permutation_in _ P Hz).
  - apply (Permutation_NoDup (Permutation_sym (Permutation_map key P))). exact Hnd.
  - simpl in HK, Hnd. inversion HK as [|? ? Hx HK']; subst.
    inversion Hnd as [|? ? Hnot _]; subst.
    apply insert_sorted; auto.
    + apply Forall_app in HK' as [_ HK']. exact HK'.
    + intros Hin. apply Hnot. rewrite map_app. apply in_or_app. now right.
Qed.

Lemma sorted_unique (l1 l2 : list A) :
  Forall (fun y => In (key y) K) l1 -> NoDup (map key l1) ->
  StronglySorted (fun a b => (0 <? lc (key b) (key a)) = true) l1 ->
  StronglySorted (fun a b => (0 <? lc (key b) (key a)) = true) l2 ->
  Permutation l1 l2 -> l1 = l2.
Proof.
  revert l2. induction l1 as [|a l1 IH]; intros l2 HK Hnd Hs1 Hs2 Hp.
  - symmetry. now apply Permutation_nil.
  - destruct l2 as [|b l2].
    { apply Permutation_sym, Permutation_nil in Hp. discriminate. }
    assert (Hb : In b (a :: l1)) by (apply (Permutation_in _ (Permutation_sym Hp)); now left).
    assert (Ha : In a (b :: l2)) by (apply (Permutation_in _ Hp); now left).
    destruct (string_dec (key a) (key b)) as [Heq|Hne].
    + assert (a = b) as <- by (apply (NoDup_map_inj key (a :: l1)); auto; now left).
      inversion HK; inversion Hnd; inversion Hs1; inversion Hs2; subst.
      f_equal. apply IH; auto. exact (Permutation_cons_inv Hp).
    + exfalso.
      assert (Hb' : In b l1) by (destruct Hb as [->|Hb]; [congruence | exact Hb]).
      assert (Ha' : In a l2) by (destruct Ha as [->|Ha]; [congruence | exact Ha]).
      inversion Hs1 as [|? ? _ F1]; inversion Hs2 as [|? ? _ F2]; subst.
      rewrite Forall_forall in F1, F2.
      pose proof (F1 b Hb') as E1. pose proof (F2 a Ha') as E2.
      rewrite Forall_forall in HK.
      assert (Ka : In (key a) K) by (apply HK; now left).
      assert (Kb : In (key b) K) by (apply HK; now right).
      rewrite (strict_total (key b) (key a) Kb Ka (not_eq_sym Hne)), E2 in E1.
      discriminate.
Qed.

Lemma sort_by_perm (l1 l2 : list A) :
  Permutation l1 l2 -> Forall (fun y => In (key y) K) l1 -> NoDup (map key l1) ->
  sort_by (fun a b => lc (key a) (key b)) l1 = sort_by (fun a b => lc (key a) (key b)) l2.
Proof.
  intros Hp HK Hnd.
  assert (HK2 : Forall (fun y => In (key y) K) l2).
  { rewrite Forall_forall in HK |- *. intros z Hz. apply HK.
    exact (Permutation_in _ (Permutation_sym Hp) Hz). }
  assert (Hnd2 : NoDup (map key l2)) by exact (Permutation_NoDup (Permutation_map key Hp) Hnd).
  apply sorted_unique.
  - rewrite Forall_forall in HK |- *. intros z Hz. apply HK.
    exact (Permutation_in _ (sort_perm l1) Hz).
  - exact (Permutation_NoDup (Permutation_sym (Permutation_map key (sort_perm l1))) Hnd).
  - unfold sort_by. apply sort_sorted_acc; [now rewrite app_nil_r | now rewrite app_nil_r | constructor].
  - unfold sort_by. apply sort_sorted_acc; [now rewrite app_nil_r | now rewrite app_nil_r | constructor].
  - eapply perm_trans; [apply sort_perm|].
    eapply perm_trans; [exact Hp|]. apply Permutation_sym, sort_perm.
Qed.

End SortFacts.

Lemma sortChunks_reordered lc i j :
  item_reordered i j ->
  nodupb (map id (chunks i)) && strict_on lc (map id (chunks i)) = true ->
  sortChunks lc i = sortChunks lc j.
Proof.
  intros (H1 & H2 & H3 & H4) Hk. apply andb_prop in Hk as [Hnd Hs].
  unfold sortChunks. rewrite H1, H2, H3. f_equal.
  apply (sort_by_perm id lc (map id (chunks i))); auto.
  - apply Forall_forall. intros z Hz. now apply in_map.
  - now apply nodupb_NoDup.
Qed.

Lemma map_sortChunks lc l1 l2 :
  Forall2 item_reordered l1 l2 ->
  forallb (fun it => let ids := map id (chunks it) in nodupb ids && strict_on lc ids) l1 = true ->
  map (sortChunks lc) l1 = map (sortChunks lc) l2.
Proof.
  induction 1 as [|i j l1 l2 Hij _ IH]; simpl; intros Hk; [reflexivity|].
  apply andb_prop in Hk as [Hi Hk]. f_equal; [now apply sortChunks_reordered | now apply IH].
Qed.

Lemma sortedItems_reordered lc p p' :
  plan_reordered p p' -> keys_ordered lc p = true -> sortedItems lc p = sortedItems lc p'.
Proof.
  intros (_ & _ & _ & l & HF & Hp) Hk. unfold keys_ordered in Hk.
  apply andb_prop in Hk as [Hk Hc]. apply andb_prop in Hk as [Hnd Hs].
  unfold sortedItems.
  assert (E : map (sortChunks lc) (items p) = map (sortChunks lc) l) by (now apply map_sortChunks).
  apply (sort_by_perm rel lc (map rel (items p))).
  - exact Hs.
  - rewrite E. now apply Permutation_map.
  - apply Forall_forall. intros z Hz. apply in_map_iff in Hz as (y & <- & Hy).
    unfold sortChunks. simpl. now apply in_map.
  - rewrite map_map. now apply nodupb_NoDup.
Qed.

(** [chunkSource] turns the overload signature and the implementation
    of [parse] into two chunks with the same id. *)
Example overloads_share_chunk_id :
  chunkSource (fun _ => [SFunction (Some "parse"%string) overload_sig_text;
                         SFunction (Some "parse"%string) overload_impl_text])
    "src/over.ts"%string (overload_sig_text ++ " " ++ overload_impl_text)%string 20
  = [overload_sig; overload_impl].
Proof. vm_compute. reflexivity. Qed.

(** Chunks that share an id keep their input order, so the two orders
    of the overload pair hash differently for every [localeCompare] that
    compares a string equal to itself. *)
Lemma dup_ids_order_matters lc :
  lc "src/over.ts#parse"%string "src/over.ts#parse"%string = 0 ->
  sortedItems lc (over_plan [overload_sig; overload_impl])
    = [mkWorkItem "src/over.ts" 900 [overload_sig; overload_impl] None] /\
  sortedItems lc (over_plan [overload_impl; overload_sig])
    = [mkWorkItem "src/over.ts" 900 [overload_impl; overload_sig] None] /\
  computePlanSignature lc (over_plan [overload_sig; overload_impl])
    <> computePlanSignature lc (over_plan [overload_impl; overload_sig]).
Proof.
  intros H.
  assert (E1 : sortedItems lc (over_plan [overload_sig; overload_impl])
               = [mkWorkItem "src/over.ts" 900 [overload_sig; overload_impl] None])
    by (unfold sortedItems, sortChunks, sort_by; simpl; rewrite H; reflexivity).
  assert (E2 : sortedItems lc (over_plan [overload_impl; overload_sig])
               = [mkWorkItem "src/over.ts" 900 [overload_impl; overload_sig] None])
    by (unfold sortedItems, sortChunks, sort_by; simpl; rewrite H; reflexivity).
  split; [exact E1|]. split; [exact E2|].
  unfold computePlanSignature, signatureInput. rewrite E1, E2.
  vm_compute. discriminate.
Qed.

(** Permuting the items, or the chunks within each item, leaves the
    signature unchanged when the item paths are pairwise distinct, the
    chunk ids within each item are pairwise distinct, and [localeCompare]
    strictly orders those keys. *)
Lemma computePlanSignature_reorder_invariant lc p p' :
  plan_reordered p p' -> keys_ordered lc p = true ->
  computePlanSignature lc p = computePlanSignature lc p'.
Proof.
  intros Hr Hk.
  pose proof (sortedItems_reordered lc p p' Hr Hk) as E.
  destruct Hr as (Hf & Hre & Hc & _).
  unfold computePlanSignature, signatureInput. now rewrite E, Hf, Hre, Hc.
Qed.


(** *** Changing one chunk *)

(** [insert_by] and [sort_by] commute with [map]. *)
Lemma insert_by_map {A B} (cmp : A -> A -> Z) (f : B -> A) (x : B) (l : list B) :
  insert_by cmp (f x) (map f l) = map f (insert_by (fun a b => cmp (f a) (f b)) x l).
Proof.
  induction l as [|y l IH]; simpl; [reflexivity|].
  destruct (0 <? cmp (f y) (f x)); simpl; [reflexivity|]. now rewrite IH.
Qed.

Lemma sort_by_map {A B} (cmp : A -> A -> Z) (f : B -> A) (l : list B) :
  sort_by cmp (map f l) = map f (sort_by (fun a b => cmp (f a) (f b)) l).
Proof.
  unfold sort_by.
  assert (H : forall acc, fold_left (fun acc x => insert_by cmp x acc) (map f l) (map f acc)
                          = map f (fold_left (fun acc x => insert_by (fun a b => cmp (f a) (f b)) x acc) l acc)).
  { induction l as [|x l IH]; intros acc; simpl; [reflexivity|].
    rewrite insert_by_map. apply IH. }
  apply (H []).
Qed.

Lemma sort_by_ext {A} (cmp cmp' : A -> A -> Z) (l : list A) :
  (forall a b, cmp a b = cmp' a b) -> sort_by cmp l = sort_by cmp' l.
Proof.
  intros H. unfold sort_by. generalize (@nil A) as acc.
  induction l as [|x l IH]; intros acc; simpl; [reflexivity|].
  replace (insert_by cmp x acc) with (insert_by cmp' x acc); [apply IH|].
  induction acc as [|y acc IHa]; simpl; [reflexivity|]. now rewrite H, IHa.
Qed.

Lemma insert_by_perm {A} (cmp : A -> A -> Z) x l : Permutation (insert_by cmp x l) (x :: l).
Proof.
  induction l as [|y l IH]; simpl; [reflexivity|].
  destruct (0 <? cmp y x); [reflexivity|].
  eapply perm_trans; [apply perm_skip, IH|apply perm_swap].
Qed.

Lemma sort_by_perm_self {A} (cmp : A -> A -> Z) l : Permutation (sort_by cmp l) l.
Proof.
  unfold sort_by. assert (H : forall acc, Permutation (fold_left (fun acc x => insert_by cmp x acc) l acc) (acc ++ l)).
  { induction l as [|x l IH]; intros acc; simpl; [now rewrite app_nil_r|].
    eapply perm_trans; [apply IH|]. replace (acc ++ x :: l)%list with ((acc ++ [x]) ++ l)%list
      by (rewrite <- app_assoc; reflexivity).
    apply Permutation_app_tail. eapply perm_trans; [apply insert_by_perm|].
    apply Permutation_cons_append. }
  apply H.
Qed.

Lemma all_some {A} (d : A) (s : list (option A)) :
  (forall o, In o s -> o <> None) -> s = map Some (map (fun o => match o with Some y => y | None => d end) s).
Proof.
  induction s as [|o s IH]; intros H; simpl; [reflexivity|].
  destruct o as [y|]; [|exfalso; apply (H None); [left|]; reflexivity].
  f_equal. apply IH. intros o Ho. apply H. right. exact Ho.
Qed.

Lemma map_some_id {A} (d : A) (l : list A) :
  map (fun o => match o with Some y => y | None => d end) (map Some l) = l.
Proof. induction l as [|y l IH]; simpl; [reflexivity|]. now rewrite IH. Qed.

(** Replacing one element by another the comparator cannot tell apart
    replaces it at the same place of the sorted list. *)
Lemma sort_by_replace {A} (cmp : A -> A -> Z) (a b : list A) (x x' : A) :
  (forall y, cmp x y = cmp x' y) -> (forall y, cmp y x = cmp y x') -> cmp x x = cmp x' x' ->
  exists a' b', sort_by cmp (a ++ x :: b) = a' ++ x :: b' /\ sort_by cmp (a ++ x' :: b) = a' ++ x' :: b'.
Proof.
  intros H1 H2 H3.
  set (f := fun o : option A => match o with Some y => y | None => x end).
  set (f' := fun o : option A => match o with Some y => y | None => x' end).
  set (t := (map Some a ++ None :: map Some b)%list).
  assert (Ht : a ++ x :: b = map f t /\ a ++ x' :: b = map f' t).
  { subst t. rewrite !map_app, !map_map. cbn [map]. rewrite !map_map. simpl. rewrite !map_id. split; reflexivity. }
  destruct Ht as [-> ->]. rewrite !sort_by_map.
  assert (Hc : forall o1 o2, cmp (f o1) (f o2) = cmp (f' o1) (f' o2)).
  { intros [y1|] [y2|]; simpl; auto. }
  rewrite (sort_by_ext (fun o1 o2 => cmp (f' o1) (f' o2)) (fun o1 o2 => cmp (f o1) (f o2))) by (intros; symmetry; apply Hc).
  set (srt := sort_by _ t).
  assert (Hp : Permutation t srt) by (symmetry; apply sort_by_perm_self).
  assert (Hin : In None srt) by (apply (Permutation_in _ Hp); subst t; apply in_or_app; right; left; reflexivity).
  apply in_split in Hin as (s1 & s2 & Hs).
  rewrite Hs in Hp. subst t. apply Permutation_app_inv in Hp.
  assert (Hsome : forall o, In o (s1 ++ s2) -> o <> None).
  { intros o Ho. apply (Permutation_in _ (Permutation_sym Hp)) in Ho.
    rewrite <- map_app in Ho. apply in_map_iff in Ho as (y & <- & _). discriminate. }
  rewrite (all_some x s1), (all_some x s2) in Hs
    by (intros o Ho; apply Hsome, in_or_app; auto).
  rewrite Hs.
  generalize (map (fun o => match o with Some y => y | None => x end) s1) as A1.
  generalize (map (fun o => match o with Some y => y | None => x end) s2) as B1.
  intros B1 A1. subst f f'. rewrite !map_app. cbn [map]. rewrite !map_some_id.
  exists A1, B1. split; reflexivity.
Qed.

Lemma hashChunk_app h c : hashChunk h c = (h ++ hashChunk [] c)%list.
Proof. unfold hashChunk, Sha1.update. simpl. now rewrite !app_assoc. Qed.

Lemma fold_hashChunk_app l h : fold_left hashChunk l h = (h ++ fold_left hashChunk l [])%list.
Proof.
  revert h. induction l as [|c l IH]; intros h; simpl; [now rewrite app_nil_r|].
  rewrite IH, (IH (hashChunk [] c)), hashChunk_app. now rewrite app_assoc.
Qed.

Lemma hashItem_app h it : hashItem h it = (h ++ hashItem [] it)%list.
Proof.
  unfold hashItem, Sha1.update. rewrite fold_hashChunk_app.
  rewrite (fold_hashChunk_app (chunks it) (_ ++ _)%list).
  destruct (skipReason it) as [r|]; [destruct (negb (String.eqb r ""))|]; simpl; now rewrite !app_assoc.
Qed.

Lemma fold_hashItem_app l h : fold_left hashItem l h = (h ++ fold_left hashItem l [])%list.
Proof.
  revert h. induction l as [|it l IH]; intros h; simpl; [now rewrite app_nil_r|].
  rewrite IH, (IH (hashItem [] it)), hashItem_app. now rewrite app_assoc.
Qed.

(** UTF-8 decoding of the bytes [Sha1.utf8] produces. *)
Fixpoint utf8_decode (l : list Z) : list ascii :=
  match l with
  | [] => []
  | b :: r =>
    if b <? 128 then ascii_of_nat (Z.to_nat b) :: utf8_decode r
    else match r with
         | [] => []
         | b2 :: r' => ascii_of_nat (Z.to_nat (Z.lor (Z.shiftl (Z.land b 31) 6) (Z.land b2 63)))
                        :: utf8_decode r'
         end
  end.

Lemma utf8_decode_char c r :
  utf8_decode ((let n := Js.code c in
                if n <? 128 then [n]
                else [Z.lor 192 (Z.shiftr n 6); Z.lor 128 (Z.land n 63)]) ++ r)%list
  = c :: utf8_decode r.
Proof. destruct c as [[] [] [] [] [] [] [] []]; reflexivity. Qed.

Lemma utf8_inj s t : Sha1.utf8 s = Sha1.utf8 t -> s = t.
Proof.
  intros H.
  assert (D : forall u, utf8_decode (Sha1.utf8 u) = list_ascii_of_string u).
  { induction u as [|c u IH]; [reflexivity|].
    change (Sha1.utf8 (String c u)) with
      ((let n := Js.code c in
        if n <? 128 then [n]
        else [Z.lor 192 (Z.shiftr n 6); Z.lor 128 (Z.land n 63)]) ++ Sha1.utf8 u)%list.
    rewrite utf8_decode_char, IH. reflexivity. }
  rewrite <- (string_of_list_ascii_of_string s), <- (string_of_list_ascii_of_string t).
  now rewrite <- !D, H.
Qed.

Lemma utf8_app s t : Sha1.utf8 (s ++ t) = (Sha1.utf8 s ++ Sha1.utf8 t)%list.
Proof.
  induction s as [|c s IH]; [reflexivity|]. cbn [append].
  change (Sha1.utf8 (String c (s ++ t))) with
    ((let n := Js.code c in
      if n <? 128 then [n]
      else [Z.lor 192 (Z.shiftr n 6); Z.lor 128 (Z.land n 63)]) ++ Sha1.utf8 (s ++ t))%list.
  change (Sha1.utf8 (String c s)) with
    ((let n := Js.code c in
      if n <? 128 then [n]
      else [Z.lor 192 (Z.shiftr n 6); Z.lor 128 (Z.land n 63)]) ++ Sha1.utf8 s)%list.
  rewrite IH, app_assoc. reflexivity.
Qed.

Lemma num_to_string_inj a b : Js.num_to_string a = Js.num_to_string b -> a = b.
Proof.
  unfold Js.num_to_string. intros H.
  apply (f_equal NilEmpty.int_of_string) in H. rewrite !NilEmpty.isi in H.
  injection H as H. now apply DecimalZ.to_int_inj.
Qed.

(** The bytes of a chunk determine its kind and token count. *)
Lemma hashChunk_kind_tokens c c' :
  id c = id c' -> hashChunk [] c = hashChunk [] c' ->
  chunk_kind c = chunk_kind c' /\ approxTokens c = approxTokens c'.
Proof.
  intros Hid H. unfold hashChunk, Sha1.update in H. cbn [app] in H.
  rewrite Hid in H. rewrite <- !app_assoc in H. apply app_inv_head in H.
  rewrite <- !utf8_app in H. apply utf8_inj in H.
  destruct (chunk_kind c), (chunk_kind c'); cbn in H; try discriminate H;
    (split; [reflexivity|]); repeat (injection H as H); apply num_to_string_inj, H.
Qed.

(** Changing the kind or the token count of one chunk, all else fixed,
    changes the bytes fed to SHA-1, for every [localeCompare]. *)
Lemma chunk_replaced_input_changes lc p p' c c' :
  chunk_replaced p p' c c' -> id c' = id c ->
  (chunk_kind c' <> chunk_kind c \/ approxTokens c' <> approxTokens c) ->
  signatureInput lc p <> signatureInput lc p'.
Proof.
  intros (Hf & Hr & Hb & ipre & it & ipost & cpre & cpost & Hp & Hc & Hp') Hid Hne Heq.
  destruct (sort_by_replace (fun a b => lc (id a) (id b)) cpre cpost c c')
    as (CA & CB & E1 & E2); try (intros; simpl; rewrite Hid; reflexivity).
  set (X := sortChunks lc it).
  set (X' := sortChunks lc (mkWorkItem (rel it) (originalTokens it) (cpre ++ c' :: cpost) (skipReason it))).
  destruct (sort_by_replace (fun a b => lc (rel a) (rel b)) (map (sortChunks lc) ipre) (map (sortChunks lc) ipost) X X')
    as (IA & IB & F1 & F2); try (intros; reflexivity).
  unfold signatureInput, sortedItems in Heq. rewrite Hp, Hp', !map_app in Heq. cbn [map] in Heq.
  fold X X' in Heq. rewrite F1, F2, Hf, Hr, Hb in Heq. rewrite !fold_left_app in Heq. cbn [fold_left] in Heq.
  rewrite (fold_hashItem_app IB (hashItem _ X)), (fold_hashItem_app IB (hashItem _ X')) in Heq.
  rewrite (hashItem_app _ X), (hashItem_app _ X') in Heq.
  rewrite <- !app_assoc in Heq. apply app_inv_head in Heq. apply app_inv_tail in Heq.
  subst X X'. unfold sortChunks, hashItem in Heq. cbn [rel originalTokens skipReason chunks] in Heq.
  rewrite Hc in Heq. rewrite E1, E2 in Heq.
  assert (Hl : length (CA ++ c :: CB) = length (CA ++ c' :: CB)) by (rewrite !length_app; reflexivity).
  rewrite Hl in Heq. rewrite fold_hashChunk_app, (fold_hashChunk_app _ (Sha1.update _ _)) in Heq.
  apply app_inv_head in Heq. rewrite !fold_left_app in Heq. cbn [fold_left] in Heq.
  rewrite (fold_hashChunk_app CB (hashChunk _ c)), (fold_hashChunk_app CB (hashChunk _ c')) in Heq.
  rewrite (hashChunk_app _ c), (hashChunk_app _ c') in Heq.
  rewrite <- !app_assoc in Heq. apply app_inv_head in Heq. apply app_inv_tail in Heq.
  destruct (hashChunk_kind_tokens c c' (eq_sym Hid) Heq) as [Hk Ht].
  destruct Hne as [Hne|Hne]; congruence.
Qed.

(** The id part of the claim fails: with ids that contain the [|]
    separator, replacing the id of one chunk leaves the signature
    unchanged, because the chunks are re-sorted by id and the fields are
    joined with [|]. *)
Lemma id_change_same_signature :
  chunk_replaced (pipe_plan [pipe_u; pipe_v]) (pipe_plan [pipe_w; pipe_v]) pipe_u pipe_w /\
  id pipe_w <> id pipe_u /\ chunk_kind pipe_w = chunk_kind pipe_u /\
  approxTokens pipe_w = approxTokens pipe_u /\ code pipe_w = code pipe_u /\
  computePlanSignature codeUnitCompare (pipe_plan [pipe_u; pipe_v])
    = computePlanSignature codeUnitCompare (pipe_plan [pipe_w; pipe_v]).
Proof.
  split.
  { split; [reflexivity|]. split; [reflexivity|]. split; [reflexivity|].
    exists [], (mkWorkItem "src/pipe.ts" 100 [pipe_u; pipe_v] None), [], [], [pipe_v].
    split; [reflexivity|]. split; reflexivity. }
  split; [discriminate|]. split; [reflexivity|]. split; [reflexivity|]. split; [reflexivity|].
  assert (E : signatureInput codeUnitCompare (pipe_plan [pipe_u; pipe_v])
             = signatureInput codeUnitCompare (pipe_plan [pipe_w; pipe_v])) by (vm_compute; reflexivity).
  unfold computePlanSignature. rewrite E. reflexivity.
Qed.



End SignatureProofs.

Module RunStateProofs.
Import Json RunState SigInputs.

Lemma js_get_truthy v k : truthy (Some v) = true -> js_get v k = Ok (get v k).
Proof. destruct v; simpl; congruence. Qed.

Lemma isStateCompatible_mismatch state signature mode totalChunks :
  json_eqb_str (get state "planSignature") signature = false
  \/ json_eqb_str (get state "mode") mode = false
  \/ json_eqb_num (get_opt (get state "totals") "totalChunks") totalChunks = false ->
  isStateCompatible state signature mode totalChunks = Ok false.
Proof.
  intros H. unfold isStateCompatible.
  destruct (truthy (Some state)) eqn:T; [|reflexivity]. simpl.
  rewrite js_get_truthy by exact T. simpl.
  destruct (json_eqb_num (get state "version") 1); [|reflexivity]. simpl.
  rewrite js_get_truthy by exact T. simpl.
  destruct (json_eqb_str (get state "planSignature") signature) eqn:E1; [|reflexivity]. simpl.
  rewrite js_get_truthy by exact T. simpl.
  destruct (json_eqb_str (get state "mode") mode) eqn:E2; [|reflexivity]. simpl.
  rewrite js_get_truthy by exact T. simpl.
  destruct (truthy (get state "totals")); [|reflexivity]. simpl.
  destruct (json_eqb_num (get_opt (get state "totals") "totalChunks") totalChunks) eqn:E3;
    [|reflexivity].
  exfalso. destruct H as [H|[H|H]]; congruence.
Qed.

Lemma loadRunState_parsed data parse p :
  parse data = Some p ->
  loadRunState (Ok data) parse = if json_eqb_num (get p "version") 1 then Ok (Some p) else Ok None.
Proof.
  intros Hp. unfold loadRunState. cbn [bind_r]. rewrite Hp. cbn [bind_r].
  destruct (truthy (Some p)) eqn:T.
  - rewrite js_get_truthy by exact T. cbn [bind_r].
    destruct (json_eqb_num (get p "version") 1); reflexivity.
  - destruct p; simpl in T; try discriminate; reflexivity.
Qed.

(** C9: [loadRunState] never throws, whatever the outcome of the read and
    of [JSON.parse]. A read error (ENOENT or any other), text that does not
    parse, and a document whose [version] is not [1] all give [null]; a
    loaded state always has version [1]. A loaded state whose
    [planSignature], [mode] or [totals.totalChunks] differs from the
    current plan is discarded: nothing is resumed and the state file is
    removed. *)
Theorem loadRunState_total_and_mismatch_discarded
    (readResult : result string) (parse : string -> option json)
    (state : json) (signature mode : string) (totalChunks : Z) (continueRun : bool) :
  (exists r, loadRunState readResult parse = Ok r)
  /\ (forall e, readResult = Throw e -> loadRunState readResult parse = Ok None)
  /\ (forall data, readResult = Ok data -> parse data = None ->
        loadRunState readResult parse = Ok None)
  /\ (forall data p, readResult = Ok data -> parse data = Some p ->
        json_eqb_num (get p "version") 1 = false -> loadRunState readResult parse = Ok None)
  /\ (forall p, loadRunState readResult parse = Ok (Some p) ->
        json_eqb_num (get p "version") 1 = true)
  /\ (json_eqb_str (get state "planSignature") signature = false
      \/ json_eqb_str (get state "mode") mode = false
      \/ json_eqb_num (get_opt (get state "totals") "totalChunks") totalChunks = false ->
      chooseRunState (Some state) signature mode totalChunks continueRun = (None, true)).
Proof.
  assert (Hthrow : forall e, loadRunState (Throw e) parse = Ok None).
  { intros [[c|]| |]; unfold loadRunState; simpl; try reflexivity.
    destruct (String.eqb c "ENOENT"); reflexivity. }
  assert (Hnone : forall data, parse data = None -> loadRunState (Ok data) parse = Ok None).
  { intros data H. unfold loadRunState. simpl. rewrite H. reflexivity. }
  split; [|split; [|split; [|split; [|split]]]].
  - destruct readResult as [data|e]; [|eexists; apply Hthrow].
    destruct (parse data) as [p|] eqn:Hp; [|eexists; now apply Hnone].
    rewrite (loadRunState_parsed data parse p Hp).
    destruct (json_eqb_num (get p "version") 1); eexists; reflexivity.
  - intros e ->. apply Hthrow.
  - intros data -> H. now apply Hnone.
  - intros data p -> Hp Hv. rewrite (loadRunState_parsed data parse p Hp), Hv. reflexivity.
  - intros p Hl. destruct readResult as [data|e]; [|rewrite Hthrow in Hl; discriminate].
    destruct (parse data) as [p'|] eqn:Hp; [|rewrite Hnone in Hl by exact Hp; discriminate].
    rewrite (loadRunState_parsed data parse p' Hp) in Hl.
    destruct (json_eqb_num (get p' "version") 1) eqn:Hv; [|discriminate].
    injection Hl as <-. exact Hv.
  - intros H. unfold chooseRunState.
    rewrite (isStateCompatible_mismatch state signature mode totalChunks H). reflexivity.
Qed.

End RunStateProofs.

Module Witnesses.
Import Chunker Planner Effects RunState Observe GenInputs.

Ltac no_write_or_exists :=
  let e := fresh "e" in let Hin := fresh "Hin" in
  intros e Hin; vm_compute in Hin;
  repeat (destruct Hin as [Hin|Hin]; [first [discriminate Hin | injection Hin as <-; split; discriminate]|]);
  contradiction.

Lemma processChunk_bounded_then_abandons_witness :
  (count_calls (log (snd (Generator.processChunk failing_env basic_opts big_plan big_item big_chunk_a st0)))
     <= Z.to_nat (Generator.maxFixLoops basic_opts))%nat /\
  files (snd (Generator.processChunk failing_env basic_opts big_plan big_item big_chunk_a st0))
    (Generator.resolveOutPath (Generator.projectRoot basic_opts) (Generator.outDir basic_opts) (rel big_item))
    = None.
Proof.
  destruct (GeneratorProofs.processChunk_bounded_then_abandons failing_env basic_opts big_plan big_item
              big_chunk_a st0 tt
              (snd (Generator.processChunk failing_env basic_opts big_plan big_item big_chunk_a st0))
              (log (snd (Generator.processChunk failing_env basic_opts big_plan big_item big_chunk_a st0)))
              ltac:(vm_compute; reflexivity) eq_refl) as [Hb Hab].
  split; [exact Hb|].
  destruct (Hab ltac:(vm_compute; reflexivity) ltac:(no_write_or_exists)) as (_ & _ & Hf).
  exact Hf.
Defined.

Lemma chunk_destination_is_file_destination_witness :
  Forall (fun a => touched_path a = None \/
                   touched_path a = Some (Generator.resolveOutPath "/proj"%string "out"%string (rel big_item)))
    (log (snd (Generator.processChunk passing_env basic_opts big_plan big_item big_chunk_b st0))).
Proof.
  apply Forall_forall. intros a Hin.
  destruct (touched_path a) as [p|] eqn:Ht; [right|left; reflexivity].
  f_equal.
  exact (proj1 DestinationProofs.chunk_destination_is_file_destination passing_env basic_opts big_plan
           big_item big_chunk_b st0 tt
           (snd (Generator.processChunk passing_env basic_opts big_plan big_item big_chunk_b st0))
           (log (snd (Generator.processChunk passing_env basic_opts big_plan big_item big_chunk_b st0)))
           ltac:(vm_compute; reflexivity) eq_refl a p Hin Ht).
Defined.

Lemma completed_chunks_not_reattempted_witness :
  In "src/Big.tsx::src/Big.tsx#Button"%string (getCompletedChunkKeys skipped_state) /\
  ~ (exists p r, In (ACall "src/Big.tsx::src/Big.tsx#Button"%string p r)
                   (log (snd (Generator.generateTestsForPlan failing_env resumed_opts big_plan st0)))).
Proof.
  destruct (ResumeProofs.completed_chunks_not_reattempted skipped_state
              "src/Big.tsx::src/Big.tsx#Button"%string "src/Big.tsx"%string
              (RunState.mkStoredFileState "skip"
                 [("src/Big.tsx::src/Big.tsx#Button"%string,
                   RunState.mkStoredChunkState "skip" (Some "Failed after 2 attempts: FAIL"%string))])
              (RunState.mkStoredChunkState "skip" (Some "Failed after 2 attempts: FAIL"%string))
              ltac:(left; reflexivity) ltac:(left; reflexivity) ltac:(right; left; reflexivity))
    as (Hin & Hbasic & _).
  split; [exact Hin|].
  intros (p & r & Hc).
  exact (proj1 (Hbasic failing_env resumed_opts big_plan st0 tt
                  (snd (Generator.generateTestsForPlan failing_env resumed_opts big_plan st0))
                  (log (snd (Generator.generateTestsForPlan failing_env resumed_opts big_plan st0)))
                  eq_refl ltac:(vm_compute; reflexivity) eq_refl) p r Hc).
Defined.


Lemma loadRunState_total_and_mismatch_discarded_witness :
  RunState.loadRunState (Json.Throw (Json.ExnFs (Some "ENOENT"%string))) SigInputs.parse_state
    = Json.Ok None /\
  RunState.loadRunState (Json.Ok "{"%string) SigInputs.parse_state = Json.Ok None /\
  RunState.loadRunState (Json.Ok "null"%string) SigInputs.parse_state = Json.Ok None /\
  RunState.chooseRunState (Some SigInputs.stale_state) "ffff0000"%string "basic"%string 2 true
    = (None, true).
Proof.
  destruct (RunStateProofs.loadRunState_total_and_mismatch_discarded
              (Json.Ok "null"%string) SigInputs.parse_state SigInputs.stale_state
              "ffff0000"%string "basic"%string 2 true) as (_ & _ & _ & Hv & _ & Hc).
  destruct (RunStateProofs.loadRunState_total_and_mismatch_discarded
              (Json.Throw (Json.ExnFs (Some "ENOENT"%string))) SigInputs.parse_state
              SigInputs.stale_state "ffff0000"%string "basic"%string 2 true)
    as (_ & He & _).
  destruct (RunStateProofs.loadRunState_total_and_mismatch_discarded
              (Json.Ok "{"%string) SigInputs.parse_state SigInputs.stale_state
              "ffff0000"%string "basic"%string 2 true) as (_ & _ & Hp & _).
  split; [apply (He (Json.ExnFs (Some "ENOENT"%string))); reflexivity|].
  split; [apply (Hp "{"%string); reflexivity|].
  split; [apply (Hv "null"%string Json.JNull); reflexivity|].
  apply Hc. left. reflexivity.
Defined.

End Witnesses.

(* ================================================================== *)
(** ** String facts for the text helpers *)

Module StringFacts.
Import CodeBlocks.

Lemma string_app_assoc (a b c : string) : (a ++ b ++ c)%string = ((a ++ b) ++ c)%string.
Proof. induction a as [|x a IH]; simpl; [reflexivity|rewrite IH; reflexivity]. Qed.

Lemma string_app_nil_r (a : string) : (a ++ EmptyString)%string = a.
Proof. induction a as [|x a IH]; simpl; [reflexivity|rewrite IH; reflexivity]. Qed.

Lemma strip_prefix_app p s : Js.strip_prefix p (p ++ s) = Some s.
Proof. induction p as [|a p IH]; simpl; [reflexivity|rewrite Ascii.eqb_refl; exact IH]. Qed.

Lemma strip_prefix_some p s r : Js.strip_prefix p s = Some r -> s = (p ++ r)%string.
Proof.
  revert s; induction p as [|a p IH]; intros s H; simpl in *.
  - congruence.
  - destruct s as [|b s]; [discriminate|].
    destruct (Ascii.eqb a b) eqn:E; [|discriminate].
    apply Ascii.eqb_eq in E; subst. f_equal. apply IH, H.
Qed.

Lemma strip_prefix_extend p s r t :
  Js.strip_prefix p s = Some r -> Js.strip_prefix p (s ++ t) = Some (r ++ t)%string.
Proof. intros H. apply strip_prefix_some in H. subst. rewrite <- string_app_assoc. apply strip_prefix_app. Qed.

Lemma skip_while_app f a b : all_chars f a = true -> skip_while f (a ++ b) = skip_while f b.
Proof.
  induction a as [|c a IH]; simpl; [reflexivity|].
  intros H. apply andb_prop in H as [H1 H2]. rewrite H1. exact (IH H2).
Qed.

Lemma search_app_r (at_pos : string -> bool) a b :
  Js.search at_pos b = true -> Js.search at_pos (a ++ b) = true.
Proof. induction a as [|c a IH]; simpl; [auto|intros H; rewrite (IH H); apply orb_true_r]. Qed.

Lemma search_tail (at_pos : string -> bool) c s :
  Js.search at_pos (String c s) = false -> Js.search at_pos s = false.
Proof. simpl. intros H. apply orb_false_elim in H. apply H. Qed.

Lemma search_app_false (at_pos : string -> bool) a b :
  Js.search at_pos (a ++ b) = false -> Js.search at_pos b = false.
Proof. induction a as [|c a IH]; simpl; [auto|intros H; apply orb_false_elim in H; apply IH, H]. Qed.

Lemma search_head (at_pos : string -> bool) s : Js.search at_pos s = false -> at_pos s = false.
Proof. destruct s; simpl; intros H; apply orb_false_elim in H; apply H. Qed.

Lemma contains_app_l p a b : contains p (a ++ b) = false -> contains p b = false.
Proof. apply search_app_false. Qed.

Lemma contains_head p s : contains p s = false -> Js.strip_prefix p s = None.
Proof.
  intros H. apply search_head in H. destruct (Js.strip_prefix p s); [discriminate|reflexivity].
Qed.

Lemma contains_extend p s t : contains p s = true -> contains p (s ++ t) = true.
Proof.
  unfold contains. induction s as [|c s IH]; simpl.
  - intros H. destruct (Js.strip_prefix p EmptyString) eqn:E; [|discriminate].
    pose proof (strip_prefix_extend _ _ _ t E) as E'. simpl in E'. destruct t; simpl; rewrite E'; reflexivity.
  - intros H. apply orb_prop in H as [H|H].
    + destruct (Js.strip_prefix p (String c s)) eqn:E; [|discriminate].
      pose proof (strip_prefix_extend _ _ _ t E) as E'. simpl in E'. rewrite E'. reflexivity.
    + rewrite (IH H). apply orb_true_r.
Qed.

Lemma contains_infix p a m b : contains p m = true -> contains p (a ++ m ++ b) = true.
Proof. intros H. apply search_app_r. apply contains_extend, H. Qed.

Lemma fence_free_app_l a b : fence_free (a ++ b) = true -> fence_free b = true.
Proof.
  unfold fence_free. intros H. apply negb_true_iff in H. apply negb_true_iff.
  exact (contains_app_l _ _ _ H).
Qed.

Lemma fence_free_head s : fence_free s = true -> Js.strip_prefix fence s = None.
Proof. unfold fence_free. intros H. apply negb_true_iff in H. apply contains_head, H. Qed.

(** A [```] starting inside a non-empty [u] lies within [u ++ "``"]. *)
Lemma fence_in_prefix u r :
  u <> EmptyString -> Js.strip_prefix fence (u ++ fence ++ r) <> None ->
  Js.strip_prefix fence (u ++ "``") <> None.
Proof.
  intros Hu. destruct u as [|a u]; [congruence|]. unfold fence. cbn [Js.strip_prefix append].
  destruct (Ascii.eqb "`" a) eqn:Ea; [apply Ascii.eqb_eq in Ea; subst a|intros H; congruence].
  destruct u as [|b u]; cbn [Js.strip_prefix append]; [intros _; discriminate|].
  destruct (Ascii.eqb "`" b) eqn:Eb; [apply Ascii.eqb_eq in Eb; subst b|intros H; congruence].
  destruct u as [|c u]; cbn [Js.strip_prefix append]; [intros _; discriminate|].
  destruct (Ascii.eqb "`" c) eqn:Ec; [intros _; discriminate|intros H; congruence].
Qed.

Lemma upto_fence_unfold s :
  upto_fence s = match Js.strip_prefix fence s with
                 | Some _ => Some EmptyString
                 | None => match s with
                           | String c s' => option_map (String c) (upto_fence s')
                           | EmptyString => None
                           end
                 end.
Proof. destruct s; reflexivity. Qed.

Lemma upto_fence_app body post :
  fence_free (body ++ "``") = true -> upto_fence (body ++ fence ++ post) = Some body.
Proof.
  induction body as [|c body IH]; intros H.
  - rewrite upto_fence_unfold. cbn [append]. rewrite strip_prefix_app. reflexivity.
  - assert (Hn : Js.strip_prefix fence (String c body ++ fence ++ post) = None).
    { destruct (Js.strip_prefix fence (String c body ++ fence ++ post)) eqn:E; [|reflexivity].
      exfalso. apply (fence_in_prefix (String c body) post); [discriminate| rewrite E; discriminate |].
      apply fence_free_head, H. }
    rewrite upto_fence_unfold, Hn. cbn [append].
    rewrite IH; [reflexivity|].
    exact (fence_free_app_l (String c EmptyString) _ H).
Qed.

(** Start positions inside [a] where [at_pos] fails do not change the
    first match. *)
Lemma first_match_app (at_pos : string -> option string) (a b : string) :
  (forall v u, a = (v ++ u)%string -> u <> EmptyString -> at_pos (u ++ b)%string = None) ->
  first_match at_pos (a ++ b) = first_match at_pos b.
Proof.
  induction a as [|c a IH]; intros H; [reflexivity|].
  pose proof (H EmptyString (String c a) eq_refl ltac:(discriminate)) as H0. cbn [append] in H0. cbn [append first_match].
  rewrite H0. apply IH. intros v u -> Hu. apply (H (String c v) u eq_refl Hu).
Qed.

(** Each pattern needs [```] where it starts. *)
Definition needs_fence (at_pos : string -> option string) : Prop :=
  forall s, Js.strip_prefix fence s = None -> at_pos s = None.

Lemma fenced_at_needs : needs_fence fenced_at.
Proof. intros s H. unfold fenced_at. rewrite H. reflexivity. Qed.

Lemma inline_at_needs : needs_fence inline_at.
Proof. intros s H. unfold inline_at. rewrite H. reflexivity. Qed.

Lemma agent_fenced_at_needs : needs_fence agent_fenced_at.
Proof. intros s H. unfold agent_fenced_at. rewrite H. reflexivity. Qed.

Lemma first_match_fence_free (at_pos : string -> option string) pre r :
  needs_fence at_pos -> fence_free (pre ++ "``") = true ->
  first_match at_pos (pre ++ fence ++ r) = first_match at_pos (fence ++ r).
Proof.
  intros Hat Hf. apply first_match_app. intros v u -> Hu. apply Hat.
  destruct (Js.strip_prefix fence (u ++ fence ++ r)) eqn:E; [|reflexivity].
  exfalso. apply (fence_in_prefix u r Hu); [rewrite E; discriminate|].
  apply fence_free_head. rewrite <- string_app_assoc in Hf. exact (fence_free_app_l _ _ Hf).
Qed.

Lemma first_match_hit (at_pos : string -> option string) s m :
  at_pos s = Some m -> first_match at_pos s = Some m.
Proof. intros H. destruct s; simpl; rewrite H; reflexivity. Qed.

(** [trim] and the white-space helpers. *)
Lemma rev_string_app a b : Js.rev_string (a ++ b) = (Js.rev_string b ++ Js.rev_string a)%string.
Proof.
  induction a as [|c a IH]; simpl.
  - rewrite string_app_nil_r. reflexivity.
  - rewrite IH. symmetry. apply string_app_assoc.
Qed.

Lemma rev_string_involutive s : Js.rev_string (Js.rev_string s) = s.
Proof. induction s as [|c s IH]; simpl; [reflexivity|]. rewrite rev_string_app, IH. reflexivity. Qed.

Lemma rev_string_length s : String.length (Js.rev_string s) = String.length s.
Proof.
  induction s as [|c s IH]; simpl; [reflexivity|].
  rewrite GeneratorProofs.str_length_append, IH. simpl. lia.
Qed.

Lemma skip_spaces_suffix s : exists a, s = (a ++ Js.skip_spaces s)%string.
Proof.
  induction s as [|c s [a IH]]; simpl; [exists EmptyString; reflexivity|].
  destruct (Js.is_space c); [exists (String c a); simpl; f_equal; exact IH|].
  exists EmptyString; reflexivity.
Qed.

Lemma skip_spaces_head s : Js.starts_with_char Js.is_space (Js.skip_spaces s) = false.
Proof.
  induction s as [|c s IH]; simpl; [reflexivity|].
  destruct (Js.is_space c) eqn:E; [exact IH|simpl; exact E].
Qed.

Lemma trim_infix s : exists a b, s = (a ++ Js.trim s ++ b)%string.
Proof.
  destruct (skip_spaces_suffix s) as [a Ha].
  destruct (skip_spaces_suffix (Js.rev_string (Js.skip_spaces s))) as [b Hb].
  exists a, (Js.rev_string b). unfold Js.trim.
  assert (Ht : Js.skip_spaces s
               = (Js.rev_string (Js.skip_spaces (Js.rev_string (Js.skip_spaces s))) ++ Js.rev_string b)%string).
  { rewrite <- rev_string_app, <- Hb, rev_string_involutive. reflexivity. }
  rewrite <- Ht. exact Ha.
Qed.

Lemma trim_length s : (String.length (Js.trim s) <= String.length s)%nat.
Proof.
  destruct (trim_infix s) as [a [b H]].
  rewrite H at 2. rewrite !GeneratorProofs.str_length_append. lia.
Qed.

Lemma starts_with_app f p q :
  p <> EmptyString -> Js.starts_with_char f (p ++ q) = Js.starts_with_char f p.
Proof. destruct p; [congruence|reflexivity]. Qed.

Lemma trim_head s : Js.starts_with_char Js.is_space (Js.trim s) = false.
Proof.
  destruct (Js.trim s) eqn:T; [reflexivity|].
  unfold Js.trim in T.
  destruct (skip_spaces_suffix (Js.rev_string (Js.skip_spaces s))) as [b Hb].
  assert (Ht : Js.skip_spaces s = (String a s0 ++ Js.rev_string b)%string).
  { rewrite <- T, <- rev_string_app, <- Hb, rev_string_involutive. reflexivity. }
  pose proof (skip_spaces_head s) as H. rewrite Ht in H. exact H.
Qed.

Lemma trim_last s : Js.starts_with_char Js.is_space (Js.rev_string (Js.trim s)) = false.
Proof. unfold Js.trim. rewrite rev_string_involutive. apply skip_spaces_head. Qed.

Lemma substring0_prefix s k : exists t, s = (substring 0 k s ++ t)%string.
Proof.
  revert k; induction s as [|c s IH]; intros k; destruct k as [|k]; simpl.
  - exists EmptyString; reflexivity.
  - exists EmptyString; reflexivity.
  - exists (String c s); reflexivity.
  - destruct (IH k) as [t Ht]. exists t. simpl. f_equal. exact Ht.
Qed.

Lemma substring0_length s k : (String.length (substring 0 k s) <= String.length s)%nat.
Proof.
  destruct (substring0_prefix s k) as [t Ht]. rewrite Ht at 2.
  rewrite GeneratorProofs.str_length_append. lia.
Qed.

End StringFacts.

(* ================================================================== *)
(** ** [extractCodeBlock] and [slimCode] *)

Module CodeBlockProofs.
Import CodeBlocks StringFacts.

Lemma all_letters_lang c : is_letter c = true -> is_lang_char c = true.
Proof. unfold is_letter, is_lang_char. intros H. rewrite H. reflexivity. Qed.

Lemma extract_fence_capture pre lang nl body post :
  fence_free (pre ++ "``") = true ->
  all_chars is_lang_char lang = true ->
  (nl = lf \/ nl = crlf) ->
  fence_free (body ++ "``") = true ->
  extractCodeBlock (pre ++ fence ++ lang ++ nl ++ body ++ fence ++ post) = Some (Js.trim body).
Proof.
  intros Hpre Hlang Hnl Hbody. unfold extractCodeBlock.
  rewrite (first_match_fence_free _ _ _ fenced_at_needs Hpre).
  rewrite (first_match_hit _ _ body); [reflexivity|].
  unfold fenced_at. rewrite strip_prefix_app, skip_while_app by exact Hlang.
  destruct Hnl as [-> | ->]; simpl; apply upto_fence_app, Hbody.
Qed.

Lemma letter_not_tick c : is_letter c = true -> Ascii.eqb "`" c = false.
Proof.
  intros H. destruct (Ascii.eqb "`" c) eqn:E; [|reflexivity].
  apply Ascii.eqb_eq in E. subst c. discriminate.
Qed.

Lemma all_chars_app_r f a b : all_chars f (a ++ b) = true -> all_chars f b = true.
Proof.
  induction a as [|c a IH]; simpl; [auto|].
  intros H. apply andb_prop in H. apply IH, H.
Qed.

Lemma first_match_cons (at_pos : string -> option string) c s :
  at_pos (String c s) = None -> first_match at_pos (String c s) = first_match at_pos s.
Proof. intros H. simpl. rewrite H. reflexivity. Qed.

Lemma contains_app_r p a b : contains p b = true -> contains p (a ++ b) = true.
Proof. apply search_app_r. Qed.

(** The agent's pattern finds no fence in a CRLF-fenced reply. *)
Lemma agent_no_match_crlf lang body :
  all_chars is_letter lang = true -> fence_free (body ++ "``") = true ->
  first_match agent_fenced_at (fence ++ lang ++ crlf ++ body ++ fence) = None.
Proof.
  intros Hl Hb.
  assert (Hno : forall r, Js.strip_prefix "`" r = None -> agent_fenced_at (String "`" (String "`" r)) = None
                                                    /\ agent_fenced_at (String "`" r) = None).
  { intros r Hr. unfold agent_fenced_at, fence. cbn [Js.strip_prefix].
    rewrite Ascii.eqb_refl.
    destruct r as [|x r]; [split; reflexivity|]. cbn [Js.strip_prefix] in Hr |- *.
    destruct (Ascii.eqb "`" x); [discriminate|]. split; reflexivity. }
  assert (Hr : Js.strip_prefix "`" (lang ++ crlf ++ body ++ fence) = None).
  { destruct lang as [|x lang]; [reflexivity|]. cbn [all_chars] in Hl. apply andb_prop in Hl as [Hx _].
    cbn [append Js.strip_prefix]. rewrite (letter_not_tick _ Hx). reflexivity. }
  destruct (Hno _ Hr) as [H2 H1].
  change (fence ++ lang ++ crlf ++ body ++ fence)%string
    with (String "`" (String "`" (String "`" (lang ++ crlf ++ body ++ fence)))).
  rewrite first_match_cons.
  2:{ change (String "`" (String "`" (String "`" (lang ++ crlf ++ body ++ fence))))
        with (fence ++ lang ++ crlf ++ body ++ fence)%string.
      unfold agent_fenced_at. rewrite strip_prefix_app, skip_while_app by exact Hl. reflexivity. }
  rewrite first_match_cons by exact H2. rewrite first_match_cons by exact H1.
  rewrite first_match_app.
  2:{ intros v u -> Hu. destruct u as [|x u]; [congruence|].
      apply all_chars_app_r in Hl. cbn [all_chars] in Hl. apply andb_prop in Hl as [Hx _].
      unfold agent_fenced_at, fence. cbn [append Js.strip_prefix]. rewrite (letter_not_tick _ Hx). reflexivity. }
  unfold crlf, lf. cbn [append]. rewrite first_match_cons by reflexivity. rewrite first_match_cons by reflexivity.
  rewrite <- (string_app_nil_r fence).
  rewrite (first_match_fence_free _ _ _ agent_fenced_at_needs Hb). reflexivity.
Qed.

(** X: the first fenced block of a reply is what [extractCodeBlock]
    returns, trimmed: for a prefix and a body without [```] (also not
    completed by the next two backquotes), a language tag of
    [[a-zA-Z0-9_-]] and an LF or CRLF line break, the result is the
    trimmed body, whatever follows the closing fence. *)
Theorem extractCodeBlock_first_fence pre lang nl body post :
  fence_free (pre ++ "``") = true ->
  all_chars is_lang_char lang = true ->
  (nl = lf \/ nl = crlf) ->
  fence_free (body ++ "``") = true ->
  extractCodeBlock (pre ++ fence ++ lang ++ nl ++ body ++ fence ++ post) = Some (Js.trim body).
Proof. apply extract_fence_capture. Qed.

(** X: the extractor of [generateAgent.ts] returns the trimmed body of the
    first fenced block when the fence is [```], letters and a line feed,
    under the same conditions on the prefix and the body. *)
Theorem agentExtractCodeBlock_first_fence pre lang body post :
  fence_free (pre ++ "``") = true ->
  all_chars is_letter lang = true ->
  fence_free (body ++ "``") = true ->
  agentExtractCodeBlock (pre ++ fence ++ lang ++ lf ++ body ++ fence ++ post) = Some (Js.trim body).
Proof.
  intros Hpre Hlang Hbody. unfold agentExtractCodeBlock.
  rewrite (first_match_fence_free _ _ _ agent_fenced_at_needs Hpre).
  rewrite (first_match_hit _ _ body); [reflexivity|].
  unfold agent_fenced_at. rewrite strip_prefix_app, skip_while_app by exact Hlang.
  simpl. apply upto_fence_app, Hbody.
Qed.

(** X: on a reply that is one test file in a fence with a CRLF line break,
    the two extractors differ: the generator's returns the trimmed body,
    the agent's finds no fence and returns the whole reply, fences and
    language tag included. *)
Theorem crlf_fence_kept_by_agent lang body :
  all_chars is_letter lang = true ->
  fence_free (body ++ "``") = true ->
  contains "__SKIP__" (fence ++ lang ++ crlf ++ body ++ fence) = false ->
  has_test_call body = true ->
  extractCodeBlock (fence ++ lang ++ crlf ++ body ++ fence) = Some (Js.trim body) /\
  agentExtractCodeBlock (fence ++ lang ++ crlf ++ body ++ fence)
    = Some (Js.trim (fence ++ lang ++ crlf ++ body ++ fence)).
Proof.
  intros Hl Hb Hs Ht. split.
  - rewrite <- (string_app_nil_r fence) at 2.
    apply (extract_fence_capture EmptyString); [reflexivity| | right; reflexivity | exact Hb].
    clear -Hl. induction lang as [|c lang IH]; [reflexivity|].
    cbn [all_chars] in *. apply andb_prop in Hl as [H1 H2]. rewrite all_letters_lang by exact H1. exact (IH H2).
  - unfold agentExtractCodeBlock. rewrite agent_no_match_crlf by assumption. rewrite Hs.
    assert (Hc : forall p, contains p body = true -> contains p (fence ++ lang ++ crlf ++ body ++ fence) = true).
    { intros p Hp. apply contains_app_r, contains_app_r, contains_app_r, contains_extend, Hp. }
    unfold has_test_call in *.
    apply orb_prop in Ht as [Ht|Ht]; [apply orb_prop in Ht as [Ht|Ht]|]; rewrite (Hc _ Ht);
      rewrite ?orb_true_r; reflexivity.
Qed.

Lemma estimateTokens_mono a b : Js.len a <= Js.len b -> Chunker.estimateTokens a <= Chunker.estimateTokens b.
Proof. intros H. unfold Chunker.estimateTokens. apply Z.div_le_mono; lia. Qed.

Lemma len_trim s : Js.len (Js.trim s) <= Js.len s.
Proof. unfold Js.len. pose proof (trim_length s). lia. Qed.

(** X: [slimCode] keeps within its budget: the result is estimated at no
    more than [maxTokens] tokens, or 50 tokens (the 200 characters it always
    keeps) when the budget is smaller. *)
Theorem slimCode_within_budget src maxTokens :
  Chunker.estimateTokens (slimCode src maxTokens) <= Z.max 50 maxTokens.
Proof.
  unfold slimCode.
  set (s := collapse_spaces false _). set (tokens := Chunker.estimateTokens s).
  assert (Hlen0 : 0 <= Js.len s) by (unfold Js.len; lia).
  assert (Ht4 : Js.len s <= 4 * tokens).
  { unfold tokens, Chunker.estimateTokens.
    pose proof (Z.div_mod (Js.len s + 3) 4 ltac:(lia)). pose proof (Z.mod_pos_bound (Js.len s + 3) 4 ltac:(lia)). lia. }
  assert (Ht0 : 0 <= tokens) by (unfold tokens, Chunker.estimateTokens; apply Z.div_pos; lia).
  destruct (maxTokens <? tokens) eqn:Hm.
  - apply Z.ltb_lt in Hm.
    set (keep := Z.max 200 (Js.len s * maxTokens / tokens)).
    assert (Hk : keep <= Z.max 200 (4 * maxTokens)).
    { unfold keep. destruct (Z.eq_dec tokens 0) as [E|E].
      - rewrite E, Z.div_0_r. lia.
      - assert (Js.len s * maxTokens / tokens <= Z.max 0 (4 * maxTokens)).
        { apply Z.div_le_upper_bound; [lia|]. destruct (Z.le_gt_cases maxTokens 0); nia. }
        lia. }
    assert (Hs : Js.len (Js.slice s 0 keep) <= keep).
    { unfold Js.len, Js.slice. pose proof (GeneratorProofs.substring_length_le s (Z.to_nat 0) (Z.to_nat (keep - 0))).
      unfold keep in *. lia. }
    pose proof (len_trim (Js.slice s 0 keep)) as Htr.
    unfold Chunker.estimateTokens.
    set (x := Js.len (Js.trim (Js.slice s 0 keep))).
    assert (4 * ((x + 3) / 4) <= x + 3) by (apply Z.mul_div_le; lia).
    lia.
  - apply Z.ltb_ge in Hm. pose proof (estimateTokens_mono _ _ (len_trim s)). fold tokens in H. lia.
Qed.

Lemma collapse_single b s : single_spaced b (collapse_spaces b s) = true.
Proof.
  revert b; induction s as [|c s IH]; intros b; [reflexivity|]. simpl.
  destruct (Js.is_space c) eqn:E.
  - destruct b; [apply IH|]. simpl. apply IH.
  - simpl. rewrite E. apply IH.
Qed.

Lemma single_spaced_prefix b p q : single_spaced b (p ++ q) = true -> single_spaced b p = true.
Proof.
  revert b; induction p as [|c p IH]; intros b; simpl; [reflexivity|].
  destruct (Js.is_space c).
  - intros H. apply andb_prop in H as [H1 H2]. rewrite H1. apply IH, H2.
  - apply IH.
Qed.

Lemma single_spaced_weaken q : single_spaced true q = true -> single_spaced false q = true.
Proof.
  destruct q as [|c q]; simpl; [auto|]. destruct (Js.is_space c); [|auto].
  rewrite andb_false_r. simpl. discriminate.
Qed.

Lemma single_spaced_suffix b p q : single_spaced b (p ++ q) = true -> single_spaced false q = true.
Proof.
  revert b; induction p as [|c p IH]; intros b; simpl.
  - destruct b; [apply single_spaced_weaken|auto].
  - destruct (Js.is_space c).
    + intros H. apply andb_prop in H as [_ H]. apply (IH _ H).
    + apply IH.
Qed.

(** X: the result of [slimCode] is one line in normal form: each white-space
    character in it is a plain space, no two are adjacent, and it neither
    starts nor ends with white space. *)
Theorem slimCode_single_line src maxTokens :
  single_spaced false (slimCode src maxTokens) = true /\
  Js.starts_with_char Js.is_space (slimCode src maxTokens) = false /\
  Js.starts_with_char Js.is_space (Js.rev_string (slimCode src maxTokens)) = false.
Proof.
  unfold slimCode.
  set (s := collapse_spaces false _).
  match goal with |- context [Js.trim ?x] => set (s' := x) end.
  split; [|split; [apply trim_head|apply trim_last]].
  assert (Hs : single_spaced false s = true) by apply collapse_single.
  assert (Hs' : single_spaced false s' = true).
  { unfold s'. destruct (_ <? _); [|exact Hs].
    unfold Js.slice. destruct (substring0_prefix s (Z.to_nat (Z.max 200 (Js.len s * maxTokens / Chunker.estimateTokens s) - 0))) as [t Ht].
    rewrite Ht in Hs. exact (single_spaced_prefix _ _ _ Hs). }
  destruct (trim_infix s') as [a [b H]].
  rewrite H in Hs'. apply single_spaced_suffix in Hs'. exact (single_spaced_prefix _ _ _ Hs').
Qed.

Lemma extractCodeBlock_first_fence_witness :
  fence_free ("Here is the file:" ++ lf ++ "``")%string = true /\
  all_chars is_lang_char "tsx" = true /\
  (crlf = lf \/ crlf = crlf) /\
  fence_free ("test('a', f);" ++ lf ++ "``")%string = true /\
  extractCodeBlock (("Here is the file:" ++ lf) ++ fence ++ "tsx" ++ crlf ++ ("test('a', f);" ++ lf)
                    ++ fence ++ lf ++ "Done.")%string
    = Some (Js.trim ("test('a', f);" ++ lf)).
Proof.
  assert (H1 : fence_free ("Here is the file:" ++ lf ++ "``")%string = true) by reflexivity.
  assert (H2 : all_chars is_lang_char "tsx" = true) by reflexivity.
  assert (H3 : crlf = lf \/ crlf = crlf) by (right; reflexivity).
  assert (H4 : fence_free ("test('a', f);" ++ lf ++ "``")%string = true) by reflexivity.
  split; [exact H1|]. split; [exact H2|]. split; [exact H3|]. split; [exact H4|].
  apply extractCodeBlock_first_fence; [rewrite <- string_app_assoc; exact H1|exact H2|exact H3|
                                       rewrite <- string_app_assoc; exact H4].
Defined.

Lemma agentExtractCodeBlock_first_fence_witness :
  fence_free ("Plan:" ++ "``")%string = true /\
  all_chars is_letter "ts" = true /\
  fence_free ("it('b', g);" ++ "``")%string = true /\
  agentExtractCodeBlock ("Plan:" ++ fence ++ "ts" ++ lf ++ "it('b', g);" ++ fence ++ "")%string
    = Some (Js.trim "it('b', g);").
Proof.
  assert (H1 : fence_free ("Plan:" ++ "``")%string = true) by reflexivity.
  assert (H2 : all_chars is_letter "ts" = true) by reflexivity.
  assert (H3 : fence_free ("it('b', g);" ++ "``")%string = true) by reflexivity.
  split; [exact H1|]. split; [exact H2|]. split; [exact H3|].
  exact (agentExtractCodeBlock_first_fence "Plan:" "ts" "it('b', g);" "" H1 H2 H3).
Defined.

Lemma crlf_fence_kept_by_agent_witness :
  all_chars is_letter "ts" = true /\
  fence_free ("test('c', h);" ++ crlf ++ "``")%string = true /\
  contains "__SKIP__" (fence ++ "ts" ++ crlf ++ ("test('c', h);" ++ crlf) ++ fence)%string = false /\
  has_test_call ("test('c', h);" ++ crlf)%string = true /\
  extractCodeBlock (fence ++ "ts" ++ crlf ++ ("test('c', h);" ++ crlf) ++ fence)%string
    = Some (Js.trim ("test('c', h);" ++ crlf)%string) /\
  agentExtractCodeBlock (fence ++ "ts" ++ crlf ++ ("test('c', h);" ++ crlf) ++ fence)%string
    = Some (Js.trim (fence ++ "ts" ++ crlf ++ ("test('c', h);" ++ crlf) ++ fence)%string).
Proof.
  assert (H1 : all_chars is_letter "ts" = true) by reflexivity.
  assert (H2 : fence_free ("test('c', h);" ++ crlf ++ "``")%string = true) by reflexivity.
  assert (H3 : contains "__SKIP__" (fence ++ "ts" ++ crlf ++ ("test('c', h);" ++ crlf) ++ fence)%string = false)
    by reflexivity.
  assert (H4 : has_test_call ("test('c', h);" ++ crlf)%string = true) by reflexivity.
  split; [exact H1|]. split; [exact H2|]. split; [exact H3|]. split; [exact H4|].
  apply crlf_fence_kept_by_agent; [exact H1| rewrite <- string_app_assoc; exact H2 | exact H3 | exact H4].
Defined.

End CodeBlockProofs.

(* ------------------------------------------------------------------ *)
(** ** [RunStateManager]: what the manager keeps *)

Module ManagerProofs.
Import Json RunState Effects Manager.

Definition completed_status (s : string) : bool :=
  String.eqb s "write" || String.eqb s "skip" || String.eqb s "exists".

Lemma completed_keys_in (m : Manager) k :
  In k (getCompletedChunkKeys m) <->
  exists f fr c, In (f, fr) (perFile (state m)) /\ In (k, c) (f_chunks fr)
                 /\ completed_status (c_status c) = true.
Proof.
  unfold getCompletedChunkKeys, RunState.getCompletedChunkKeys, completed_status.
  rewrite in_flat_map. split.
  - intros ([f sf] & Hin & Hk). apply in_map_iff in Hin.
    destruct Hin as ([f' fr] & Heq & Hin). cbn in Heq. injection Heq as E1 E2. subst.
    apply in_flat_map in Hk. destruct Hk as ([k' sc] & Hc & Hk).
    cbn in Hc. apply in_map_iff in Hc. destruct Hc as ([k'' c] & Heq & Hc).
    cbn in Heq. injection Heq as E1 E2. subst. cbn in Hk.
    destruct (_ || _ || _) eqn:Hs; [|contradiction].
    destruct Hk as [<-|[]]. exists f, fr, c. auto.
  - intros (f & fr & c & Hf & Hc & Hs).
    exists (f, to_stored fr). split.
    + apply in_map_iff. exists (f, fr). auto.
    + apply in_flat_map. exists (k, mkStoredChunkState (c_status c) (c_message c)).
      split.
      * apply in_map_iff. exists (k, c). auto.
      * cbn. rewrite Hs. left. reflexivity.
Qed.

Lemma assoc_set_new {A} k (v : A) l : In (k, v) (assoc_set k v l).
Proof.
  induction l as [|[k' v'] r IH]; cbn; [left; reflexivity|].
  destruct (String.eqb k' k) eqn:E; [apply String.eqb_eq in E; subst; left; reflexivity|].
  right. exact IH.
Qed.

Lemma assoc_set_keep {A} k (v : A) l k' v' :
  In (k', v') l -> In (k', v') (assoc_set k v l) \/ (k' = k /\ assoc_get k l = Some v').
Proof.
  induction l as [|[a b] r IH]; cbn; [intros []|].
  intros [Heq|Hin].
  - injection Heq as E1 E2. subst a b.
    destruct (String.eqb k' k) eqn:E.
    + apply String.eqb_eq in E. right. auto.
    + left. left. reflexivity.
  - destruct (String.eqb a k) eqn:E.
    + left. right. exact Hin.
    + destruct (IH Hin) as [H|H]; [left; right; exact H|right; exact H].
Qed.

Lemma assoc_get_in {A} k (v : A) l : assoc_get k l = Some v -> In (k, v) l.
Proof.
  induction l as [|[a b] r IH]; cbn; [discriminate|].
  destruct (String.eqb a k) eqn:E.
  - intros H. injection H as <-. apply String.eqb_eq in E. subst. left. reflexivity.
  - intros H. right. exact (IH H).
Qed.

Lemma markDirty_perFile now m : perFile (state (markDirty now m)) = perFile (state m).
Proof. reflexivity. Qed.

Lemma setTotals_perFile w s e c now m : perFile (state (setTotals w s e c now m)) = perFile (state m).
Proof. unfold setTotals. destruct (_ && _ && _ && _); reflexivity. Qed.

Lemma recordFileSummary_keeps file sm now m k :
  In k (getCompletedChunkKeys m) -> In k (getCompletedChunkKeys (recordFileSummary file sm now m)).
Proof.
  rewrite !completed_keys_in. intros (f & fr & c & Hf & Hc & Hs).
  unfold recordFileSummary. rewrite markDirty_perFile. cbn [with_state state perFile].
  destruct (assoc_set_keep file
              (mkFileRecord (sanitizeSummary sm)
                 match assoc_get file (perFile (state m)) with Some e => f_chunks e | None => [] end)
              _ _ _ Hf) as [Hin|[-> Hg]].
  - exists f, fr, c. auto.
  - rewrite Hg. eexists _, _, c. split; [apply assoc_set_new|]. cbn. auto.
Qed.

Lemma recordChunkResult_keeps file chunkId status msg tk d t now m k :
  completed_status status = true ->
  In k (getCompletedChunkKeys m) ->
  In k (getCompletedChunkKeys (recordChunkResult file chunkId status msg tk d t now m)).
Proof.
  intros Hst. rewrite !completed_keys_in. intros (f & fr & c & Hf & Hc & Hs).
  unfold recordChunkResult. rewrite markDirty_perFile. cbn [with_state state perFile].
  set (key := chunkKey file chunkId).
  set (nc := mkChunkRecord status msg d tk t).
  set (entry := match assoc_get file (perFile (state m)) with Some e => e | None => default_entry end).
  destruct (assoc_set_keep file (mkFileRecord (f_summary entry) (assoc_set key nc (f_chunks entry)))
              _ _ _ Hf) as [Hin|[-> Hg]].
  - exists f, fr, c. auto.
  - assert (He : entry = fr) by (subst entry; rewrite Hg; reflexivity).
    destruct (assoc_set_keep key nc _ _ _ Hc) as [Hc'|[-> _]].
    + eexists _, _, c. split; [apply assoc_set_new|]. cbn. rewrite He. auto.
    + eexists _, _, nc. split; [apply assoc_set_new|]. cbn. split; [apply assoc_set_new|exact Hst].
Qed.

Lemma flush_state stringify m st : state (fst (flush stringify m st)) = state m.
Proof. unfold flush. destruct (negb (dirty m)); reflexivity. Qed.

Lemma step_state_io stringify o m st :
  match o with OSetTotals _ _ _ _ _ | ORecordFileSummary _ _ _ | ORecordChunkResult _ _ _ _ _ _ _ _ => False | _ => True end ->
  state (fst (step stringify o m st)) = state m.
Proof.
  destruct o; cbn [step]; try contradiction; intros _.
  - apply flush_state.
  - destruct (flushTimer m); [|reflexivity]. unfold timerFires.
    cbn [dirty set_flags]. destruct (dirty m); [rewrite flush_state; reflexivity|reflexivity].
  - reflexivity.
  - unfold Manager.complete, bind. destruct (flush stringify m st) as [m' st'] eqn:E.
    cbn. pose proof (flush_state stringify m st) as H. rewrite E in H. exact H.
Qed.

Lemma step_keeps stringify o m st k :
  op_ok o = true ->
  In k (getCompletedChunkKeys m) -> In k (getCompletedChunkKeys (fst (step stringify o m st))).
Proof.
  intros Hok Hk. destruct o.
  - cbn. unfold getCompletedChunkKeys. rewrite setTotals_perFile. exact Hk.
  - apply recordFileSummary_keeps. exact Hk.
  - cbn in Hok. apply andb_prop in Hok. destruct Hok as [_ Hst].
    apply recordChunkResult_keeps; [exact Hst|exact Hk].
  - unfold getCompletedChunkKeys; rewrite step_state_io by exact I; exact Hk.
  - unfold getCompletedChunkKeys; rewrite step_state_io by exact I; exact Hk.
  - unfold getCompletedChunkKeys; rewrite step_state_io by exact I; exact Hk.
  - unfold getCompletedChunkKeys; rewrite step_state_io by exact I; exact Hk.
Qed.

Lemma run_cons stringify o r m st :
  run stringify (o :: r) m st =
  run stringify r (fst (step stringify o m st)) (snd (step stringify o m st)).
Proof. cbn [run]. unfold bind. destruct (step stringify o m st); reflexivity. Qed.

(** The plan a manager's state belongs to. *)
Definition plan_of (s : State) : string * string * Z :=
  (planSignature s, mode s, t_totalChunks (totals s)).

Lemma step_plan_of stringify o m st : plan_of (state (fst (step stringify o m st))) = plan_of (state m).
Proof.
  destruct o.
  - cbn. unfold setTotals. destruct (_ && _ && _ && _); reflexivity.
  - reflexivity.
  - reflexivity.
  - rewrite step_state_io by exact I; reflexivity.
  - rewrite step_state_io by exact I; reflexivity.
  - rewrite step_state_io by exact I; reflexivity.
  - rewrite step_state_io by exact I; reflexivity.
Qed.

Lemma run_plan_of stringify ops : forall m st,
  plan_of (state (fst (run stringify ops m st))) = plan_of (state m).
Proof.
  induction ops as [|o r IH]; intros m st; [reflexivity|].
  rewrite run_cons, IH. apply step_plan_of.
Qed.

Lemma to_json_compatible (s : State) :
  isStateCompatible (to_json s) (planSignature s) (mode s) (t_totalChunks (totals s)) = Ok true.
Proof.
  unfold isStateCompatible, to_json. cbn. rewrite !String.eqb_refl, Z.eqb_refl. reflexivity.
Qed.

Lemma flush_dirty stringify m st :
  dirty m = true ->
  flush stringify m st =
  (set_flags m false (flushTimer m),
   mkSt (update (files st) (statePath m) (Some (stringify (to_json (state m)))))
        ((log st ++ [AMkdir (NodePath.dirname (statePath m))]) ++
         [AWrite (statePath m) (stringify (to_json (state m)))])).
Proof. intros Hd. unfold flush. rewrite Hd. reflexivity. Qed.

(** Extra (runState.ts [recordChunkResult], [getCompletedChunkKeys]):
    after a chunk result with status [write], [skip] or [exists] is
    recorded, the chunk's key [file::chunkId] (or [file::0]) is one of the
    completed keys, whether or not the file had an entry. *)
Theorem recordChunkResult_marks_completed m file chunkId status message tokens durationMs
    chunkTime now :
  is_proto_key file = false ->
  (status = "write" \/ status = "skip" \/ status = "exists")%string ->
  In (chunkKey file chunkId)
     (getCompletedChunkKeys
        (recordChunkResult file chunkId status message tokens durationMs chunkTime now m)).
Proof.
  intros _ Hst. apply completed_keys_in.
  unfold recordChunkResult. rewrite markDirty_perFile. cbn [with_state state perFile].
  eexists _, _, _. split; [apply assoc_set_new|]. split; [apply assoc_set_new|].
  cbn. unfold completed_status.
  destruct Hst as [ -> | [ -> | -> ] ]; reflexivity.
Qed.

(** Extra (runState.ts [RunStateManager]): no sequence of calls on a
    manager removes a completed chunk key; in particular [reset()] deletes
    the state file but keeps the records in memory. *)
Theorem run_keeps_completed_keys stringify ops m st :
  forallb op_ok ops = true ->
  incl (getCompletedChunkKeys m) (getCompletedChunkKeys (fst (run stringify ops m st))).
Proof.
  revert m st. induction ops as [|o r IH]; intros m st Hok k Hk; [exact Hk|].
  cbn [forallb] in Hok. apply andb_prop in Hok. destruct Hok as [Ho Hr].
  rewrite run_cons. apply (IH _ _ Hr). apply step_keeps; assumption.
Qed.

(** Extra (runState.ts [RunStateManager]): the state of a manager built
    for a plan signature, mode and chunk total, with or without an existing
    state, is compatible with that plan after any sequence of calls. *)
Theorem run_stays_compatible stringify ops statePath sig md total existing now st :
  isStateCompatible
    (to_json (state (fst (run stringify ops (newManager statePath sig md total existing now) st))))
    sig md total = Ok true.
Proof.
  pose proof (run_plan_of stringify ops (newManager statePath sig md total existing now) st) as H.
  set (s := state (fst (run stringify ops (newManager statePath sig md total existing now) st))) in *.
  assert (Hp : plan_of s = (sig, md, total)) by (rewrite H; destruct existing; reflexivity).
  unfold plan_of in Hp. injection Hp as Hs Hm Ht.
  rewrite <- Hs, <- Hm, <- Ht. apply to_json_compatible.
Qed.

(** Extra (runState.ts [flush], [loadRunState], the CLI's resume decision):
    [flush()] on a dirty manager writes the serialized state to its path
    and clears [dirty]; when [JSON.parse] gives back the serialized value,
    [loadRunState] returns it and the next run on the same plan resumes
    from it exactly when [completedChunks < totalChunks] and the user
    continues, and otherwise deletes it. *)
Theorem flush_then_reload stringify parse m st :
  dirty m = true ->
  let text := stringify (to_json (state m)) in
  let st' := snd (flush stringify m st) in
  files st' (statePath m) = Some text /\ dirty (fst (flush stringify m st)) = false /\
  (parse text = Some (to_json (state m)) ->
   loadRunState (Ok text) parse = Ok (Some (to_json (state m))) /\
   forall continueRun,
     chooseRunState (Some (to_json (state m))) (planSignature (state m)) (mode (state m))
       (t_totalChunks (totals (state m))) continueRun =
     if t_totalChunks (totals (state m)) <=? t_completedChunks (totals (state m))
     then (None, true)
     else if continueRun then (Some (to_json (state m)), false) else (None, true)).
Proof.
  intros Hd text st'. subst st' text. rewrite flush_dirty by exact Hd. cbn [fst snd files dirty set_flags].
  split; [unfold update; rewrite String.eqb_refl; reflexivity|]. split; [reflexivity|].
  intros Hp. split.
  - unfold loadRunState. cbn [bind_r]. rewrite Hp. reflexivity.
  - intros cont. unfold chooseRunState. rewrite to_json_compatible. reflexivity.
Qed.

End ManagerProofs.

(* ------------------------------------------------------------------ *)
(** ** The CLI's completion decision with repeated chunk keys *)

Module CliProofs.
Import Effects RunState Planner Chunker Generator Observe LogFacts GeneratorProofs Cli.

(** What the bookkeeping keeps: the finished keys are distinct keys of
    the plan, and the counter does not exceed their number. *)
Definition Inv (keys : list string) (p : Progress) : Prop :=
  NoDup (finishedChunks p) /\ incl (finishedChunks p) keys
  /\ completedChunks p <= Z.of_nat (length (finishedChunks p)).

Definition event_ok (keys : list string) (e : Event) : Prop :=
  match echunk e with
  | None => True
  | Some _ => In (chunkKey (efile e) (echunk e)) keys
  end.

Definition action_ok (keys : list string) (a : Action) : Prop :=
  match a with AEvent e => event_ok keys e | _ => True end.

Lemma set_has_in s k : set_has s k = true <-> In k s.
Proof.
  unfold set_has. rewrite existsb_exists. split.
  - intros (x & Hx & E). apply String.eqb_eq in E. subst. exact Hx.
  - intros H. exists k. split; [exact H|apply String.eqb_refl].
Qed.

Lemma markChunkFinished_inv keys total f c p :
  0 <= total -> (c <> None -> In (chunkKey f c) keys) -> Inv keys p ->
  Inv keys (markChunkFinished total f c p).
Proof.
  intros Ht Hk (Hnd & Hinc & Hc). destruct c as [c|]; [|exact (conj Hnd (conj Hinc Hc))].
  unfold markChunkFinished. destruct (set_has (finishedChunks p) (chunkKey f (Some c))) eqn:E.
  - exact (conj Hnd (conj Hinc Hc)).
  - unfold set_add. rewrite E. unfold Inv. cbn [finishedChunks completedChunks].
    assert (Hn : ~ In (chunkKey f (Some c)) (finishedChunks p))
      by (intros H; apply set_has_in in H; congruence).
    split; [|split].
    + apply (Permutation_NoDup (Permutation_cons_append _ _)). constructor; assumption.
    + apply incl_app; [exact Hinc|]. intros x [<-|[]]. apply Hk. discriminate.
    + rewrite length_app. cbn [length]. lia.
Qed.

Lemma commonProgress_inv keys total e p :
  0 <= total -> event_ok keys e -> Inv keys p -> Inv keys (commonProgress total e p).
Proof.
  intros Ht He Hp. unfold event_ok in He.
  assert (Hk : echunk e <> None -> In (chunkKey (efile e) (echunk e)) keys)
    by (destruct (echunk e); [intros _; exact He|intros []; reflexivity]).
  unfold commonProgress. destruct (etype e); try exact Hp;
    unfold add_completed_key; unfold Inv; cbn [finishedChunks completedChunks];
    apply (markChunkFinished_inv keys total (efile e) (echunk e) _ Ht Hk); exact Hp.
Qed.

Lemma observe_events_inv keys total acts : forall p,
  0 <= total -> Forall (action_ok keys) acts -> Inv keys p ->
  Inv keys (observe_events total acts p).
Proof.
  unfold observe_events.
  induction acts as [|a r IH]; intros p Ht Hall Hp; [exact Hp|].
  inversion Hall as [|? ? Ha Hr]; subst. cbn [fold_left].
  apply IH; [exact Ht|exact Hr|].
  destruct a; try exact Hp. apply commonProgress_inv; assumption.
Qed.

Lemma logs_forall_skipn {A} P (m : M A) st a st' :
  logs_forall P m -> m st = (a, st') -> Forall P (skipn (length (log st)) (log st')).
Proof.
  intros Hm E. destruct (Hm _ _ _ E) as (new & Hl & Hf). rewrite Hl.
  rewrite skipn_app, skipn_all, Nat.sub_diag. exact Hf.
Qed.

Lemma observed_inv keys total body (Q : Action -> Prop) p st :
  0 <= total ->
  (forall r, logs_forall Q (body r)) -> (forall a, Q a -> action_ok keys a) ->
  Inv keys p -> Inv keys (fst (observed total body p st)).
Proof.
  intros Ht Hb HQ Hp. unfold observed.
  destruct (body (completedChunkKeys p) st) as [u st'] eqn:E. cbn [fst].
  apply observe_events_inv; [exact Ht| |exact Hp].
  eapply Forall_impl; [exact HQ|]. exact (logs_forall_skipn _ _ _ _ _ (Hb _) E).
Qed.

Lemma foldM_inv {A} keys (f : A -> Progress -> M Progress) xs :
  (forall x p st, In x xs -> Inv keys p -> Inv keys (fst (f x p st))) ->
  forall p st, Inv keys p -> Inv keys (fst (foldM f xs p st)).
Proof.
  induction xs as [|x r IH]; intros Hf p st Hp; [exact Hp|].
  cbn [foldM]. unfold bind. destruct (f x p st) as [p' st'] eqn:E.
  apply IH; [intros y q s Hy; apply Hf; right; exact Hy|].
  pose proof (Hf x p st (or_introl eq_refl) Hp) as H. rewrite E in H. exact H.
Qed.

Lemma processChunk_scoped E opts plan item c r :
  logs_forall (action_scoped (chunkKey (rel item) (Some (id c))) (rel item) (Some (id c))
                 (resolveOutPath (projectRoot opts) (outDir opts) (rel item)))
    (processChunk E (with_resume opts r) plan item c).
Proof.
  destruct (resume_has (resume (with_resume opts r)) (chunkKey (rel item) (Some (id c)))) eqn:Hr.
  - rewrite processChunk_resumed by exact Hr. apply lf_ret.
  - exact (lf_processChunk E (with_resume opts r) plan item c Hr).
Qed.

Definition no_chunk_event (a : Action) : Prop :=
  match a with AEvent e => echunk e = None | _ => True end.

Lemma processItem_chunkless E opts plan item :
  chunks item = [] -> logs_forall no_chunk_event (processItem E opts plan item).
Proof.
  intros Hc. unfold processItem. rewrite Hc.
  destruct (resume_has _ _); [apply lf_ret|apply lf_emit; reflexivity].
Qed.

Lemma plan_keys_in plan item c :
  In item (items plan) -> In c (chunks item) -> In (chunkKey (rel item) (Some (id c))) (plan_keys plan).
Proof.
  intros Hi Hc. unfold plan_keys. apply in_flat_map. exists item. split; [exact Hi|].
  apply in_map_iff. exists c. auto.
Qed.

Lemma totalChunks_keys plan : totalChunks plan = Z.of_nat (length (plan_keys plan)).
Proof.
  unfold totalChunks, plan_keys.
  assert (H : forall its a,
             fold_left (fun acc it => acc + Z.of_nat (length (chunks it))) its a
             = a + Z.of_nat (length (flat_map (fun it => map (fun c => chunkKey (rel it) (Some (id c)))
                                                             (chunks it)) its))).
  { induction its as [|it r IH]; intros a; cbn [fold_left flat_map length]; [lia|].
    rewrite IH, length_app, length_map. lia. }
  rewrite H. lia.
Qed.

Lemma cli_item_inv E opts plan total item p st :
  0 <= total -> In item (items plan) -> Inv (plan_keys plan) p ->
  Inv (plan_keys plan) (fst (cli_item E opts plan total item p st)).
Proof.
  intros Ht Hi Hp. unfold cli_item. destruct (chunks item) as [|c cs] eqn:Hc.
  - apply (observed_inv _ _ _ no_chunk_event); [exact Ht| |intros [] Ha; cbn in *; try exact I|exact Hp].
    + intros r. apply processItem_chunkless. exact Hc.
    + unfold event_ok. rewrite Ha. exact I.
  - apply foldM_inv; [|exact Hp]. intros x q s Hx Hq.
    apply (observed_inv _ _ _ (action_scoped (chunkKey (rel item) (Some (id x))) (rel item) (Some (id x))
                                 (resolveOutPath (projectRoot opts) (outDir opts) (rel item))));
      [exact Ht| |intros [] Ha; cbn in *; try exact I|exact Hq].
    + intros r. apply processChunk_scoped.
    + unfold event_ok. destruct Ha as [-> ->]. apply plan_keys_in; [exact Hi|]. rewrite Hc. exact Hx.
Qed.

Lemma nodup_length_lt (l : list string) :
  ~ NoDup l -> (length (nodup string_dec l) < length l)%nat.
Proof.
  induction l as [|a r IH]; intros Hn; [exfalso; apply Hn; constructor|].
  cbn [nodup length]. destruct (in_dec string_dec a r) as [Ha|Ha].
  - pose proof (NoDup_incl_length (NoDup_nodup string_dec r) (fun x Hx => proj1 (nodup_In string_dec r x) Hx)). lia.
  - cbn [length]. assert (Hr : ~ NoDup r) by (intros Hr; apply Hn; constructor; assumption).
    specialize (IH Hr). lia.
Qed.

(** Extra (runState.ts [markChunkFinished], [commonProgress], the final
    [completedChunks >= totalChunks] test): when two chunks of the plan have
    the same run-state key (two chunks of one file with the same id, as
    TypeScript overload signatures give), a fresh run never counts all
    chunks: the second chunk is skipped through the shared resume set and
    [completedChunks] is bounded by the number of distinct keys, so the run
    ends with [flush()] and the state file is never removed. *)
Theorem repeated_keys_never_complete E opts plan st :
  ~ NoDup (plan_keys plan) ->
  completes_run (totalChunks plan) (fst (cli_generate E opts plan (freshProgress plan) st)) = false.
Proof.
  intros Hn.
  assert (Ht : 0 <= totalChunks plan) by (rewrite totalChunks_keys; lia).
  assert (Hi : Inv (plan_keys plan) (fst (cli_generate E opts plan (freshProgress plan) st))).
  { unfold cli_generate. apply foldM_inv.
    - intros it q s Hit Hq. apply cli_item_inv; assumption.
    - split; [constructor|]. split; [intros x []|]. cbn. lia. }
  destruct Hi as (Hnd & Hinc & Hc).
  assert (Hle : (length (finishedChunks (fst (cli_generate E opts plan (freshProgress plan) st)))
                 <= length (nodup string_dec (plan_keys plan)))%nat).
  { apply NoDup_incl_length; [exact Hnd|]. intros x Hx. apply nodup_In. apply Hinc. exact Hx. }
  pose proof (nodup_length_lt _ Hn) as Hlt.
  unfold completes_run. apply Z.leb_gt. rewrite totalChunks_keys. lia.
Qed.

End CliProofs.

(* ------------------------------------------------------------------ *)
(** ** [runGeneratedTestFile]: how the runner binary is chosen *)

Module TestRunnerProofs.
Import Effects TestRunner.
Local Open Scope string_scope.

Definition runner_of (framework : string) : string :=
  if String.eqb framework "vitest" then "vitest" else "jest".

Definition rel_of (relative : string -> string -> string) (projectRoot testFilePath : string) : string :=
  let r := relative projectRoot testFilePath in
  if String.eqb r "" then testFilePath else r.

Definition local_bin (isWin32 : bool) (projectRoot runner : string) : string :=
  NodePath.join [NodePath.join [projectRoot; "node_modules"; ".bin"];
                 if isWin32 then runner ++ ".cmd" else runner].

Lemma runGeneratedTestFile_unfold spawnChild relative isWin32 projectRoot testFilePath framework st :
  runGeneratedTestFile spawnChild relative isWin32 projectRoot testFilePath framework st =
  let runner := runner_of framework in
  let lb := local_bin isWin32 projectRoot runner in
  let found := match files st lb with Some _ => true | None => false end in
  (tryCandidates spawnChild projectRoot runner (rel_of relative projectRoot testFilePath)
     ((if found then [(lb, [])] else []) ++ [(runner, [])])%list None,
   Effects.record (AAccess lb found) st).
Proof. reflexivity. Qed.

(** Extra (runState.ts [runGeneratedTestFile], [execRunner]): the runner
    reports success only when a spawned runner binary closed with exit code
    0; the result then carries that child's trimmed output and the trimmed
    command line. *)
Theorem runGeneratedTestFile_ok_exit_zero spawnChild relative isWin32 projectRoot testFilePath
    framework st r st' :
  runGeneratedTestFile spawnChild relative isWin32 projectRoot testFilePath framework st
    = (Resolved r, st') ->
  ok r = true ->
  exists cmd args out,
    spawnChild cmd args projectRoot = Closed (Some 0) out /\
    r = mkRunTestResult true (Js.trim out) (Js.trim (cmd ++ " " ++ Js.join " " args)).
Proof.
  rewrite runGeneratedTestFile_unfold. cbv zeta. intros H Hok. injection H as H _.
  revert H. generalize (@None Failure).
  match goal with |- context [tryCandidates _ _ _ _ ?l _] => generalize l end.
  intros cands. induction cands as [|[cmd args] rest IH]; intros last H.
  - cbn in H. injection H as <-. discriminate Hok.
  - cbn [tryCandidates] in H. unfold execRunner in H.
    destruct (spawnChild cmd (args ++ runnerArgs _ _)%list projectRoot) as [c msg|code out] eqn:E.
    + cbn [f_code] in H. destruct c as [c|]; [|discriminate H].
      destruct (String.eqb c "ENOENT"); [exact (IH _ H)|discriminate H].
    + injection H as <-. cbn in Hok.
      destruct code as [[| |]|]; try discriminate Hok.
      eexists _, _, out. split; [exact E|reflexivity].
Qed.

(** Extra (runState.ts [runGeneratedTestFile], [getRunnerBinaries]): when
    every spawn fails with [ENOENT], the runner does not reject: it
    resolves with [ok: false], the message of the last candidate (the bare
    [jest] or [vitest] name), or [Unable to locate <runner> binary] when
    that message is empty, and the command [<runner> <args>]. *)
Theorem runGeneratedTestFile_no_binary spawnChild relative isWin32 projectRoot testFilePath
    framework (msg : string -> string) st :
  (forall cmd args cwd, spawnChild cmd args cwd = SpawnError (Some "ENOENT") (msg cmd)) ->
  let runner := runner_of framework in
  let rel := rel_of relative projectRoot testFilePath in
  fst (runGeneratedTestFile spawnChild relative isWin32 projectRoot testFilePath framework st) =
  Resolved (mkRunTestResult false
              (if String.eqb (msg runner) "" then "Unable to locate " ++ runner ++ " binary"
               else msg runner)
              (Js.trim (runner ++ " " ++ Js.join " " (runnerArgs runner rel)))).
Proof.
  intros H runner rel. rewrite runGeneratedTestFile_unfold. cbv zeta. cbn [fst].
  destruct (files st _); cbn [app tryCandidates]; unfold execRunner; rewrite !H;
    cbn [f_code f_message]; rewrite !String.eqb_refl; cbn [tryCandidates f_message];
    subst runner rel; destruct (String.eqb (msg (runner_of framework)) ""); reflexivity.
Qed.

(** Extra (runState.ts [runGeneratedTestFile]): when the project's local
    runner binary exists but spawning it fails with an error other than
    [ENOENT] (for instance [EACCES]), the result is a rejection with that
    error, whatever the [jest] or [vitest] on the [PATH] would do: the
    other candidate is not tried. *)
Theorem runGeneratedTestFile_rethrows spawnChild relative isWin32 projectRoot testFilePath
    framework c m st :
  files st (local_bin isWin32 projectRoot (runner_of framework)) <> None ->
  spawnChild (local_bin isWin32 projectRoot (runner_of framework))
    (runnerArgs (runner_of framework) (rel_of relative projectRoot testFilePath)) projectRoot
    = SpawnError (Some c) m ->
  c <> "ENOENT" ->
  fst (runGeneratedTestFile spawnChild relative isWin32 projectRoot testFilePath framework st)
  = Rejected (mkFailure (Some c) m).
Proof.
  intros Hf Hs Hc. rewrite runGeneratedTestFile_unfold. cbv zeta. cbn [fst].
  destruct (files st _) as [x|]; [|contradiction Hf; reflexivity].
  cbn [app tryCandidates]. unfold execRunner. rewrite Hs. cbn [f_code].
  destruct (String.eqb c "ENOENT") eqn:E; [apply String.eqb_eq in E; contradiction|reflexivity].
Qed.

End TestRunnerProofs.

(* ------------------------------------------------------------------ *)
(** ** The [read_file] tool: what it returns *)

Module ReadFileProofs.
Import Json Planner Agent ReadFile StringFacts.
Local Open Scope string_scope.

(** [Number(args.maxChars ?? 4000)] *)
Definition maxCharsNumber (stringToNumber : string -> JsNum) (args : json) : result JsNum :=
  js_Number stringToNumber
    (match get args "maxChars" with None | Some JNull => JNum 4000 | Some v => v end).

Definition negative (n : JsNum) : bool := match n with Fin z => Z.ltb z 0 | _ => false end.

Lemma substring0_length_eq (s : string) : forall k,
  (k <= String.length s)%nat -> String.length (substring 0 k s) = k.
Proof.
  induction s as [|c s IH]; intros k Hk; destruct k as [|k]; cbn in *; try lia.
  rewrite IH by lia. reflexivity.
Qed.

Lemma slice0_prefix text n : exists rest, text = slice0 text n ++ rest.
Proof. unfold slice0, Js.slice. rewrite Z.sub_0_r. apply substring0_prefix. Qed.

Lemma slice0_min8000_bound text n :
  negative n = false -> Js.len (slice0 text (min8000 n)) <= 8000.
Proof.
  intros Hn. unfold slice0, Js.slice. rewrite Z.sub_0_r. unfold Js.len at 1.
  match goal with |- context [substring ?i ?k text] =>
    pose proof (GeneratorProofs.substring_length_le text i k) as Hk end.
  apply Nat2Z.inj_le in Hk. eapply Z.le_trans; [exact Hk|].
  destruct n as [| | |z]; cbn [min8000 negative] in *.
  - lia.
  - destruct (Z.ltb_spec 8000 0); lia.
  - lia.
  - apply Z.ltb_ge in Hn. destruct (Z.ltb_spec (Z.min 8000 z) 0); lia.
Qed.

Lemma read_file_unfold s2n files args :
  read_file s2n files args =
  match js_String (match get args "relPath" with
                   | Some v => if truthy (Some v) then v else JStr "" | None => JStr "" end) with
  | Throw _ => mkToolResult false None (Some convert_error)
  | Ok rel =>
      match find (fun f => String.eqb (file_rel f) rel) files with
      | None => mkToolResult false None (Some "not_found")
      | Some entry =>
          match maxCharsNumber s2n args with
          | Throw _ => mkToolResult false None (Some convert_error)
          | Ok n => mkToolResult true (Some (JStr (slice0 (file_text entry) (min8000 n)))) None
          end
      end
  end.
Proof.
  unfold read_file, maxCharsNumber.
  destruct (get args "relPath") as [v|]; cbn [bind_r];
    destruct (js_String _) as [rel|e]; cbn [bind_r]; try reflexivity;
    destruct (find _ files); try reflexivity;
    destruct (js_Number _ _); reflexivity.
Qed.

(** Extra (agent.ts [read_file]): a successful [read_file] returns the
    beginning of a scanned file's text, and at most 8000 characters of it
    unless [Number(args.maxChars ?? 4000)] is negative. *)
Theorem read_file_prefix s2n files args :
  tr_ok (read_file s2n files args) = true ->
  exists f d rest,
    In f files /\ tr_data (read_file s2n files args) = Some (JStr d) /\ file_text f = d ++ rest /\
    (match maxCharsNumber s2n args with Ok n => negative n = false | Throw _ => True end ->
     Js.len d <= 8000).
Proof.
  rewrite read_file_unfold.
  destruct (js_String _) as [rel|e]; [|discriminate].
  destruct (find _ files) as [entry|] eqn:Hf; [|discriminate].
  destruct (maxCharsNumber s2n args) as [n|e]; [|discriminate].
  intros _. destruct (slice0_prefix (file_text entry) (min8000 n)) as [rest Hr].
  exists entry, (slice0 (file_text entry) (min8000 n)), rest.
  split; [apply find_some in Hf; apply Hf|]. split; [reflexivity|]. split; [exact Hr|].
  apply slice0_min8000_bound.
Qed.

(** Extra (agent.ts [read_file]): with a negative [maxChars] of [z], the
    tool returns the file without its last [-z] characters, so its answer
    is not capped at 8000 characters: [Math.min(8000, z)] keeps [z] and
    [slice(0, z)] counts from the end. *)
Theorem read_file_negative_maxChars s2n files args rel entry z :
  get args "relPath" = Some (JStr rel) -> rel <> "" ->
  find (fun f => String.eqb (file_rel f) rel) files = Some entry ->
  get args "maxChars" = Some (JNum z) -> z < 0 ->
  exists d, read_file s2n files args = mkToolResult true (Some (JStr d)) None /\
            Js.len d = Z.max (Js.len (file_text entry) + z) 0.
Proof.
  intros Hr Hne Hf Hm Hz. rewrite read_file_unfold, Hr.
  cbn [truthy js_String]. destruct (String.eqb rel "") eqn:E; [apply String.eqb_eq in E; contradiction|].
  cbn [negb js_String]. rewrite Hf. unfold maxCharsNumber. rewrite Hm. cbn [js_Number min8000].
  eexists. split; [reflexivity|].
  unfold slice0, Js.slice. rewrite Z.sub_0_r.
  assert (Hmin : Z.min 8000 z = z) by lia. rewrite Hmin.
  destruct (Z.ltb_spec z 0); [|lia].
  unfold Js.len. rewrite substring0_length_eq by lia. rewrite Z2Nat.id by lia. reflexivity.
Qed.

End ReadFileProofs.

(* ------------------------------------------------------------------ *)
(** ** What the agent writes *)

Module AgentWriteProofs.
Import Json Effects Observe Planner Chunker Agent LogFacts.

(** The code [fs.writeFile(outPath, finalCode)] may receive: the formatted
    [code] of a verification of some source at [outPath] that has no
    diagnostics and at least one test. *)
Definition verified_code (E : AgentEnv) (p c : string) : Prop :=
  exists x, Generator.v_diagnostics (a_verify E x p) = [] /\
            Generator.v_testCount (a_verify E x p) <> 0 /\
            c = a_tryFormat E (Generator.v_code (a_verify E x p)).

Definition verified_write (E : AgentEnv) (a : Action) : Prop :=
  match a with
  | AWrite p c => verified_code E p c
  | _ => True
  end.

Definition returns {A} (Q : A -> Prop) (m : M A) : Prop :=
  forall st a st', m st = (a, st') -> Q a.

Lemma lf_bind_returns {A B} P (Q : A -> Prop) (m : M A) (k : A -> M B) :
  returns Q m -> logs_forall P m -> (forall a, Q a -> logs_forall P (k a)) ->
  logs_forall P (bind m k).
Proof.
  intros HQ Hm Hk st b st' H. unfold bind in H.
  destruct (m st) as [a st1] eqn:H1.
  destruct (Hm _ _ _ H1) as (n1 & Hl1 & Hf1).
  destruct (Hk a (HQ _ _ _ H1) _ _ _ H) as (n2 & Hl2 & Hf2).
  exists (n1 ++ n2). split; [rewrite Hl2, Hl1, app_assoc; reflexivity|apply Forall_app; split; assumption].
Qed.

Lemma verified_write_not_write E a : (forall p c, a <> AWrite p c) -> verified_write E a.
Proof. destruct a; try (intros; exact I). intros H. exfalso. exact (H _ _ eq_refl). Qed.

Ltac no_write := apply verified_write_not_write; intros ? ? ?; discriminate.

Lemma agentLoop_no_write E key file chunkId userPrompt maxSteps fuel step obs :
  logs_forall (verified_write E) (agentLoop E key file chunkId userPrompt maxSteps fuel step obs).
Proof.
  revert step obs. induction fuel as [|fuel IH]; intros step obs; cbn [agentLoop]; [apply lf_ret|].
  cbv zeta. repeat (lf_step; try no_write); apply IH.
Qed.

Lemma reviewGeneratedTest_no_write E key rel original generated testPath planJson :
  logs_forall (verified_write E) (reviewGeneratedTest E key rel original generated testPath planJson).
Proof. unfold reviewGeneratedTest. repeat (lf_step; try no_write). Qed.

Lemma verification_passes E x p :
  negb (Nat.eqb (length (Generator.v_diagnostics (a_verify E x p))) 0) = false ->
  (Generator.v_testCount (a_verify E x p) =? 0) = false ->
  verified_code E p (a_tryFormat E (Generator.v_code (a_verify E x p))).
Proof.
  intros Hd Ht. exists x. split; [|split; [apply Z.eqb_neq, Ht|reflexivity]].
  destruct (Generator.v_diagnostics _); [reflexivity|discriminate Hd].
Qed.

Lemma agentChunk_writes_verified E opts item chunk :
  logs_forall (verified_write E) (agentChunk E opts item chunk).
Proof.
  unfold agentChunk. cbv zeta.
  destruct (Generator.resume_has _ _); [apply lf_ret|].
  apply lf_bind; [lf_step; no_write|intros _].
  apply lf_bind; [apply agentLoop_no_write|intros ar].
  destruct ar as [ar|e]; [|lf_step; no_write].
  destruct (plan ar) as [[|x p]|]; [lf_step; no_write| |lf_step; no_write].
  destruct (negb (ok ar)); [lf_step; no_write|].
  apply lf_bind; [apply lf_complete; intros; no_write|intros raw].
  destruct (truthy_code _) as [code|]; [|lf_step; no_write].
  apply lf_bind; [lf_step; no_write|intros _].
  apply lf_bind.
  { destruct (a_force opts); [apply lf_ret|apply lf_access; intros; no_write]. }
  intros found. destruct found; [lf_step; no_write|].
  destruct (negb (Nat.eqb _ 0)) eqn:Hd; [lf_step; no_write|].
  destruct (_ =? 0) eqn:Ht; [lf_step; no_write|].
  apply lf_bind; [apply reviewGeneratedTest_no_write|intros review].
  apply (lf_bind_returns _ (verified_code E (resolveOutPath (a_outDir opts) (rel item)))).
  - destruct review as [rc|]; intros st a st' H.
    + destruct (negb (Nat.eqb (length (Generator.v_diagnostics (a_verify E (a_tryFormat E rc) _))) 0)) eqn:Hd';
        [|destruct (Generator.v_testCount (a_verify E (a_tryFormat E rc) _) =? 0) eqn:Ht'];
        cbv [bind emit ret] in H; injection H as <- _.
      * apply verification_passes; assumption.
      * apply verification_passes; assumption.
      * apply verification_passes; assumption.
    + cbv [ret] in H. injection H as <- _. apply verification_passes; assumption.
  - destruct review as [rc|]; repeat (lf_step; try no_write).
  - intros fc Hfc. apply lf_bind; [apply lf_writeFile; exact Hfc|intros _]. lf_step; no_write.
Qed.

(** Extra (generateAgent.ts [generateWithAgent]): the agent path never
    writes a test file that failed verification: every [fs.writeFile] it
    makes stores the formatted code of a verification, at the file's own
    path, with no diagnostics and at least one test, whether that code is
    the first draft or the reviewer's rewrite. *)
Theorem agent_writes_only_verified E opts plan :
  logs_forall (verified_write E) (generateWithAgent E opts plan).
Proof.
  unfold generateWithAgent. apply lf_mapM_. intros item _. unfold agentItem.
  destruct (chunks item) as [|c cs].
  - destruct (Generator.resume_has _ _); [apply lf_ret|lf_step; no_write].
  - apply lf_mapM_. intros x _. apply agentChunk_writes_verified.
Qed.

End AgentWriteProofs.

(* ------------------------------------------------------------------ *)
(** ** Rejections in the basic generator's chunk loop *)

Module GeneratorXProofs.
Import Chunker Planner Effects RunState Generator GeneratorX GenInputs.

(** Neither a deletion of [p] nor a skip event. *)
Definition no_abandon (p : string) (a : Action) : Prop :=
  a <> ARm p /\ (forall ev, a = AEvent ev -> etype ev <> ESkip).

(** What a step does, whatever its result: it appends actions that do not
    abandon [p], makes at most [n] backend calls, and leaves a file at
    [p] when one was there or when it wrote one. *)
Definition okX {A} (p : string) (n : nat) (m : MX A) : Prop :=
  forall st r st', m st = (r, st') ->
    exists new, log st' = log st ++ new /\ Forall (no_abandon p) new /\ (count_calls new <= n)%nat /\
      (files st p <> None \/ (exists c, In (AWrite p c) new) -> files st' p <> None).

(** The same, for the runs of [m] that end in a rejection. *)
Definition errX {A} (p : string) (n : nat) (m : MX A) : Prop :=
  forall st e st', m st = (Err e, st') ->
    exists new, log st' = log st ++ new /\ Forall (no_abandon p) new /\ (count_calls new <= n)%nat /\
      (files st p <> None \/ (exists c, In (AWrite p c) new) -> files st' p <> None).

Lemma count_calls_app' l1 l2 : count_calls (l1 ++ l2) = (count_calls l1 + count_calls l2)%nat.
Proof. unfold count_calls. now rewrite filter_app, length_app. Qed.

Lemma okX_ret {A} p n (a : A) : okX p n (retX a).
Proof.
  intros st r st' H. injection H as <- <-. exists []. rewrite app_nil_r.
  split; [reflexivity|]. split; [constructor|]. split; [cbn; lia|].
  intros [H|[c [] ]]. exact H.
Qed.

Lemma okX_bind {A B} p n1 n2 n (m : MX A) (k : A -> MX B) :
  okX p n1 m -> (forall a, okX p n2 (k a)) -> (n1 + n2 <= n)%nat -> okX p n (bindX m k).
Proof.
  intros Hm Hk Hn st r st' H. unfold bindX in H.
  destruct (m st) as [[a|e] st1] eqn:H1.
  - destruct (Hm _ _ _ H1) as (n1' & Hl1 & Hf1 & Hc1 & Hw1).
    destruct (Hk a _ _ _ H) as (n2' & Hl2 & Hf2 & Hc2 & Hw2).
    exists (n1' ++ n2'). split; [rewrite Hl2, Hl1, app_assoc; reflexivity|].
    split; [apply Forall_app; split; assumption|]. split; [rewrite count_calls_app'; lia|].
    intros Hx. apply Hw2. destruct Hx as [Hx|[c Hc]].
    + left. apply Hw1. left. exact Hx.
    + apply in_app_or in Hc as [Hc|Hc]; [left; apply Hw1; right; exists c; exact Hc|].
      right. exists c. exact Hc.
  - injection H as <- <-. destruct (Hm _ _ _ H1) as (n1' & Hl1 & Hf1 & Hc1 & Hw1).
    exists n1'. repeat split; try assumption. lia.
Qed.

Lemma okX_mono {A} p n n' (m : MX A) : (n <= n')%nat -> okX p n m -> okX p n' m.
Proof.
  intros Hn Hm st r st' H. destruct (Hm _ _ _ H) as (new & Hl & Hf & Hc & Hw).
  exists new. repeat split; try assumption. lia.
Qed.

(** A step that appends [acts] and changes no file. *)
Lemma okX_record {A} p n (m : MX A) :
  (forall st, exists r acts, m st = (r, mkSt (files st) (log st ++ acts)) /\
                             Forall (no_abandon p) acts /\ (count_calls acts <= n)%nat /\
                             forall c, ~ In (AWrite p c) acts) ->
  okX p n m.
Proof.
  intros Hm st r st' H. destruct (Hm st) as (r' & acts & E & Hf & Hc & Hw).
  rewrite H in E. injection E as <- ->. exists acts. cbn [log files].
  split; [reflexivity|]. split; [exact Hf|]. split; [exact Hc|].
  intros [Hx|[c Hx]]; [exact Hx|exfalso; exact (Hw c Hx)].
Qed.

Lemma no_abandon_event p e : etype e <> ESkip -> no_abandon p (AEvent e).
Proof. intros He. split; [discriminate|]. intros ev Hev. injection Hev as <-. exact He. Qed.

Ltac acts_ok :=
  repeat first [ apply Forall_nil | apply Forall_cons | discriminate
               | (intros ? Hev; discriminate Hev) | split ].

Ltac no_write_in :=
  let Hin := fresh in intros ? Hin; repeat (destruct Hin as [Hin|Hin]; [discriminate Hin|]); exact Hin.

Lemma okX_emit p n e : etype e <> ESkip -> okX p n (lift (emit e)).
Proof.
  intros He. apply okX_record. intros st. exists (Val tt), [AEvent e].
  split; [reflexivity|]. split; [constructor; [apply no_abandon_event, He|constructor]|].
  split; [cbn; lia|]. intros c [Hc|[]]; discriminate Hc.
Qed.

Lemma okX_mkdir p n d : okX p n (lift (mkdir d)).
Proof.
  apply okX_record. intros st. exists (Val tt), [AMkdir d].
  split; [reflexivity|]. split; [acts_ok|]. split; [cbn; lia|]. no_write_in.
Qed.

Lemma okX_access p n (b : bool) : okX p n (lift (if b then ret false else access p)).
Proof.
  apply okX_record. intros st. destruct b.
  - exists (Val false), []. rewrite app_nil_r. destruct st; split; [reflexivity|].
    split; [constructor|]. split; [cbn; lia|]. intros c [].
  - eexists _, [AAccess p _]. split; [reflexivity|]. split; [acts_ok|]. split; [cbn; lia|]. no_write_in.
Qed.

Lemma okX_complete p bX key prompt : okX p 1 (completeX bX key prompt).
Proof.
  apply okX_record. intros st. unfold completeX.
  destruct (bX (count_calls (log st)) prompt) as [r|e].
  - exists (Val r), [ACall key prompt r]. split; [reflexivity|]. split; [acts_ok|].
    split; [cbn; lia|]. no_write_in.
  - exists (Err e), []. rewrite app_nil_r. destruct st; split; [reflexivity|].
    split; [constructor|]. split; [cbn; lia|]. intros c [].
Qed.

Lemma okX_run p n sp relf w root tp fw : okX p n (runX sp relf w root tp fw).
Proof.
  apply okX_record. intros st. unfold runX, TestRunner.runGeneratedTestFile, TestRunner.getRunnerBinaries.
  cbv [bind access ret record]. cbn [files log].
  match goal with |- context [match ?x with TestRunner.Resolved _ => _ | TestRunner.Rejected _ => _ end] =>
    destruct x end;
  (eexists _, [ARun tp; AAccess _ _]; split; [rewrite <- app_assoc; reflexivity|]);
  (split; [acts_ok|]); (split; [cbn; lia|]); no_write_in.
Qed.

Lemma okX_write p c : okX p 0 (lift (writeFile p c)).
Proof.
  intros st r st' H. injection H as <- <-. exists [AWrite p c]. cbn [log files].
  split; [reflexivity|]. split; [acts_ok|]. split; [cbn; lia|].
  intros _. unfold update. rewrite String.eqb_refl. discriminate.
Qed.

Lemma attemptsX_ok E bX sp relf w opts plan item chunk key outPath cfp fuel attempt ls :
  okX outPath fuel (attemptsX E bX sp relf w opts plan item chunk key outPath cfp fuel attempt ls).
Proof.
  revert attempt ls. induction fuel as [|fuel IH]; intros attempt ls; cbn [attemptsX]; [apply okX_ret|].
  destruct (attempt <=? maxFixLoops opts); [|apply okX_ret].
  apply (okX_bind _ 1 fuel); [apply okX_complete| |lia]. intros raw. cbv zeta.
  destruct (extractCodeBlock E raw) as [code|]; [|apply IH].
  destruct (String.eqb code ""); [apply IH|].
  destruct (negb _); [apply IH|].
  destruct (_ =? 0); [apply IH|].
  apply (okX_bind _ 0 fuel); [apply okX_write| |lia]. intros _.
  apply (okX_bind _ 0 fuel); [apply okX_run| |lia]. intros rr.
  destruct (negb (r_ok rr)).
  - destruct (attempt =? maxFixLoops opts); [apply okX_ret|apply IH].
  - apply (okX_bind _ 0 fuel); [apply okX_emit; discriminate|intros _; apply okX_ret|lia].
Qed.

Lemma errX_of_okX {A} p n (m : MX A) : okX p n m -> errX p n m.
Proof. intros H st e st' E. exact (H _ _ _ E). Qed.

Lemma errX_bind {A B} p n1 n2 n (m : MX A) (k : A -> MX B) :
  okX p n1 m -> (forall a, errX p n2 (k a)) -> (n1 + n2 <= n)%nat -> errX p n (bindX m k).
Proof.
  intros Hm Hk Hn st e st' H. unfold bindX in H.
  destruct (m st) as [[a|e1] st1] eqn:H1.
  - destruct (Hm _ _ _ H1) as (n1' & Hl1 & Hf1 & Hc1 & Hw1).
    destruct (Hk a _ _ _ H) as (n2' & Hl2 & Hf2 & Hc2 & Hw2).
    exists (n1' ++ n2'). split; [rewrite Hl2, Hl1, app_assoc; reflexivity|].
    split; [apply Forall_app; split; assumption|]. split; [rewrite count_calls_app'; lia|].
    intros Hx. apply Hw2. destruct Hx as [Hx|[c Hc]].
    + left. apply Hw1. left. exact Hx.
    + apply in_app_or in Hc as [Hc|Hc]; [left; apply Hw1; right; exists c; exact Hc|].
      right. exists c. exact Hc.
  - injection H as <- <-. destruct (Hm _ _ _ H1) as (n1' & Hl1 & Hf1 & Hc1 & Hw1).
    exists n1'. repeat split; try assumption. lia.
Qed.

(** A step that never rejects. *)
Lemma errX_never {A} p n (m : MX A) : (forall st, exists a st', m st = (Val a, st')) -> errX p n m.
Proof. intros Hm st e st' H. destruct (Hm st) as (a & st1 & E). congruence. Qed.

(** C1 (code_bug): in [generateTestsForPlan], a chunk whose processing
    rejects (the backend call fails, or the runner throws on a spawn error
    other than [ENOENT]) has made at most [maxFixLoops] backend calls, but
    it is not abandoned: no [fs.rm] of its test file and no skip event
    happen, and a test file an attempt has written stays on disk. *)
Theorem processChunkX_rejection_keeps_file E backendX spawnChild relative isWin32 opts plan item chunk st e st' :
  processChunkX E backendX spawnChild relative isWin32 opts plan item chunk st = (Err e, st') ->
  let outPath := resolveOutPath (projectRoot opts) (outDir opts) (rel item) in
  exists new, log st' = log st ++ new /\
    (count_calls new <= Z.to_nat (maxFixLoops opts))%nat /\
    ~ In (ARm outPath) new /\
    (forall ev, In (AEvent ev) new -> etype ev <> ESkip) /\
    (forall c, In (AWrite outPath c) new -> files st' outPath <> None).
Proof.
  intros H outPath.
  assert (Hx : errX outPath (Z.to_nat (maxFixLoops opts))
                 (processChunkX E backendX spawnChild relative isWin32 opts plan item chunk)).
  { unfold processChunkX. cbv zeta.
    destruct (resume_has _ _); [apply errX_never; intros st0; eexists _, _; reflexivity|].
    apply (errX_bind _ 0 (Z.to_nat (maxFixLoops opts))); [apply okX_emit; discriminate| |lia]. intros _.
    apply (errX_bind _ 0 (Z.to_nat (maxFixLoops opts))); [apply okX_mkdir| |lia]. intros _.
    apply (errX_bind _ 0 (Z.to_nat (maxFixLoops opts))); [apply okX_access| |lia]. intros found.
    destruct found; [apply errX_of_okX, okX_emit; discriminate|].
    apply (errX_bind _ (Z.to_nat (maxFixLoops opts)) 0); [apply attemptsX_ok| |lia]. intros ls.
    apply errX_never. intros st0. destruct (wrote ls); eexists _, _; reflexivity. }
  destruct (Hx _ _ _ H) as (new & Hl & Hf & Hc & Hw).
  exists new. split; [exact Hl|]. split; [exact Hc|].
  rewrite Forall_forall in Hf. split; [|split].
  - intros Hin. exact (proj1 (Hf _ Hin) eq_refl).
  - intros ev Hin. exact (proj2 (Hf _ Hin) ev eq_refl).
  - intros c Hin. apply Hw. right. exists c. exact Hin.
Qed.

(** The generator writes [out/src/__tests__/Big.test.tsx] for
    [src/Big.tsx#Button], then [runGeneratedTestFile] rejects with the
    [EACCES] of [node_modules/.bin/jest]: the file stays on disk. *)
Lemma processChunkX_rejection_keeps_file_witness :
  exists e st',
    processChunkX passing_env answers_test spawn_jest_eacces relative_id false
      basic_opts big_plan big_item big_chunk_a st_jest_bin = (Err e, st') /\
    files st' big_test_path = Some test_source /\
    exists new, log st' = log st_jest_bin ++ new /\
      (count_calls new <= Z.to_nat (maxFixLoops basic_opts))%nat /\
      ~ In (ARm big_test_path) new /\
      (forall ev, In (AEvent ev) new -> etype ev <> ESkip) /\
      (forall c, In (AWrite big_test_path c) new -> files st' big_test_path <> None).
Proof.
  destruct (processChunkX passing_env answers_test spawn_jest_eacces relative_id false
              basic_opts big_plan big_item big_chunk_a st_jest_bin) as [r st'] eqn:H.
  destruct r as [u|e]; [vm_compute in H; discriminate H|].
  exists e, st'. split; [reflexivity|].
  split; [vm_compute in H; injection H as _ <-; reflexivity|].
  exact (processChunkX_rejection_keeps_file passing_env answers_test spawn_jest_eacces relative_id false
           basic_opts big_plan big_item big_chunk_a st_jest_bin e st' H).
Defined.

End GeneratorXProofs.

(* ------------------------------------------------------------------ *)
(** ** Concrete instances of the run-state, runner and tool theorems *)

Module ExtraWitnesses.
Import Json RunState Effects Planner Chunker GenInputs.
Local Open Scope string_scope.

Definition state_path : string := "out/.llama-testgen-state.json".

Definition fresh_manager : Manager.Manager :=
  Manager.newManager state_path "5c1e" "basic" 2 None 1000.

Definition button_result : Manager.Manager :=
  Manager.recordChunkResult "src/Big.tsx" (Some "src/Big.tsx#Button") "write"
    (Some "2|rtl") (Some 11) (Some 40) 1040 1041 fresh_manager.

Definition stringify_stub (_ : json) : string := "{}".

Definition session_ops : list Manager.Op :=
  [Manager.ORecordChunkResult "src/Big.tsx" (Some "src/Big.tsx#useToggle") "skip"
     (Some "Failed after 2 attempts") None (Some 90) 1100 1101;
   Manager.OTimer; Manager.OReset;
   Manager.OSetTotals 1 1 0 2 1200; Manager.OComplete].

Definition parse_back (_ : string) : option json := Some (Manager.to_json (Manager.state button_result)).

(** Two chunks of [src/over.ts] with the id of an overloaded function. *)
Definition overload_item : WorkItem :=
  mkWorkItem "src/over.ts" 30
    [mkChunk "src/over.ts#f" "export function f(a: string): string;" KFunction 10;
     mkChunk "src/over.ts#f" "export function f(a: any) { return a; }" KFunction 10] None.
Definition overload_plan : WorkPlan := mkWorkPlan 4096 "rtl-web" "jest" [overload_item].

Lemma recordChunkResult_marks_completed_witness :
  Manager.is_proto_key "src/Big.tsx" = false /\
  In (chunkKey "src/Big.tsx" (Some "src/Big.tsx#Button")) (Manager.getCompletedChunkKeys button_result).
Proof.
  split; [reflexivity|].
  apply ManagerProofs.recordChunkResult_marks_completed; [reflexivity|left; reflexivity].
Defined.

Lemma run_keeps_completed_keys_witness :
  forallb Manager.op_ok session_ops = true /\
  incl (Manager.getCompletedChunkKeys button_result)
       (Manager.getCompletedChunkKeys (fst (Manager.run stringify_stub session_ops button_result st0))).
Proof.
  split; [reflexivity|]. apply ManagerProofs.run_keeps_completed_keys. reflexivity.
Defined.

Lemma flush_then_reload_witness :
  Manager.dirty button_result = true /\
  let text := stringify_stub (Manager.to_json (Manager.state button_result)) in
  let st' := snd (Manager.flush stringify_stub button_result st0) in
  files st' (Manager.statePath button_result) = Some text /\
  Manager.dirty (fst (Manager.flush stringify_stub button_result st0)) = false /\
  (parse_back text = Some (Manager.to_json (Manager.state button_result)) ->
   loadRunState (Ok text) parse_back = Ok (Some (Manager.to_json (Manager.state button_result))) /\
   forall continueRun,
     chooseRunState (Some (Manager.to_json (Manager.state button_result)))
       (Manager.planSignature (Manager.state button_result)) (Manager.mode (Manager.state button_result))
       (Manager.t_totalChunks (Manager.totals (Manager.state button_result))) continueRun =
     if (Manager.t_totalChunks (Manager.totals (Manager.state button_result))
          <=? Manager.t_completedChunks (Manager.totals (Manager.state button_result)))%Z
     then (None, true)
     else if continueRun then (Some (Manager.to_json (Manager.state button_result)), false)
          else (None, true)).
Proof.
  split; [reflexivity|]. apply ManagerProofs.flush_then_reload. reflexivity.
Defined.

Lemma repeated_keys_never_complete_witness :
  ~ NoDup (Cli.plan_keys overload_plan) /\
  Cli.completes_run (Cli.totalChunks overload_plan)
    (fst (Cli.cli_generate passing_env basic_opts overload_plan (Cli.freshProgress overload_plan) st0))
  = false.
Proof.
  split.
  - intros H. apply NoDup_cons_iff in H. destruct H as [H _]. apply H. left. reflexivity.
  - apply CliProofs.repeated_keys_never_complete.
    intros H. apply NoDup_cons_iff in H. destruct H as [H _]. apply H. left. reflexivity.
Defined.

(** The test runner in a project without a local [jest] binary, with one
    whose spawn fails with [EACCES], and with no runner at all. *)
Definition rel_stub (_ p : string) : string := p.

Definition spawn_pass (_ : string) (_ : list string) (_ : string) : TestRunner.ChildOutcome :=
  TestRunner.Closed (Some 0) "PASS".

Definition pass_result : TestRunner.RunTestResult :=
  TestRunner.mkRunTestResult true "PASS" "jest --runTestsByPath out/a.test.ts".

Definition enoent_msg (cmd : string) : string := "spawn " ++ cmd ++ " ENOENT".

Definition spawn_enoent (cmd : string) (_ : list string) (_ : string) : TestRunner.ChildOutcome :=
  TestRunner.SpawnError (Some "ENOENT") (enoent_msg cmd).

Definition local_jest : string := "/proj/node_modules/.bin/jest".

Definition st_local_jest : St :=
  mkSt (fun p => if String.eqb p local_jest then Some "#!/usr/bin/env node" else None) [].

Definition spawn_eacces (cmd : string) (_ : list string) (_ : string) : TestRunner.ChildOutcome :=
  if String.eqb cmd local_jest then TestRunner.SpawnError (Some "EACCES") "spawn EACCES"
  else TestRunner.Closed (Some 0) "PASS".

Lemma runGeneratedTestFile_ok_exit_zero_witness :
  TestRunner.runGeneratedTestFile spawn_pass rel_stub false "/proj" "out/a.test.ts" "jest" st0
    = (TestRunner.Resolved pass_result,
       snd (TestRunner.runGeneratedTestFile spawn_pass rel_stub false "/proj" "out/a.test.ts" "jest" st0)) /\
  TestRunner.ok pass_result = true /\
  exists cmd args out,
    spawn_pass cmd args "/proj" = TestRunner.Closed (Some 0) out /\
    pass_result = TestRunner.mkRunTestResult true (Js.trim out) (Js.trim (cmd ++ " " ++ Js.join " " args)).
Proof.
  split; [vm_compute; reflexivity|]. split; [reflexivity|].
  apply (TestRunnerProofs.runGeneratedTestFile_ok_exit_zero spawn_pass rel_stub false "/proj"
           "out/a.test.ts" "jest" st0 pass_result
           (snd (TestRunner.runGeneratedTestFile spawn_pass rel_stub false "/proj" "out/a.test.ts" "jest" st0)));
    [vm_compute; reflexivity|reflexivity].
Defined.

Lemma runGeneratedTestFile_no_binary_witness :
  (forall cmd args cwd, spawn_enoent cmd args cwd = TestRunner.SpawnError (Some "ENOENT") (enoent_msg cmd)) /\
  fst (TestRunner.runGeneratedTestFile spawn_enoent rel_stub false "/proj" "out/a.test.ts" "vitest" st_local_jest) =
  TestRunner.Resolved (TestRunner.mkRunTestResult false
     (if String.eqb (enoent_msg (TestRunnerProofs.runner_of "vitest")) ""
      then "Unable to locate " ++ TestRunnerProofs.runner_of "vitest" ++ " binary"
      else enoent_msg (TestRunnerProofs.runner_of "vitest"))
     (Js.trim (TestRunnerProofs.runner_of "vitest" ++ " " ++
               Js.join " " (TestRunner.runnerArgs (TestRunnerProofs.runner_of "vitest")
                              (TestRunnerProofs.rel_of rel_stub "/proj" "out/a.test.ts"))))).
Proof.
  split; [intros; reflexivity|].
  apply (TestRunnerProofs.runGeneratedTestFile_no_binary spawn_enoent rel_stub false "/proj"
           "out/a.test.ts" "vitest" enoent_msg st_local_jest).
  intros; reflexivity.
Defined.

Lemma runGeneratedTestFile_rethrows_witness :
  files st_local_jest (TestRunnerProofs.local_bin false "/proj" (TestRunnerProofs.runner_of "jest")) <> None /\
  spawn_eacces (TestRunnerProofs.local_bin false "/proj" (TestRunnerProofs.runner_of "jest"))
    (TestRunner.runnerArgs (TestRunnerProofs.runner_of "jest")
       (TestRunnerProofs.rel_of rel_stub "/proj" "out/a.test.ts")) "/proj"
    = TestRunner.SpawnError (Some "EACCES") "spawn EACCES" /\
  "EACCES" <> "ENOENT" /\
  fst (TestRunner.runGeneratedTestFile spawn_eacces rel_stub false "/proj" "out/a.test.ts" "jest" st_local_jest)
  = TestRunner.Rejected (TestRunner.mkFailure (Some "EACCES") "spawn EACCES").
Proof.
  split; [vm_compute; discriminate|]. split; [vm_compute; reflexivity|]. split; [discriminate|].
  apply TestRunnerProofs.runGeneratedTestFile_rethrows; [vm_compute; discriminate|vm_compute; reflexivity|discriminate].
Defined.

(** A scanned project of one file and [read_file] calls on it. *)
Definition scan_files : list ScanFile := [mkScanFile "src/a.ts" "export const a = 1;"].

Definition no_number (_ : string) : ReadFile.JsNum := ReadFile.NaN.

Definition read_args : json := JObj [("relPath", JStr "src/a.ts")].

Definition read_args_negative : json := JObj [("relPath", JStr "src/a.ts"); ("maxChars", JNum (-3))].

Lemma read_file_prefix_witness :
  Agent.tr_ok (ReadFile.read_file no_number scan_files read_args) = true /\
  exists f d rest,
    In f scan_files /\ Agent.tr_data (ReadFile.read_file no_number scan_files read_args) = Some (JStr d) /\
    file_text f = (d ++ rest)%string /\
    (match ReadFileProofs.maxCharsNumber no_number read_args with
     | Ok n => ReadFileProofs.negative n = false | Throw _ => True end ->
     Js.len d <= 8000)%Z.
Proof.
  split; [reflexivity|]. apply ReadFileProofs.read_file_prefix. reflexivity.
Defined.

Lemma read_file_negative_maxChars_witness :
  get read_args_negative "relPath" = Some (JStr "src/a.ts") /\ "src/a.ts" <> "" /\
  find (fun f => String.eqb (file_rel f) "src/a.ts") scan_files = Some (mkScanFile "src/a.ts" "export const a = 1;") /\
  get read_args_negative "maxChars" = Some (JNum (-3)) /\ (-3 < 0)%Z /\
  exists d, ReadFile.read_file no_number scan_files read_args_negative = Agent.mkToolResult true (Some (JStr d)) None /\
            Js.len d = Z.max (Js.len "export const a = 1;" + -3) 0.
Proof.
  split; [reflexivity|]. split; [discriminate|]. split; [reflexivity|]. split; [reflexivity|].
  split; [lia|].
  apply (ReadFileProofs.read_file_negative_maxChars no_number scan_files read_args_negative "src/a.ts"
           (mkScanFile "src/a.ts" "export const a = 1;") (-3)); [reflexivity|discriminate|reflexivity|reflexivity|lia].
Defined.

End ExtraWitnesses.
